(** * Questron: the GameRoom durable object (worker/src/GameRoom.ts)

    A shallow embedding of the per-room actor: its data model, the
    handlers for inbound WebSocket messages, socket close and the alarm,
    and the scoring performed when a round closes.

    Conventions of the embedding.
    - JavaScript numbers that the code keeps integral (timestamps from
      [Date.now()], indices, counters, time limits in seconds, scores) are
      [Z]; every timestamp is below 2^53, so the integer operations of the
      code are exact.  The places where the code leaves the integers (the
      quotient [remaining / timeLimit], the streak multiplier and
      [percentCorrect]) are computed with binary64 floats, as JavaScript
      does.
    - [state.players] is a JavaScript object iterated in insertion order:
      an association list ([Obj.t]) of its own properties.  Its keys are
      the tags that fetch builds, ["host"] or [role-xxxxxxxx]; none of them
      is the name of a member of [Object.prototype].
    - [state.disconnectedPlayers] is only ever read and written by key: a
      [gmap] of its own properties, and the lookup goes on to the
      prototype when there is no own property.  The prototype is
      [Object.prototype] until a player called ["__proto__"] is filed:
      the assignment then replaces the prototype of the cached object by
      the copy of that player, and creates no own property.  The prototype
      is not stored with the state; the context and the durable object
      carry it in the field [proto].
    - The objects [optionCounts] and [playerChoices] of endRound are plain
      objects too: their lookups see the inherited members.
    - The model follows the room as long as its state has the declared
      type [GameState].  Where the code stores or sends a value that has
      not (the spread of an inherited member as a player, a count that is
      an object), the handler's outcome is [Strayed]: the model says what
      had been done until then and does not follow the room further.
    - The object [state] handed to a handler is the very object cached in
      [this._state]; a handler therefore runs on a context [Ctx] whose field
      [st] is that object, and [saveState] copies it to storage.
    - Outbound traffic is an ordered log of effects; a socket is named by
      its tag.
    - An inbound message is its parsed form, with the payload fields of the
      handlers' declared types; [Date.now()] is one value per event and
      [crypto.randomUUID()] is an argument.
    - Strings are sequences of ASCII characters. *)

From Stdlib Require Import ZArith List Bool Lia.
From Stdlib Require Import Strings.String Strings.Ascii.
From Stdlib Require Import Floats.PrimFloat Floats.FloatOps Floats.SpecFloat.
From Stdlib Require Import Numbers.Cyclic.Int63.Uint63.
From Stdlib Require Import Sorting.Sorted Sorting.Permutation.
From stdpp Require Import base option list gmap strings.
Import ListNotations.

Local Open Scope string_scope.
Local Open Scope Z_scope.

(* ------------------------------------------------------------------ *)
(** ** JavaScript numbers *)

Module Js.

(** An integral JavaScript number as a binary64 float (exact below 2^53). *)
Definition Z2F (z : Z) : float :=
  if z <? 0 then PrimFloat.opp (PrimFloat.of_uint63 (Uint63.of_Z (- z)))
  else PrimFloat.of_uint63 (Uint63.of_Z z).

(** [Math.floor] on a finite float.  The code applies it to a quotient by
    [timeLimitSeconds * 1000], which [createGameState] keeps in
    [5000, 90000]; the operand is then finite.  On NaN and the infinities
    (which JavaScript returns unchanged) the value here is 0. *)
Definition Math_floor (x : float) : Z :=
  match Prim2SF x with
  | S754_finite s m e =>
      let n := if 0 <=? e then Z.shiftl (Z.pos m) e
               else Z.shiftr (Z.pos m) (- e) in
      let exact := if 0 <=? e then true
                   else Z.shiftl n (- e) =? Z.pos m in
      if s then (if exact then - n else - n - 1) else n
  | _ => 0
  end.

(** [Math.round]: the nearest integer, ties towards +infinity; computed
    exactly on the mantissa and exponent as floor (x + 1/2). *)
Definition Math_round (x : float) : Z :=
  match Prim2SF x with
  | S754_finite s m e =>
      let v := if s then Z.neg m else Z.pos m in
      if 0 <=? e then Z.shiftl v e
      else Z.shiftr (2 * v + Z.shiftl 1 (- e)) (- e + 1)
  | _ => 0
  end.

(** [Math.min] on two numbers. *)
Definition Math_min (a b : float) : float :=
  if PrimFloat.is_nan a || PrimFloat.is_nan b then PrimFloat.nan
  else if PrimFloat.ltb b a then b else a.

(** Truthiness of a string: the empty string is falsy. *)
Definition truthy (s : string) : bool :=
  match s with EmptyString => false | _ => true end.

(** [arr.includes(x)] on an array of strings. *)
Definition includes (arr : list string) (x : string) : bool :=
  existsb (String.eqb x) arr.

(** [arr[i]] for an integral index: [undefined] out of range. *)
Definition at_index {A : Type} (arr : list A) (i : Z) : option A :=
  if i <? 0 then None else nth_error arr (Z.to_nat i).

Definition len {A : Type} (arr : list A) : Z := Z.of_nat (List.length arr).

End Js.

(* ------------------------------------------------------------------ *)
(** ** Objects used as insertion-ordered maps *)

Module Obj.

Definition t (V : Type) : Type := list (string * V).

Section Ops.
Context {V : Type}.

(** [o[k]] *)
Fixpoint get (o : t V) (k : string) : option V :=
  match o with
  | [] => None
  | (k', v) :: r => if String.eqb k' k then Some v else get r k
  end.

(** [o[k] = v]: an existing key keeps its position, a new key is
    appended. *)
Fixpoint set (o : t V) (k : string) (v : V) : t V :=
  match o with
  | [] => [(k, v)]
  | (k', v') :: r =>
      if String.eqb k' k then (k', v) :: r else (k', v') :: set r k v
  end.

(** [delete o[k]] *)
Definition del (o : t V) (k : string) : t V :=
  List.filter (fun kv => negb (String.eqb (fst kv) k)) o.

(** [Object.keys(o)], [Object.values(o)], [Object.entries(o)] is [o]. *)
Definition keys (o : t V) : list string := List.map fst o.
Definition values (o : t V) : list V := List.map snd o.

(** [for (const p of Object.values(o)) { ...update p in place... }] *)
Definition each (f : V -> V) (o : t V) : t V :=
  List.map (fun kv => (fst kv, f (snd kv))) o.

End Ops.

End Obj.

(* ------------------------------------------------------------------ *)
(** ** Plain objects and Object.prototype

    An object written [{}], or read back from storage, inherits the
    members of [Object.prototype]: [o[k]] finds them when [o] has no own
    property [k].  All of them are functions, except the accessor
    [__proto__]: reading it gives the prototype; assigning an object to
    it replaces the prototype, assigning anything else does nothing, and
    no own property is created either way. *)

Definition objectPrototypeKeys : list string :=
  ["constructor"; "__defineGetter__"; "__defineSetter__"; "hasOwnProperty";
   "__lookupGetter__"; "__lookupSetter__"; "isPrototypeOf";
   "propertyIsEnumerable"; "toString"; "valueOf"; "__proto__";
   "toLocaleString"].

(** [k] names a member of [Object.prototype]. *)
Definition inherited (k : string) : bool := Js.includes objectPrototypeKeys k.

(** [o[k] = v] on a plain object, for a value [v] that is not an object. *)
Definition plainSet {V : Type} (o : Obj.t V) (k : string) (v : V) : Obj.t V :=
  if String.eqb k "__proto__" then o else Obj.set o k v.

(* ------------------------------------------------------------------ *)
(** ** sanitizeName *)

Definition nat_in (lo hi : nat) (c : ascii) : bool :=
  (Nat.leb lo (nat_of_ascii c) && Nat.leb (nat_of_ascii c) hi)%bool.

(** [\w] *)
Definition is_word (c : ascii) : bool :=
  (nat_in 48 57 c || nat_in 65 90 c || nat_in 97 122 c
   || Ascii.eqb c "_")%bool.

(** [\s] (and the characters removed by [trim]) among ASCII. *)
Definition is_space (c : ascii) : bool :=
  (nat_in 9 13 c || Ascii.eqb c " ")%bool.

(** The class [[\w\s\-'.!]]. *)
Definition is_safe (c : ascii) : bool :=
  (is_word c || is_space c || Ascii.eqb c "-" || Ascii.eqb c "'"
   || Ascii.eqb c "." || Ascii.eqb c "!")%bool.

(** [.replace(/<[^>]*>/g, '')].  [pending] holds a candidate match: the
    text from an unclosed ["<"] on.  A [">"] completes the match, which is
    dropped; at the end of the input an unclosed candidate is kept. *)
Fixpoint stripTags (pending : option string) (s : string) : string :=
  match s with
  | EmptyString => match pending with Some b => b | None => "" end
  | String c r =>
      match pending with
      | None =>
          if Ascii.eqb c "<" then stripTags (Some (String c "")) r
          else String c (stripTags None r)
      | Some b =>
          if Ascii.eqb c ">" then stripTags None r
          else stripTags (Some (String.append b (String c ""))) r
      end
  end.

Fixpoint filterChars (f : ascii -> bool) (s : string) : string :=
  match s with
  | EmptyString => ""
  | String c r => if f c then String c (filterChars f r) else filterChars f r
  end.

(** [.slice(0, n)] *)
Fixpoint sliceTo (n : nat) (s : string) : string :=
  match n, s with
  | S n', String c r => String c (sliceTo n' r)
  | _, _ => ""
  end.

Fixpoint trimStart (s : string) : string :=
  match s with
  | String c r => if is_space c then trimStart r else s
  | EmptyString => ""
  end.

Fixpoint trimEnd (s : string) : string :=
  match s with
  | EmptyString => ""
  | String c r =>
      match trimEnd r with
      | EmptyString => if is_space c then "" else String c ""
      | r' => String c r'
      end
  end.

Definition trim (s : string) : string := trimEnd (trimStart s).

Definition sanitizeName (name : string) : string :=
  trim (sliceTo 24 (filterChars is_safe (stripTags None name))).

(* ------------------------------------------------------------------ *)
(** ** Types *)

Record Player := mkPlayer {
  name : string;
  score : Z;
  answeredAtMs : option Z;
  selectedOptionId : option string;
  lastCorrect : bool;
  delta : Z;
  streak : Z;
  rejoinToken : string
}.

Record QuizOption := mkOption {
  o_id : string;
  label : string;
  shape : option string;
  color : option string
}.

Record QuizQuestion := mkQuestion {
  q_id : string;
  text : string;
  imageUrl : option string;
  imageRef : option string;
  timeLimitSeconds : Z;
  options : list QuizOption;
  correctOptionIds : list string;
  index : Z
}.

Record RoundState := mkRound {
  startMs : Z;
  endMs : Z;
  awaiting : list string;       (* wsTag[]: players who have not answered *)
  msRemaining : option Z        (* set when paused *)
}.

Record GameState := mkState {
  g_id : string;
  title : string;
  questions : list QuizQuestion;
  players : Obj.t Player;                    (* wsTag -> Player *)
  disconnectedPlayers : gmap string Player;  (* name -> Player *)
  started : bool;
  paused : bool;
  currentIndex : Z;
  round : option RoundState;
  hostTag : option string;
  hostSecret : string
}.

(** Field assignments. *)

Definition set_players (v : Obj.t Player) (s : GameState) : GameState :=
  mkState (g_id s) (title s) (questions s) v (disconnectedPlayers s)
    (started s) (paused s) (currentIndex s) (round s) (hostTag s)
    (hostSecret s).

Definition set_disconnectedPlayers (v : gmap string Player) (s : GameState)
  : GameState :=
  mkState (g_id s) (title s) (questions s) (players s) v
    (started s) (paused s) (currentIndex s) (round s) (hostTag s)
    (hostSecret s).

Definition set_started (v : bool) (s : GameState) : GameState :=
  mkState (g_id s) (title s) (questions s) (players s)
    (disconnectedPlayers s) v (paused s) (currentIndex s) (round s)
    (hostTag s) (hostSecret s).

Definition set_paused (v : bool) (s : GameState) : GameState :=
  mkState (g_id s) (title s) (questions s) (players s)
    (disconnectedPlayers s) (started s) v (currentIndex s) (round s)
    (hostTag s) (hostSecret s).

Definition set_currentIndex (v : Z) (s : GameState) : GameState :=
  mkState (g_id s) (title s) (questions s) (players s)
    (disconnectedPlayers s) (started s) (paused s) v (round s)
    (hostTag s) (hostSecret s).

Definition set_round (v : option RoundState) (s : GameState) : GameState :=
  mkState (g_id s) (title s) (questions s) (players s)
    (disconnectedPlayers s) (started s) (paused s) (currentIndex s) v
    (hostTag s) (hostSecret s).

Definition set_hostTag (v : option string) (s : GameState) : GameState :=
  mkState (g_id s) (title s) (questions s) (players s)
    (disconnectedPlayers s) (started s) (paused s) (currentIndex s)
    (round s) v (hostSecret s).

Definition set_awaiting (v : list string) (r : RoundState) : RoundState :=
  mkRound (startMs r) (endMs r) v (msRemaining r).

Definition set_endMs (v : Z) (r : RoundState) : RoundState :=
  mkRound (startMs r) v (awaiting r) (msRemaining r).

Definition set_msRemaining (v : option Z) (r : RoundState) : RoundState :=
  mkRound (startMs r) (endMs r) (awaiting r) v.

(** *** [state.disconnectedPlayers[k]]

    [proto] is the prototype of the object when it is the copy of a
    player, [None] when it is [Object.prototype]. *)

(** [p[k]] for a player object: [None] when [k] is none of its fields,
    else whether the value is truthy. *)
Definition playerFieldTruthy (p : Player) (k : string) : option bool :=
  if String.eqb k "name" then Some (Js.truthy (name p))
  else if String.eqb k "score" then Some (negb (score p =? 0))
  else if String.eqb k "answeredAtMs" then
    Some (match answeredAtMs p with Some t => negb (t =? 0) | None => false end)
  else if String.eqb k "selectedOptionId" then
    Some (match selectedOptionId p with
          | Some o => Js.truthy o
          | None => false
          end)
  else if String.eqb k "lastCorrect" then Some (lastCorrect p)
  else if String.eqb k "delta" then Some (negb (delta p =? 0))
  else if String.eqb k "streak" then Some (negb (streak p =? 0))
  else if String.eqb k "rejoinToken" then Some (Js.truthy (rejoinToken p))
  else None.

(** What the lookup finds. *)
Inductive Found :=
| FoundPlayer (disc : Player)  (* a player object: an own property, or the
                                  prototype itself under [__proto__] *)
| FoundOther                   (* a truthy value that is no player: an
                                  inherited function, [Object.prototype],
                                  a field of the prototype *)
| FoundNothing.                (* [undefined], or a falsy field *)

Definition lookupSnapshot (proto : option Player)
    (own : gmap string Player) (k : string) : Found :=
  match own !! k with
  | Some disc => FoundPlayer disc
  | None =>
      match proto with
      | Some copy =>
          match playerFieldTruthy copy k with
          | Some true => FoundOther
          | Some false => FoundNothing
          | None =>
              if String.eqb k "__proto__" then FoundPlayer copy
              else if inherited k then FoundOther else FoundNothing
          end
      | None => if inherited k then FoundOther else FoundNothing
      end
  end.

(* ------------------------------------------------------------------ *)
(** ** Messages *)

Record LeaderboardEntry := mkEntry {
  lb_name : string;
  lb_score : Z;
  lb_lastCorrect : bool;
  lb_delta : Z;
  lb_streak : Z
}.

(** The payload of [question:show]. *)
Record SafeQuestion := mkSafeQ {
  sq_id : string;
  sq_index : Z;
  sq_total : Z;
  sq_text : string;
  sq_imageUrl : option string;
  sq_imageData : option string;
  sq_timeLimitSeconds : Z;
  sq_options : list QuizOption
}.

(** The payload of [question:reveal]. *)
Record Reveal := mkReveal {
  rv_correctOptionIds : list string;
  rv_index : Z;
  rv_total : Z;
  rv_leaderboard : list LeaderboardEntry;
  rv_counts : list Z;
  rv_playerChoices : Obj.t (list string);
  rv_percentCorrect : Z;
  rv_fastestName : option string
}.

(** Outbound events: [{ type, payload }]. *)
Inductive Msg :=
| lobby_update (playerNames : list string) (gameId title_ : string)
| game_started (title_ : string)
| question_show (safeQ : SafeQuestion)
| player_locked (optionId : option string)
| round_progress (answeredCount totalCount : Z)
| question_reveal (r : Reveal)
| host_canAdvance
| game_paused (msRemaining_ : Z)
| game_resumed (msRemaining_ : Z)
| reaction_received (name_ : string) (emoji : option string)
| player_kicked
| game_cancelled
| game_over (leaderboard : list LeaderboardEntry).

(** Replies to a request: [{ reqId, payload }]. *)
Inductive Ack :=
| ack_error (error : string)
| ack_rejoined (gameId title_ rejoinToken_ : string)
| ack_joined (gameId title_ : string) (questionCount : Z)
    (rejoinToken_ : string)
| ack_exists (title_ : string).

(** What a handler does to the outside world.  A socket is named by its
    tag. *)
Inductive Effect :=
| Broadcast (m : Msg)                       (* this.broadcast *)
| ToTag (tag : string) (m : Msg)            (* this.toTag *)
| Send (ws : string) (m : Msg)              (* this.send(ws, ..) *)
| SendAck (ws : string) (reqId : Z) (a : Ack)   (* this.sendAck *)
| CloseTag (tag : string) (code : Z)        (* ws.close on the tag's sockets *)
| CloseWs (ws : string) (code : Z).         (* ws.close on one socket *)

(** The sockets an effect writes to, among the open ones. *)
Definition deliver (sockets : list string) (e : Effect)
  : list (string * Msg) :=
  match e with
  | Broadcast m => List.map (fun t => (t, m)) sockets
  | ToTag tag m =>
      List.map (fun t => (t, m)) (List.filter (String.eqb tag) sockets)
  | Send ws m => [(ws, m)]
  | _ => []
  end.

(** Inbound messages, by [type]; optional payload fields are options. *)
Inductive Inbound :=
| host_startGame (imageData : option string)
| host_pause
| host_resume
| host_next (imageData : option string)
| player_join (name_ : option string) (rejoinToken_ : option string)
| player_answer (questionId optionId : option string)
| player_react (emoji : option string)
| game_exists
| host_kickPlayer (playerName : option string)
| unknown_type (type : string).

(* ------------------------------------------------------------------ *)
(** ** The handler context *)

Record Ctx := mkCtx {
  st : GameState;             (* the object [state] (= this._state) *)
  gs : option GameState;      (* ctx.storage, key 'gs' *)
  alarmAt : option Z;         (* the scheduled alarm *)
  out : list Effect;          (* effects so far, oldest first *)
  proto : option Player       (* the prototype of state.disconnectedPlayers
                                 when it is the copy of a player *)
}.

(** The result of a handler: completed; aborted by an exception; or gone
    on with a value outside the declared types.  In the last two cases
    the context is whatever had been done by then. *)
Inductive Outcome :=
| Done (c : Ctx)
| Threw (c : Ctx)
| Strayed (c : Ctx).

Definition ctx_of (o : Outcome) : Ctx :=
  match o with Done c => c | Threw c => c | Strayed c => c end.

Definition mutate (f : GameState -> GameState) (c : Ctx) : Ctx :=
  mkCtx (f (st c)) (gs c) (alarmAt c) (out c) (proto c).

(** [await this.saveState(state)] *)
Definition saveState (c : Ctx) : Ctx :=
  mkCtx (st c) (Some (st c)) (alarmAt c) (out c) (proto c).

(** [ctx.storage.setAlarm(t)], [ctx.storage.deleteAlarm()] *)
Definition setAlarm (t : Z) (c : Ctx) : Ctx :=
  mkCtx (st c) (gs c) (Some t) (out c) (proto c).

Definition deleteAlarm (c : Ctx) : Ctx :=
  mkCtx (st c) (gs c) None (out c) (proto c).

Definition emit (e : Effect) (c : Ctx) : Ctx :=
  mkCtx (st c) (gs c) (alarmAt c) (out c ++ [e])%list (proto c).

(** [state.disconnectedPlayers.__proto__ = copy] *)
Definition setProto (copy : Player) (c : Ctx) : Ctx :=
  mkCtx (st c) (gs c) (alarmAt c) (out c) (Some copy).

Definition broadcast (m : Msg) (c : Ctx) : Ctx := emit (Broadcast m) c.

Definition toTag (tag : string) (m : Msg) (c : Ctx) : Ctx :=
  emit (ToTag tag m) c.

Definition toHost (m : Msg) (c : Ctx) : Ctx :=
  match hostTag (st c) with
  | Some h => if Js.truthy h then toTag h m c else c
  | None => c
  end.

(** [const ack = data => { if (reqId !== undefined) this.sendAck(..) }] *)
Definition ack (ws : string) (reqId : option Z) (a : Ack) (c : Ctx) : Ctx :=
  match reqId with
  | Some r => emit (SendAck ws r a) c
  | None => c
  end.

Definition broadcastLobby (c : Ctx) : Ctx :=
  broadcast (lobby_update (List.map name (Obj.values (players (st c))))
               (g_id (st c)) (title (st c))) c.

(** Stable sort of the leaderboard, highest score first. *)
Fixpoint insertEntry (x : LeaderboardEntry) (l : list LeaderboardEntry)
  : list LeaderboardEntry :=
  match l with
  | [] => [x]
  | y :: r =>
      if lb_score x <? lb_score y then y :: insertEntry x r else x :: l
  end.

Definition getLeaderboard (state : GameState) : list LeaderboardEntry :=
  List.fold_right insertEntry []
    (List.map (fun p => mkEntry (name p) (score p) (lastCorrect p)
                          (delta p) (streak p))
       (Obj.values (players state))).

(* ------------------------------------------------------------------ *)
(** ** createGameState *)

(** A question and a quiz as uploaded. *)
Record RawQuestion := mkRawQuestion {
  rq_id : string;
  rq_text : string;
  rq_imageUrl : option string;
  rq_imageRef : option string;
  rq_timeLimitSeconds : option Z;
  rq_options : list QuizOption;
  rq_correctOptionIds : list string
}.

Record QuizPayload := mkPayload {
  p_title : option string;
  p_defaultTimeLimitSeconds : option Z;
  p_shuffleQuestions : option bool;
  p_shuffleAnswers : option bool;
  p_questions : list RawQuestion
}.

(** [x || d] on an optional number and on an optional string. *)
Definition numberOr (x : option Z) (d : Z) : Z :=
  match x with
  | Some v => if v =? 0 then d else v
  | None => d
  end.

Definition stringOrNull (x : option string) : option string :=
  match x with
  | Some v => if Js.truthy v then Some v else None
  | None => None
  end.

(** [Math.max(5, Math.min(90, t))] *)
Definition clampTimeLimit (t : Z) : Z := Z.max 5 (Z.min 90 t).

(** [shuffle]: every element is paired with a draw of [Math.random()]
    (here the draws are given, one per element, and only their order
    matters), the pairs are sorted by the draw with the stable sort of
    [Array.prototype.sort], the elements are projected out. *)
Fixpoint insertByKey {T : Type} (x : Z * T) (l : list (Z * T))
  : list (Z * T) :=
  match l with
  | [] => [x]
  | y :: r => if fst y <? fst x then y :: insertByKey x r else x :: l
  end.

Definition shuffle {T : Type} (draws : list Z) (arr : list T) : list T :=
  List.map snd (List.fold_right insertByKey [] (List.combine draws arr)).

(** [drawsQ] are the draws for the question order, [drawsA] those for the
    options of each question, [uuid] the value of [crypto.randomUUID()]. *)
Definition createGameState (gameId : string) (payload : QuizPayload)
    (drawsQ : list Z) (drawsA : list (list Z)) (uuid : string) : GameState :=
  let defaultTime :=
    clampTimeLimit (numberOr (p_defaultTimeLimitSeconds payload) 20) in
  let shouldShuffle :=
    match p_shuffleQuestions payload with Some false => false | _ => true end in
  let ordered :=
    if shouldShuffle then shuffle drawsQ (p_questions payload)
    else p_questions payload in
  let shouldShuffleAnswers :=
    match p_shuffleAnswers payload with Some false => false | _ => true end in
  let questions_ :=
    List.map
      (fun iq : nat * RawQuestion =>
         let idx := fst iq in
         let q := snd iq in
         mkQuestion (rq_id q) (rq_text q) (stringOrNull (rq_imageUrl q))
           (stringOrNull (rq_imageRef q))
           (clampTimeLimit (numberOr (rq_timeLimitSeconds q) defaultTime))
           (if shouldShuffleAnswers
            then shuffle (List.nth idx drawsA []) (rq_options q)
            else rq_options q)
           (rq_correctOptionIds q) (Z.of_nat idx))
      (List.combine (List.seq 0 (List.length ordered)) ordered) in
  mkState gameId
    (sliceTo 80 (match p_title payload with
                 | Some t => if Js.truthy t then t else "Quiz"
                 | None => "Quiz"
                 end))
    questions_ [] ∅ false false (-1) None None uuid.

(* ------------------------------------------------------------------ *)
(** ** Game flow: startQuestion, endRound, endGame *)

Definition endGame (now : Z) (c : Ctx) : Ctx :=
  let leaderboard := getLeaderboard (st c) in
  let c := broadcast (game_over leaderboard) c in
  let c := setAlarm (now + 60000) c in
  let c := mutate (set_started false) c in    (* "prevents re-entry" *)
  saveState c.

(** The per-round fields reset at the start of a question. *)
Definition resetRoundFields (p : Player) : Player :=
  mkPlayer (name p) (score p) None None false 0 (streak p) (rejoinToken p).

Definition startQuestion (now : Z) (imageData : option string) (c : Ctx)
  : Outcome :=
  let c := mutate (fun s => set_currentIndex (currentIndex s + 1) s) c in
  if Js.len (questions (st c)) <=? currentIndex (st c) then
    Done (endGame now c)
  else
    match Js.at_index (questions (st c)) (currentIndex (st c)) with
    | None => Threw c                       (* q.timeLimitSeconds of undefined *)
    | Some q =>
        let startMs_ := now in
        let endMs_ := startMs_ + timeLimitSeconds q * 1000 in
        let c := mutate (fun s =>
                   set_players (Obj.each resetRoundFields (players s)) s) c in
        let c := mutate (set_paused false) c in
        let c := mutate (fun s =>
                   set_round (Some (mkRound startMs_ endMs_
                                      (Obj.keys (players s)) None)) s) c in
        let c := setAlarm endMs_ c in
        let c := saveState c in
        (* Safe question payload: correct answers excluded *)
        let safeQ := mkSafeQ (q_id q) (currentIndex (st c))
                       (Js.len (questions (st c))) (text q) (imageUrl q)
                       imageData (timeLimitSeconds q) (options q) in
        Done (broadcast (question_show safeQ) c)
    end.

(** [base] and [streakMult] of endRound. *)
Definition roundBase (remaining timeLimit : Z) : Z :=
  Js.Math_floor (500 + 500 * (Js.Z2F remaining / Js.Z2F timeLimit))%float.

Definition streakMult (streak_ : Z) : float :=
  if 2 <=? streak_
  then Js.Math_min 1.5%float
         (1.0 + (Js.Z2F (streak_ - 1)) * 0x1.999999999999ap-4)%float (* 0.1 *)
  else 1.0%float.

(** The body of the scoring loop of endRound for one player. *)
Definition scorePlayer (q : QuizQuestion) (endMs_ : Z) (p : Player) : Player :=
  let correct :=
    match selectedOptionId p with
    | Some o => Js.includes (correctOptionIds q) o
    | None => false
    end in
  match correct, answeredAtMs p with
  | true, Some t =>
      let streak_ := streak p + 1 in
      let timeLimit := timeLimitSeconds q * 1000 in
      let remaining := Z.max 0 (endMs_ - t) in
      let base := roundBase remaining timeLimit in
      let delta_ := Js.Math_floor (Js.Z2F base * streakMult streak_)%float in
      mkPlayer (name p) (score p + delta_) (answeredAtMs p)
        (selectedOptionId p) correct delta_ streak_ (rejoinToken p)
  | _, _ =>
      mkPlayer (name p) (score p) (answeredAtMs p) (selectedOptionId p)
        correct 0 0 (rejoinToken p)
  end.

(** The scoring loop when [q] is undefined: players that did not answer
    are scored without looking at [q]; the first one that answered makes
    [q.correctOptionIds] throw. *)
Fixpoint scoreUntilThrow (ps : Obj.t Player) : Obj.t Player :=
  match ps with
  | [] => []
  | (t, p) :: r =>
      match selectedOptionId p with
      | None =>
          (t, mkPlayer (name p) (score p) (answeredAtMs p) None false 0 0
                (rejoinToken p)) :: scoreUntilThrow r
      | Some _ => ps
      end
  end.

(** [optionCounts]: one counter per option id, incremented per player.
    A counter is a number, or [NaN] ([None]): incrementing an inherited
    member stores [NaN] under its name. *)
Definition optionCounts (q : QuizQuestion) (vals : list Player)
  : Obj.t (option Z) :=
  let zero := List.fold_left
                (fun acc opt => plainSet acc (o_id opt) (Some 0))
                (options q) [] in
  List.fold_left
    (fun acc p =>
       match selectedOptionId p with
       | Some sel =>
           if Js.truthy sel then
             match Obj.get acc sel with
             | Some n => plainSet acc sel (option_map (fun n => n + 1) n)
             | None => if inherited sel then plainSet acc sel None else acc
             end
           else acc
       | None => acc
       end) vals zero.

(** [optionCounts[k] ?? 0] when it is a number; [None] when it is [NaN]
    or an inherited member. *)
Definition countOf (counts : Obj.t (option Z)) (k : string) : option Z :=
  match Obj.get counts k with
  | Some n => n
  | None => if inherited k then None else Some 0
  end.

Fixpoint allNumbers (l : list (option Z)) : option (list Z) :=
  match l with
  | [] => Some []
  | Some n :: r =>
      match allNumbers r with
      | Some ns => Some (n :: ns)
      | None => None
      end
  | None :: _ => None
  end.

(** [q.options.map(opt => optionCounts[opt.id] ?? 0)]: [None] when an
    entry is not a number. *)
Definition revealCounts (q : QuizQuestion) (vals : list Player)
  : option (list Z) :=
  allNumbers
    (List.map (fun opt => countOf (optionCounts q vals) (o_id opt))
       (options q)).

(** [playerChoices]: per option id, the names of the players who chose
    it. *)
Inductive Choices :=
| ChoicesOf (o : Obj.t (list string))
| ChoicesThrow      (* [.push] on an inherited member: a TypeError *)
| ChoicesUntyped.   (* an option called [__proto__]: the assignment of []
                       replaces the prototype by that array *)

Definition playerChoices (q : QuizQuestion) (vals : list Player) : Choices :=
  if existsb (fun opt => String.eqb (o_id opt) "__proto__") (options q) then
    ChoicesUntyped
  else
    let empty := List.fold_left (fun acc opt => Obj.set acc (o_id opt) [])
                   (options q) [] in
    match
      List.fold_left
        (fun (acc : option (Obj.t (list string))) p =>
           match acc with
           | None => None
           | Some o =>
               match selectedOptionId p with
               | Some sel =>
                   if Js.truthy sel then
                     match Obj.get o sel with
                     | Some names =>
                         Some (Obj.set o sel (names ++ [name p])%list)
                     | None => if inherited sel then None else Some o
                     end
                   else Some o
               | None => Some o
               end
           end) vals (Some empty)
    with
    | Some o => ChoicesOf o
    | None => ChoicesThrow
    end.

(** [p.selectedOptionId !== null] *)
Definition hasAnswered (p : Player) : bool :=
  match selectedOptionId p with Some _ => true | None => false end.

Definition percentCorrect (vals : list Player) : Z :=
  let totalAnswered :=
    Js.len (List.filter hasAnswered vals) in
  let correctAnswered := Js.len (List.filter lastCorrect vals) in
  if 0 <? totalAnswered
  then Js.Math_round
         ((Js.Z2F correctAnswered / Js.Z2F totalAnswered) * 100)%float
  else 0.

(** The fastest correct responder; [None] as [fastestMs] is [Infinity]. *)
Definition fastestName (vals : list Player) : option string :=
  snd (List.fold_left
         (fun (acc : option Z * option string) p =>
            if lastCorrect p then
              match answeredAtMs p with
              | Some t =>
                  match fst acc with
                  | Some m => if t <? m then (Some t, Some (name p)) else acc
                  | None => (Some t, Some (name p))
                  end
              | None => acc
              end
            else acc)
         vals (None, None)).

Definition endRound (c : Ctx) : Outcome :=
  match round (st c) with
  | None => Done c
  | Some r =>
      match Js.at_index (questions (st c)) (currentIndex (st c)) with
      | None =>
          Threw (mutate (fun s =>
                   set_players (scoreUntilThrow (players s)) s) c)
      | Some q =>
          (* Score players *)
          let c := mutate (fun s =>
                     set_players
                       (Obj.each (scorePlayer q (endMs r)) (players s)) s)
                     c in
          let vals := Obj.values (players (st c)) in
          match revealCounts q vals, playerChoices q vals with
          | Some counts, ChoicesOf choices =>
              let c := broadcast
                         (question_reveal
                            (mkReveal (correctOptionIds q)
                               (currentIndex (st c))
                               (Js.len (questions (st c)))
                               (getLeaderboard (st c)) counts
                               choices (percentCorrect vals)
                               (fastestName vals))) c in
              let c := mutate (set_round None) c in
              let c := saveState c in
              (* Tell host they can advance *)
              Done (toHost host_canAdvance c)
          | Some _, ChoicesThrow => Threw c
          | _, _ => Strayed c      (* counts holds an object *)
          end
      end
  end.

(* ------------------------------------------------------------------ *)
(** ** Game event handlers *)

Definition onHostStart (wsTag : string) (now : Z) (imageData : option string)
    (c : Ctx) : Outcome :=
  if negb (String.eqb wsTag "host") || started (st c) then Done c
  else
    let c := mutate (set_started true) c in
    let c := saveState c in
    let c := broadcast (game_started (title (st c))) c in
    startQuestion now imageData c.

Definition onHostPause (wsTag : string) (now : Z) (c : Ctx) : Ctx :=
  match round (st c) with
  | None => c
  | Some r =>
      if negb (String.eqb wsTag "host") || paused (st c) then c
      else
        let c := mutate (set_paused true) c in
        let msRemaining_ := Z.max 0 (endMs r - now) in
        let c := mutate (set_round
                           (Some (set_msRemaining (Some msRemaining_) r))) c in
        let c := deleteAlarm c in          (* cancel the active timer *)
        let c := saveState c in
        broadcast (game_paused msRemaining_) c
  end.

Definition onHostResume (wsTag : string) (now : Z) (c : Ctx) : Ctx :=
  match round (st c) with
  | None => c
  | Some r =>
      if negb (String.eqb wsTag "host") || negb (paused (st c)) then c
      else
        let msRemaining_ := default 5000 (msRemaining r) in
        let c := mutate (set_paused false) c in
        let endMs_ := now + msRemaining_ in
        let c := mutate (set_round
                           (Some (set_msRemaining None (set_endMs endMs_ r))))
                   c in
        let c := setAlarm endMs_ c in
        let c := saveState c in
        broadcast (game_resumed msRemaining_) c
  end.

Definition onHostNext (wsTag : string) (now : Z) (imageData : option string)
    (c : Ctx) : Outcome :=
  if negb (String.eqb wsTag "host") then Done c
  else startQuestion now imageData c.

(** [uuid] is the value of [crypto.randomUUID()], read on every path since
    it does not depend on the state. *)
Definition onPlayerJoin (wsTag : string) (name_ rejoinToken_ : option string)
    (reqId : option Z) (uuid : string) (c : Ctx) : Outcome :=
  match name_ with
  | None => Done (ack wsTag reqId (ack_error "Name required.") c)
  | Some rawName =>
  if negb (Js.truthy rawName) then
    Done (ack wsTag reqId (ack_error "Name required.") c)
  else
  let safeName := sanitizeName rawName in
  if negb (Js.truthy safeName) then
    Done (ack wsTag reqId (ack_error "Invalid name.") c)
  else if started (st c) then
    match lookupSnapshot (proto c) (disconnectedPlayers (st c)) safeName with
    | FoundNothing =>
        Done (ack wsTag reqId (ack_error "Game already started.") c)
    | FoundOther =>
        (* it has no rejoinToken: the check is skipped, and its spread,
           an object with none of a player's fields, is bound to the tag *)
        Strayed c
    | FoundPlayer disc =>
        (* Validate rejoin token (skip for legacy players without token) *)
        if Js.truthy (rejoinToken disc)
           && negb (bool_decide (rejoinToken_ = Some (rejoinToken disc)))
        then Done (ack wsTag reqId (ack_error "Invalid rejoin credentials.") c)
        else
          (* Rejoin: [delete] removes an own property only *)
          let c := mutate (fun s =>
                     set_disconnectedPlayers
                       (delete safeName (disconnectedPlayers s)) s) c in
          let c := mutate (fun s =>
                     set_players (Obj.set (players s) wsTag disc) s) c in
          let c := saveState c in
          let c := ack wsTag reqId
                     (ack_rejoined (g_id (st c)) (title (st c))
                        (rejoinToken disc)) c in
          let c := emit (Send wsTag (game_started (title (st c)))) c in
          Done (broadcastLobby c)
    end
  else if 100 <=? Js.len (Obj.keys (players (st c))) then
    Done (ack wsTag reqId (ack_error "Game is full.") c)
  else if existsb (fun p => String.eqb (name p) safeName)
            (Obj.values (players (st c))) then
    (* Don't allow duplicate names in lobby *)
    Done (ack wsTag reqId (ack_error "Name already taken.") c)
  else
    let c := mutate (fun s =>
               set_players
                 (Obj.set (players s) wsTag
                    (mkPlayer safeName 0 None None false 0 0 uuid)) s) c in
    let c := saveState c in
    let c := ack wsTag reqId
               (ack_joined (g_id (st c)) (title (st c))
                  (Js.len (questions (st c))) uuid) c in
    Done (broadcastLobby c)
  end.

(** [p.selectedOptionId = optionId; p.answeredAtMs = Date.now()] *)
Definition lockAnswer (optionId : string) (now : Z) (p : Player) : Player :=
  mkPlayer (name p) (score p) (Some now) (Some optionId) (lastCorrect p)
    (delta p) (streak p) (rejoinToken p).

Definition onPlayerAnswer (wsTag : string) (now : Z)
    (questionId optionId : option string) (c : Ctx) : Outcome :=
  match round (st c) with
  | None => Done c
  | Some r =>
  if paused (st c) then Done c else
  match Obj.get (players (st c)) wsTag with
  | None => Done c
  | Some p =>
  match Js.at_index (questions (st c)) (currentIndex (st c)) with
  | None => Done c
  | Some q =>
  if negb (bool_decide (questionId = Some (q_id q))) then Done c else
  match selectedOptionId p with
  | Some _ => Done c                          (* already answered *)
  | None =>
  (* Validate optionId belongs to this question *)
  match optionId with
  | None => Done c
  | Some oid =>
  if negb (Js.truthy oid)
     || negb (existsb (fun opt => String.eqb (o_id opt) oid) (options q))
  then Done c
  else
    let c := mutate (fun s =>
               set_players
                 (Obj.set (players s) wsTag (lockAnswer oid now p)) s) c in
    let awaiting_ :=
      List.filter (fun t => negb (String.eqb t wsTag)) (awaiting r) in
    let c := mutate (set_round (Some (set_awaiting awaiting_ r))) c in
    (* Confirm lock to the player *)
    let c := toTag wsTag (player_locked optionId) c in
    (* Progress to host *)
    let answeredCount :=
      Js.len (List.filter hasAnswered (Obj.values (players (st c)))) in
    let c := toHost (round_progress answeredCount
                       (Js.len (Obj.keys (players (st c))))) c in
    (* End early if all answered *)
    match awaiting_ with
    | [] => endRound (saveState (deleteAlarm c))
    | _ => Done (saveState c)
    end
  end end end end end.

Definition onHostKickPlayer (wsTag : string) (playerName : option string)
    (c : Ctx) : Ctx :=
  if negb (String.eqb wsTag "host") || started (st c) then c
  else
    match playerName with
    | None => c
    | Some name_ =>
        if negb (Js.truthy name_) then c
        else
          match List.find (fun kv => String.eqb (name (snd kv)) name_)
                  (players (st c)) with
          | None => c
          | Some (playerTag, _) =>
              (* Notify and disconnect the player *)
              let c := toTag playerTag player_kicked c in
              let c := emit (CloseTag playerTag 1000) c in
              let c := mutate (fun s =>
                         set_players (Obj.del (players s) playerTag) s) c in
              let c := saveState c in
              broadcastLobby c
          end
    end.

Definition allowedEmoji : list string :=
  ["👏"; "🔥"; "😂"; "💀"; "🎉"; "🤯"].

Definition onPlayerReact (wsTag : string) (emoji : option string) (c : Ctx)
  : Ctx :=
  if negb (started (st c)) then c
  else
    match Obj.get (players (st c)) wsTag with
    | None => c
    | Some p =>
        if negb (Js.includes allowedEmoji (default "" emoji)) then c
        else toHost (reaction_received (name p) emoji) c
    end.

(** The part of webSocketClose that handles a player's socket. *)
Definition onPlayerClose (wsTag : string) (c : Ctx) : Ctx :=
  match Obj.get (players (st c)) wsTag with
  | None => c
  | Some player =>
      let c :=
        if started (st c) then
          (* Preserve player data for potential rejoin; under the key
             [__proto__] the copy becomes the prototype instead *)
          if String.eqb (name player) "__proto__" then setProto player c
          else
            mutate (fun s =>
              set_disconnectedPlayers
                (<[name player := player]> (disconnectedPlayers s)) s) c
        else c in
      let c := mutate (fun s =>
                 set_players (Obj.del (players s) wsTag) s) c in
      (* Remove from awaiting if in active round *)
      let c := mutate (fun s =>
                 match round s with
                 | Some r =>
                     set_round
                       (Some (set_awaiting
                                (List.filter
                                   (fun t => negb (String.eqb t wsTag))
                                   (awaiting r)) r)) s
                 | None => s
                 end) c in
      let c := broadcastLobby c in
      (* If round active and everyone left, clean up timer *)
      let c :=
        match round (st c), Obj.keys (players (st c)) with
        | Some _, [] => mutate (set_round None) (deleteAlarm c)
        | _, _ => c
        end in
      saveState c
  end.

(* ------------------------------------------------------------------ *)
(** ** The durable object *)

Record DO := mkDO {
  _state : option GameState;            (* this._state *)
  _wsRateMap : gmap string (list Z);    (* this._wsRateMap *)
  storage_gs : option GameState;        (* ctx.storage, key 'gs' *)
  storage_alarm : option Z;             (* ctx.storage alarm *)
  _proto : option Player                (* the prototype of
                                           this._state.disconnectedPlayers
                                           when it is the copy of a player *)
}.

(** What an entry point leaves behind and sends out; [Raised] when the
    handler threw, [Astray] when it went on with a value outside the
    declared types. *)
Inductive Result :=
| Returned (d : DO) (effects : list Effect)
| Raised (d : DO) (effects : list Effect)
| Astray (d : DO) (effects : list Effect).

Definition do_of (r : Result) : DO :=
  match r with Returned d _ => d | Raised d _ => d | Astray d _ => d end.

Definition effects_of (r : Result) : list Effect :=
  match r with Returned _ e => e | Raised _ e => e | Astray _ e => e end.

(** [getState]: the cached state, loaded from storage on a cold start. *)
Definition stateOf (d : DO) : option GameState :=
  match _state d with
  | Some s => Some s
  | None => storage_gs d
  end.

(** The prototype that goes with the state [getState] returns: an object
    read from storage is a fresh one. *)
Definition protoOf (d : DO) : option Player :=
  match _state d with
  | Some _ => _proto d
  | None => None
  end.

Definition getState (d : DO) : DO * option GameState :=
  (mkDO (stateOf d) (_wsRateMap d) (storage_gs d) (storage_alarm d)
     (protoOf d),
   stateOf d).

(** [ctx.storage.deleteAll(); this._state = null].  The alarm is a facility
    of its own (setAlarm / deleteAlarm) and is left as it is. *)
Definition purge (d : DO) : DO :=
  mkDO None (_wsRateMap d) None (storage_alarm d) None.

Definition enter (d : DO) (state : GameState) : Ctx :=
  mkCtx state (storage_gs d) (storage_alarm d) [] (_proto d).

Definition leaveCtx (d : DO) (c : Ctx) : DO :=
  mkDO (Some (st c)) (_wsRateMap d) (gs c) (alarmAt c) (proto c).

Definition leave (d : DO) (o : Outcome) : Result :=
  match o with
  | Done c => Returned (leaveCtx d c) (out c)
  | Threw c => Raised (leaveCtx d c) (out c)
  | Strayed c => Astray (leaveCtx d c) (out c)
  end.

(** *** fetch: status check and WebSocket upgrade *)

(** POST /init: the state is created and saved; the reply carries the
    question order and the host secret. *)
Definition fetchInit (gameId : string) (payload : QuizPayload)
    (drawsQ : list Z) (drawsA : list (list Z)) (uuid : string) (d : DO)
  : DO * (list string * string) :=
  let state := createGameState gameId payload drawsQ drawsA uuid in
  (mkDO (Some state) (_wsRateMap d) (Some state) (storage_alarm d) None,
   (List.map q_id (questions state), hostSecret state)).

Inductive StatusReply :=
| room_not_found
| already_started
| room_open (title_ : string).

Definition fetchStatus (d : DO) : DO * StatusReply :=
  let (d, state) := getState d in
  match state with
  | None => (d, room_not_found)
  | Some s =>
      if started s then (d, already_started) else (d, room_open (title s))
  end.

Inductive UpgradeReply :=
| upgrade_404
| upgrade_403
| upgrade_101 (wsTag : string).

Definition fetchUpgrade (role : string) (secret : option string)
    (uuid : string) (d : DO) : DO * UpgradeReply :=
  if String.eqb role "host" then
    let (d, state) := getState d in
    match state with
    | None => (d, upgrade_404)
    | Some s =>
        (* Legacy rooms (no hostSecret) skip the check *)
        if Js.truthy (hostSecret s)
           && negb (bool_decide (secret = Some (hostSecret s)))
        then (d, upgrade_403)
        else
          let c := saveState (mutate (set_hostTag (Some "host"))
                                (enter d s)) in
          (leaveCtx d c, upgrade_101 "host")
    end
  else (d, upgrade_101 (String.append role
                          (String.append "-" (sliceTo 8 uuid)))).

(** *** webSocketMessage *)

Record Message := mkMessage {
  body : Inbound;
  reqId : option Z
}.

(** [while (hits.length > 0 && hits[0] < now - 10_000) hits.shift()] *)
Fixpoint dropOld (now : Z) (hits : list Z) : list Z :=
  match hits with
  | h :: r => if h <? now - 10000 then dropOld now r else hits
  | [] => []
  end.

(** The [switch (type)] of webSocketMessage. *)
Definition dispatch (wsTag : string) (now : Z) (msg : Message)
    (uuid : string) (c : Ctx) : Outcome :=
  match body msg with
  | host_startGame img => onHostStart wsTag now img c
  | host_pause => Done (onHostPause wsTag now c)
  | host_resume => Done (onHostResume wsTag now c)
  | host_next img => onHostNext wsTag now img c
  | player_join n tok => onPlayerJoin wsTag n tok (reqId msg) uuid c
  | player_answer qid oid => onPlayerAnswer wsTag now qid oid c
  | player_react e => Done (onPlayerReact wsTag e c)
  | game_exists => Done (ack wsTag (reqId msg) (ack_exists (title (st c))) c)
  | host_kickPlayer n => Done (onHostKickPlayer wsTag n c)
  | unknown_type _ => Done c       (* ignore unknown events *)
  end.

(** [message] is the result of [JSON.parse]: [None] when it throws. *)
Definition webSocketMessage (wsTag : string) (now : Z)
    (message : option Message) (uuid : string) (d : DO) : Result :=
  (* Per-WebSocket rate limiting: 30 messages per 10 seconds *)
  let hits := (dropOld now (default [] (_wsRateMap d !! wsTag)) ++ [now])%list in
  let d := mkDO (_state d) (<[wsTag := hits]> (_wsRateMap d))
             (storage_gs d) (storage_alarm d) (_proto d) in
  if 30 <? Js.len hits then Returned d []     (* silently drop excess *)
  else
    let (d, state) := getState d in
    match state with
    | None => Returned d [CloseWs wsTag 1011]
    | Some state =>
        match message with
        | None => Returned d []
        | Some msg => leave d (dispatch wsTag now msg uuid (enter d state))
        end
    end.

(** *** webSocketClose *)

Definition webSocketClose (wsTag : string) (d : DO) : DO * list Effect :=
  let (d, state) := getState d in
  match state with
  | None => (d, [])
  | Some state =>
      if String.eqb wsTag "host" then
        (purge d, [Broadcast game_cancelled])
      else
        let c := onPlayerClose wsTag (enter d state) in
        (leaveCtx d c, out c)
  end.

(** *** alarm (question timer or post-game cleanup) *)

Definition alarm (d : DO) : Result :=
  let (d, state) := getState d in
  match state with
  | None => Returned d []
  | Some state =>
      match round state with
      | None => Returned (purge d) []    (* post-game cleanup *)
      | Some _ =>
          if paused state then Returned d []
          else leave d (endRound (enter d state))
      end
  end.

(** The platform delivering a due alarm: the schedule is cleared, then the
    handler runs. *)
Definition fireAlarm (d : DO) : Result :=
  alarm (mkDO (_state d) (_wsRateMap d) (storage_gs d) None (_proto d)).

(* ------------------------------------------------------------------ *)
(** ** A sample game *)

Module Sample.

Definition quiz : QuizPayload :=
  mkPayload (Some "Sums") None (Some false) (Some false)
    [mkRawQuestion "q1" "2 + 2 ?" None None None
       [mkOption "a" "3" None None; mkOption "b" "4" None None] ["b"];
     mkRawQuestion "q2" "3 + 3 ?" None None (Some 20)
       [mkOption "a" "6" None None; mkOption "b" "7" None None] ["a"]].

(** A freshly created room. *)
Definition room0 : DO :=
  Eval vm_compute in
  fst (fetchInit "ABC234" quiz [] [] "secret" (mkDO None ∅ None None None)).

Definition lobby : GameState :=
  Eval vm_compute in default (createGameState "" quiz [] [] "") (stateOf room0).

Definition q1 : QuizQuestion :=
  Eval vm_compute in
  default (mkQuestion "" "" None None 0 [] [] 0) (Js.at_index (questions lobby) 0).

Definition q2 : QuizQuestion :=
  Eval vm_compute in
  default (mkQuestion "" "" None None 0 [] [] 0) (Js.at_index (questions lobby) 1).

Definition say (b : Inbound) : option Message := Some (mkMessage b (Some 1)).

(** The host connects; ann and bob join; the host starts at t = 1000. *)
Definition room1 : DO :=
  Eval vm_compute in
  fst (fetchUpgrade "host" (Some "secret") "" room0).
Definition room2 : DO :=
  Eval vm_compute in
  do_of (webSocketMessage "player-ann" 10 (say (player_join (Some "ann") None))
           "tok-ann" room1).
Definition room3 : DO :=
  Eval vm_compute in
  do_of (webSocketMessage "player-bob" 20 (say (player_join (Some "bob") None))
           "tok-bob" room2).
Definition room4 : DO :=
  Eval vm_compute in
  do_of (webSocketMessage "host" 1000 (say (host_startGame None)) "" room3).


(** ann answers "b" (correct) 5 s into the round. *)
Definition room5 : DO :=
  Eval vm_compute in
  do_of (webSocketMessage "player-ann" 6000
           (say (player_answer (Some "q1") (Some "b"))) "" room4).

(** bob answers "a" (wrong) 8 s into the round: everybody has answered,
    the round closes early. *)
Definition room6 : DO :=
  Eval vm_compute in
  do_of (webSocketMessage "player-bob" 9000
           (say (player_answer (Some "q1") (Some "a"))) "" room5).

(** The host advances; both answer the second question; the host advances
    past the last question: the game is over. *)
Definition room7 : DO :=
  Eval vm_compute in
  do_of (webSocketMessage "host" 12000 (say (host_next None)) "" room6).
Definition room8 : DO :=
  Eval vm_compute in
  do_of (webSocketMessage "player-bob" 15000
           (say (player_answer (Some "q2") (Some "a"))) ""
           (do_of (webSocketMessage "player-ann" 13000
                     (say (player_answer (Some "q2") (Some "a"))) ""
                     room7))).
Definition roomOver : DO :=
  Eval vm_compute in
  do_of (webSocketMessage "host" 20000 (say (host_next None)) "" room8).

Definition ctxOf (d : DO) : Ctx :=
  enter d (default lobby (stateOf d)).

(** A quiz whose first question has an option called [constructor].  bob
    chooses it, drops out, and comes back while the second question is
    open: his snapshot carries the answer to the first one. *)
Definition quizC : QuizPayload :=
  mkPayload (Some "Words") None (Some false) (Some false)
    [mkRawQuestion "q1" "Which is a JavaScript keyword ?" None None None
       [mkOption "constructor" "constructor" None None;
        mkOption "b" "new" None None] ["b"];
     mkRawQuestion "q2" "3 + 3 ?" None None (Some 20)
       [mkOption "a" "6" None None; mkOption "b" "7" None None] ["a"]].

Definition roomC4 : DO :=
  Eval vm_compute in
  let d := fst (fetchInit "ABC235" quizC [] [] "secret"
                  (mkDO None ∅ None None None)) in
  let d := fst (fetchUpgrade "host" (Some "secret") "" d) in
  let d := do_of (webSocketMessage "player-ann" 10
                    (say (player_join (Some "ann") None)) "tok-ann" d) in
  let d := do_of (webSocketMessage "player-bob" 20
                    (say (player_join (Some "bob") None)) "tok-bob" d) in
  do_of (webSocketMessage "host" 1000 (say (host_startGame None)) "" d).

(** bob answers, then his socket closes; ann answers: the first round
    closes.  The host opens the second question; bob rejoins. *)
Definition roomC7 : DO :=
  Eval vm_compute in
  let d := do_of (webSocketMessage "player-bob" 2000
                    (say (player_answer (Some "q1") (Some "constructor")))
                    "" roomC4) in
  let d := fst (webSocketClose "player-bob" d) in
  do_of (webSocketMessage "player-ann" 3000
           (say (player_answer (Some "q1") (Some "b"))) "" d).

Definition roomC9 : DO :=
  Eval vm_compute in
  let d := do_of (webSocketMessage "host" 5000 (say (host_next None)) ""
                    roomC7) in
  do_of (webSocketMessage "player-bob2" 6000
           (say (player_join (Some "bob") (Some "tok-bob"))) "" d).

End Sample.

(* ------------------------------------------------------------------ *)
(** ** The claimed scoring rule, in the words of the specification

    [remainingTimeFraction = max(0, endMs - answeredAtMs) /
    (timeLimitSeconds * 1000)], [base = floor(500 + 500 *
    remainingTimeFraction)], [multiplier = min(1.5, 1.0 + (streak-1)*0.1)]
    once [streak >= 2] and 1.0 otherwise, [delta = floor(base *
    multiplier)]; the arithmetic is that of JavaScript numbers. *)

Module Claimed.

Definition remainingTimeFraction (endMs_ answeredAtMs_ timeLimitSeconds_ : Z)
  : float :=
  (Js.Z2F (Z.max 0 (endMs_ - answeredAtMs_))
   / Js.Z2F (timeLimitSeconds_ * 1000))%float.

Definition base (endMs_ answeredAtMs_ timeLimitSeconds_ : Z) : Z :=
  Js.Math_floor
    (500 + 500 * remainingTimeFraction endMs_ answeredAtMs_
                   timeLimitSeconds_)%float.

Definition one_tenth : float := 0x1.999999999999ap-4%float.

Definition multiplier (streak_ : Z) : float :=
  if 2 <=? streak_
  then Js.Math_min 1.5%float (1.0 + Js.Z2F (streak_ - 1) * one_tenth)%float
  else 1.0%float.

Definition delta (endMs_ answeredAtMs_ timeLimitSeconds_ streak_ : Z) : Z :=
  Js.Math_floor
    (Js.Z2F (base endMs_ answeredAtMs_ timeLimitSeconds_)
     * multiplier streak_)%float.

(** A player has answered correctly when an answer and its time are on
    record and the answer is one of the correct options. *)
Definition answeredCorrectly (q : QuizQuestion) (p : Player) : Prop :=
  exists o t, selectedOptionId p = Some o /\ answeredAtMs p = Some t
              /\ In o (correctOptionIds q).

End Claimed.

(* ------------------------------------------------------------------ *)
(** ** Vocabulary of the statements *)

(** The guards of onPlayerAnswer, with what they bind. *)
Definition accepts (s : GameState) (wsTag : string)
    (questionId optionId : option string)
    (r : RoundState) (q : QuizQuestion) (p : Player) (o : string) : Prop :=
  round s = Some r /\ paused s = false
  /\ Obj.get (players s) wsTag = Some p
  /\ Js.at_index (questions s) (currentIndex s) = Some q
  /\ questionId = Some (q_id q)
  /\ selectedOptionId p = None
  /\ optionId = Some o /\ o <> "" /\ In o (List.map o_id (options q)).

(** The context once an accepted answer is recorded and announced. *)
Definition lockedCtx (wsTag : string) (now : Z) (o : string)
    (r : RoundState) (p : Player) (c : Ctx) : Ctx :=
  let c := mutate (fun s =>
             set_players (Obj.set (players s) wsTag (lockAnswer o now p)) s)
             c in
  let c := mutate (set_round
                     (Some (set_awaiting
                              (List.filter
                                 (fun t => negb (String.eqb t wsTag))
                                 (awaiting r)) r))) c in
  let c := toTag wsTag (player_locked (Some o)) c in
  toHost (round_progress
            (Js.len (List.filter hasAnswered (Obj.values (players (st c)))))
            (Js.len (Obj.keys (players (st c))))) c.

(** The conditions under which the specification lets a [player:answer]
    through. *)
Definition answerable (s : GameState) (wsTag : string)
    (questionId optionId : option string) : Prop :=
  ((exists r, round s = Some r) /\ paused s = false)
  /\ (exists q, Js.at_index (questions s) (currentIndex s) = Some q
        /\ questionId = Some (q_id q)
        /\ exists o, optionId = Some o /\ In o (List.map o_id (options q)))
  /\ (exists p, Obj.get (players s) wsTag = Some p
        /\ selectedOptionId p = None).

(** The hit list of the rate limiter once the message is counted, and the
    durable object as the switch of webSocketMessage then finds it. *)
Definition hitsAfter (wsTag : string) (now : Z) (d : DO) : list Z :=
  (dropOld now (default [] (_wsRateMap d !! wsTag)) ++ [now])%list.

Definition admitted (wsTag : string) (now : Z) (d : DO) : DO :=
  mkDO (stateOf d) (<[wsTag := hitsAfter wsTag now d]> (_wsRateMap d))
    (storage_gs d) (storage_alarm d) (protoOf d).

(** The tallies of endRound are records of numbers and of name lists: no
    option of the question is called [__proto__], and a recorded answer
    that is the name of a member of [Object.prototype] is one of the
    options of the question. *)
Definition revealable (q : QuizQuestion) (vals : list Player) : bool :=
  negb (existsb (fun opt => String.eqb (o_id opt) "__proto__") (options q))
  && forallb
       (fun p =>
          match selectedOptionId p with
          | Some sel =>
              negb (inherited sel)
              || existsb (fun opt => String.eqb (o_id opt) sel) (options q)
          | None => true
          end) vals.

(** The context once the loop of endRound has scored the players. *)
Definition scoredCtx (q : QuizQuestion) (r : RoundState) (c : Ctx) : Ctx :=
  mutate (fun s =>
            set_players (Obj.each (scorePlayer q (endMs r)) (players s)) s) c.

(** [p'] is [p] after the scoring of question [q] closed at [endMs_], in
    the words of the specification: after a correct answer the streak goes
    up by one and the delta of the scoring rule is earned; otherwise delta
    and streak are 0 and the score is kept.  Name, recorded answer and
    token are those of [p]. *)
Definition scoredAs (q : QuizQuestion) (endMs_ : Z) (p p' : Player) : Prop :=
  name p' = name p /\ rejoinToken p' = rejoinToken p
  /\ selectedOptionId p' = selectedOptionId p
  /\ answeredAtMs p' = answeredAtMs p
  /\ (forall o t,
        selectedOptionId p = Some o -> answeredAtMs p = Some t ->
        In o (correctOptionIds q) ->
        lastCorrect p' = true
        /\ streak p' = streak p + 1
        /\ delta p' = Claimed.delta endMs_ t (timeLimitSeconds q) (streak p + 1)
        /\ score p' = score p + delta p')
  /\ (~ Claimed.answeredCorrectly q p ->
      delta p' = 0 /\ streak p' = 0 /\ score p' = score p).

(** [p'] is [p] with the answer [o] given at [now] on record. *)
Definition recordedAs (o : string) (now : Z) (p p' : Player) : Prop :=
  selectedOptionId p' = Some o /\ answeredAtMs p' = Some now
  /\ name p' = name p /\ score p' = score p /\ streak p' = streak p
  /\ rejoinToken p' = rejoinToken p.

(** A handler that changed nothing in the room: the state object, the
    stored snapshot and the alarm are as before. *)
Definition unchanged (c c' : Ctx) : Prop :=
  st c' = st c /\ gs c' = gs c /\ alarmAt c' = alarmAt c.

(** The token check of the rejoin path. *)
Definition tokenOk (disc : Player) (tok : option string) : Prop :=
  rejoinToken disc <> "" -> tok = Some (rejoinToken disc).

(** What startQuestion sends, as a function of the state it is called on. *)
Definition startEffects (imageData : option string) (s : GameState)
  : list Effect :=
  let i := currentIndex s + 1 in
  if Js.len (questions s) <=? i then [Broadcast (game_over (getLeaderboard s))]
  else
    match Js.at_index (questions s) i with
    | None => []
    | Some q =>
        [Broadcast
           (question_show
              (mkSafeQ (q_id q) i (Js.len (questions s)) (text q)
                 (imageUrl q) imageData (timeLimitSeconds q) (options q)))]
    end.

(** A question without its correct-answer identifiers. *)
Definition hideCorrect (q : QuizQuestion) : QuizQuestion :=
  mkQuestion (q_id q) (text q) (imageUrl q) (imageRef q)
    (timeLimitSeconds q) (options q) [] (index q).

(** Two states that differ at most in the correct-answer identifiers of
    their questions. *)
Definition sameButCorrect (s1 s2 : GameState) : Prop :=
  List.map hideCorrect (questions s1) = List.map hideCorrect (questions s2)
  /\ g_id s1 = g_id s2 /\ title s1 = title s2
  /\ players s1 = players s2
  /\ disconnectedPlayers s1 = disconnectedPlayers s2
  /\ started s1 = started s2 /\ paused s1 = paused s2
  /\ currentIndex s1 = currentIndex s2 /\ round s1 = round s2
  /\ hostTag s1 = hostTag s2 /\ hostSecret s1 = hostSecret s2.

(** [s] with the correct-answer identifiers of question [i] replaced. *)
Definition withCorrect (i : nat) (ids : list string) (s : GameState)
  : GameState :=
  mkState (g_id s) (title s)
    (List.map (fun nq : nat * QuizQuestion =>
                 if Nat.eqb (fst nq) i
                 then mkQuestion (q_id (snd nq)) (text (snd nq))
                        (imageUrl (snd nq)) (imageRef (snd nq))
                        (timeLimitSeconds (snd nq)) (options (snd nq)) ids
                        (index (snd nq))
                 else snd nq)
       (List.combine (List.seq 0 (List.length (questions s))) (questions s)))
    (players s) (disconnectedPlayers s) (started s) (paused s)
    (currentIndex s) (round s) (hostTag s) (hostSecret s).

(** The events the durable object reacts to. *)
Inductive Event :=
| EvMessage (wsTag : string) (now : Z) (message : option Message)
    (uuid : string)
| EvClose (wsTag : string)
| EvAlarm.

Definition step (e : Event) (d : DO) : DO :=
  match e with
  | EvMessage wsTag now message uuid =>
      do_of (webSocketMessage wsTag now message uuid d)
  | EvClose wsTag => fst (webSocketClose wsTag d)
  | EvAlarm => do_of (alarm d)
  end.




(* ------------------------------------------------------------------ *)
(** ** Further vocabulary *)

(** Every character of [s] satisfies [f]. *)
Fixpoint allChars (f : ascii -> bool) (s : string) : bool :=
  match s with
  | EmptyString => true
  | String c r => f c && allChars f r
  end.

(** The first and the last character of a string. *)
Definition firstChar (s : string) : option ascii :=
  match s with
  | String c _ => Some c
  | EmptyString => None
  end.

Fixpoint lastChar (s : string) : option ascii :=
  match s with
  | EmptyString => None
  | String c EmptyString => Some c
  | String _ r => lastChar r
  end.

(** One draw of [Math.random()] is at hand for every element that
    createGameState shuffles. *)
Definition enoughDraws (payload : QuizPayload) (drawsQ : list Z)
    (drawsA : list (list Z)) : Prop :=
  (List.length (p_questions payload) <= List.length drawsQ)%nat
  /\ forall idx raw,
       (idx < List.length (p_questions payload))%nat ->
       In raw (p_questions payload) ->
       (List.length (rq_options raw) <= List.length (List.nth idx drawsA []))%nat.

(** The leaderboard entry of a player. *)
Definition entryOf (p : Player) : LeaderboardEntry :=
  mkEntry (name p) (score p) (lastCorrect p) (delta p) (streak p).

(** A hit of the rate limiter that is at most 10 s old. *)
Definition recentHit (now : Z) (h : Z) : bool := now - 10000 <=? h.

(** The names of the connected players, in the order of [state.players]. *)
Definition namesOf (s : GameState) : list string :=
  List.map name (Obj.values (players s)).

(** What every state of a room satisfies: connection tags and display
    names are unique among the connected players, who are at most 100; a
    snapshot is filed under its player's name; while the game is started
    no snapshot has the name of a connected player and snapshots and
    players together are at most 100; and once snapshots exist the flag
    is only ever false when the questions are exhausted. *)
Definition roomInv (s : GameState) : Prop :=
  List.NoDup (Obj.keys (players s))
  /\ List.NoDup (namesOf s)
  /\ Js.len (players s) <= 100
  /\ (forall n p, disconnectedPlayers s !! n = Some p -> name p = n)
  /\ (started s = true ->
      (forall n p, disconnectedPlayers s !! n = Some p -> ~ In n (namesOf s))
      /\ Js.len (players s) + Z.of_nat (size (disconnectedPlayers s)) <= 100)
  /\ (started s = false -> disconnectedPlayers s <> ∅ ->
      Js.len (questions s) <= currentIndex s).

Definition optInv (o : option GameState) : Prop :=
  forall s, o = Some s -> roomInv s.

Definition ctxInv (c : Ctx) : Prop := roomInv (st c) /\ optInv (gs c).


(** Two states that agree on everything [roomInv] looks at. *)
Definition sameRoom (s s' : GameState) : Prop :=
  Obj.keys (players s') = Obj.keys (players s)
  /\ namesOf s' = namesOf s
  /\ disconnectedPlayers s' = disconnectedPlayers s
  /\ started s' = started s
  /\ Js.len (questions s') = Js.len (questions s)
  /\ currentIndex s' = currentIndex s.

(** The stored snapshot after a handler: the one of before, or the state
    the handler leaves. *)
Definition savedOrKept (c c' : Ctx) : Prop :=
  gs c' = gs c \/ gs c' = Some (st c').

(** Everything that reaches the durable object: the events, the HTTP
    requests of fetch, and the platform discarding the instance between
    two events (hibernation), after which the fields start again from
    their initialisers and the state is read back from storage. *)
Inductive Request :=
| ReqEvent (e : Event)
| ReqInit (gameId : string) (payload : QuizPayload) (drawsQ : list Z)
    (drawsA : list (list Z)) (uuid : string)
| ReqStatus
| ReqUpgrade (role : string) (secret : option string) (uuid : string)
| ReqEvict.

Definition evict (d : DO) : DO :=
  mkDO None ∅ (storage_gs d) (storage_alarm d) None.

Definition serve (r : Request) (d : DO) : DO :=
  match r with
  | ReqEvent e => step e d
  | ReqInit gameId payload drawsQ drawsA uuid =>
      fst (fetchInit gameId payload drawsQ drawsA uuid d)
  | ReqStatus => fst (fetchStatus d)
  | ReqUpgrade role secret uuid => fst (fetchUpgrade role secret uuid d)
  | ReqEvict => evict d
  end.

Definition serveAll (rs : list Request) (d : DO) : DO :=
  List.fold_left (fun d r => serve r d) rs d.

(** The request makes its handler go on with a value outside the declared
    types. *)
Definition strays (r : Request) (d : DO) : bool :=
  match r with
  | ReqEvent (EvMessage wsTag now message uuid) =>
      match webSocketMessage wsTag now message uuid d with
      | Astray _ _ => true
      | _ => false
      end
  | ReqEvent EvAlarm =>
      match alarm d with
      | Astray _ _ => true
      | _ => false
      end
  | _ => false
  end.

(** No request of the sequence strays. *)
Fixpoint typedRun (rs : list Request) (d : DO) : bool :=
  match rs with
  | [] => true
  | r :: rs => negb (strays r d) && typedRun rs (serve r d)
  end.

(** The request is a player:join whose sanitized name is [n]. *)
Definition joinsAs (n : string) (r : Request) : bool :=
  match r with
  | ReqEvent (EvMessage _ _ (Some m) _) =>
      match body m with
      | player_join (Some rawName) _ => String.eqb (sanitizeName rawName) n
      | _ => false
      end
  | _ => false
  end.



(** A property of states that holds of the state a handler works on and
    of the stored snapshot; of the cached state and the stored snapshot
    of the durable object. *)
Definition optHolds (I : GameState -> Prop) (o : option GameState) : Prop :=
  forall s, o = Some s -> I s.

Definition ctxHolds (I : GameState -> Prop) (c : Ctx) : Prop :=
  I (st c) /\ optHolds I (gs c).

Definition doHolds (I : GameState -> Prop) (d : DO) : Prop :=
  optHolds I (_state d) /\ optHolds I (storage_gs d).

(** The same, with a property of the prototype of the snapshots. *)
Definition ctxKeeps (I : GameState -> Prop) (P : option Player -> Prop)
    (c : Ctx) : Prop :=
  ctxHolds I c /\ P (proto c).

Definition doKeeps (I : GameState -> Prop) (P : option Player -> Prop)
    (d : DO) : Prop :=
  doHolds I d /\ P (_proto d).

(** Every name of the room, of a connected player or of a snapshot,
    satisfies [good]; the copy of a player that serves as prototype
    does. *)
Definition namesAll (good : string -> Prop) (s : GameState) : Prop :=
  (forall n, In n (namesOf s) -> good n)
  /\ (forall k p, disconnectedPlayers s !! k = Some p -> good (name p)).

Definition protoHolds (good : string -> Prop) (pr : option Player) : Prop :=
  forall copy, pr = Some copy -> good (name copy).

Definition notProto (n : string) : Prop := n <> "__proto__".

(** A name as sanitizeName leaves it: not empty, and a fixed point. *)
Definition cleanName (n : string) : Prop :=
  n <> "" /\ sanitizeName n = n.

(** The creation of a room, among the requests. *)
Definition isInit (r : Request) : bool :=
  match r with
  | ReqInit _ _ _ _ _ => true
  | _ => false
  end.

(** The player answered with one of the correct options of [q], at
    time [t]. *)
Definition correctAt (q : QuizQuestion) (p : Player) (t : Z) : Prop :=
  exists o, selectedOptionId p = Some o /\ In o (correctOptionIds q)
            /\ answeredAtMs p = Some t.

(** The players whose selected option is [oid], and their names; an
    empty identifier selects nobody ([p.selectedOptionId && ...]). *)
Definition choosers (oid : string) (vals : list Player) : list Player :=
  List.filter (fun p => Js.truthy oid
                        && bool_decide (selectedOptionId p = Some oid)) vals.

Definition voters (oid : string) (vals : list Player) : list string :=
  List.map name (choosers oid vals).

(** The loop that finds the fastest correct responder. *)
Definition fastestStep (acc : option Z * option string) (p : Player)
  : option Z * option string :=
  if lastCorrect p then
    match answeredAtMs p with
    | Some t =>
        match fst acc with
        | Some m => if t <? m then (Some t, Some (name p)) else acc
        | None => (Some t, Some (name p))
        end
    | None => acc
    end
  else acc.


(* ------------------------------------------------------------------ *)
(** ** The Worker entry (worker/src/index.ts)

    The room code, the check of the [exists] route and the per-address
    rate limiter.  The six random bytes of [crypto.getRandomValues] and the
    value of [Date.now()] are arguments. *)

Definition CODE_ALPHABET : string := "ABCDEFGHJKMNPQRSTUVWXYZ23456789".

(** [s[i]] inside [join('')]: out of range it is [undefined], which
    [join] renders as the empty string. *)
Definition charAt (s : string) (i : nat) : string :=
  match String.get i s with
  | Some c => String c ""
  | None => ""
  end.

(** [Array.from(bytes, b => CODE_ALPHABET[b % CODE_ALPHABET.length])
    .join('')] *)
Definition generateGameId (bytes : list Byte.byte) : string :=
  List.fold_right String.append ""
    (List.map
       (fun b =>
          charAt CODE_ALPHABET
            (N.to_nat (Byte.to_N b
                       mod N.of_nat (String.length CODE_ALPHABET))))
       bytes).

Fixpoint mapChars (f : ascii -> ascii) (s : string) : string :=
  match s with
  | EmptyString => ""
  | String c r => String (f c) (mapChars f r)
  end.

(** [.toUpperCase()] *)
Definition toUpperCase (s : string) : string :=
  mapChars (fun c => if nat_in 97 122 c
                     then ascii_of_nat (nat_of_ascii c - 32) else c) s.

(** [/^[A-Z0-9]{6}$/.test(s)] *)
Definition isRoomCode (s : string) : bool :=
  Nat.eqb (String.length s) 6
  && allChars (fun c => nat_in 65 90 c || nat_in 48 57 c) s.

(** The check of [GET /api/exists/:gameId] on the path segment: the code
    looked up, or [None] for "Invalid room code." *)
Definition existsRouteCode (segment : string) : option string :=
  let gameId := toUpperCase segment in
  if negb (Js.truthy gameId) || negb (isRoomCode gameId) then None
  else Some gameId.

(** [v.length === 0 || v[v.length - 1] < now - RATE_WINDOW_MS * 2] *)
Definition staleBucket (now : Z) (v : list Z) : bool :=
  match v with
  | [] => true
  | _ => List.last v 0 <? now - 10000 * 2
  end.

(** [isRateLimited(ip, max)]: the hit list of [ip] is the array stored in
    the map, so the map sees the hits dropped and the hit added. *)
Definition isRateLimited (ip : string) (max now : Z)
    (rateBuckets : gmap string (list Z)) : gmap string (list Z) * bool :=
  let hits :=
    (dropOld now (default [] (rateBuckets !! ip)) ++ [now])%list in
  let rateBuckets := <[ip := hits]> rateBuckets in
  (* Prevent unbounded memory growth across many unique IPs *)
  let rateBuckets :=
    if 10000 <? Z.of_nat (size rateBuckets)
    then filter (fun kv => staleBucket now (snd kv) = false) rateBuckets
    else rateBuckets in
  (rateBuckets, max <? Js.len hits).

(** A sequence of calls of the limiter, and the times of those of one
    address. *)
Record Call := mkCall {
  call_ip : string;
  call_max : Z;
  call_now : Z
}.

Definition serveCalls (cs : list Call) (rateBuckets : gmap string (list Z))
  : gmap string (list Z) :=
  List.fold_left
    (fun b c => fst (isRateLimited (call_ip c) (call_max c) (call_now c) b))
    cs rateBuckets.

Definition callsOf (ip : string) (cs : list Call) : list Z :=
  List.map call_now (List.filter (fun c => String.eqb (call_ip c) ip) cs).

(* ------------------------------------------------------------------ *)
(** ** The quiz packer (scripts/pack-quiz.js) *)

(** The class [[a-zA-Z0-9._-]]. *)
Definition is_filename_char (c : ascii) : bool :=
  nat_in 97 122 c || nat_in 65 90 c || nat_in 48 57 c
  || Ascii.eqb c "." || Ascii.eqb c "_" || Ascii.eqb c "-".

(** [name.replace(/[^a-zA-Z0-9._-]/g, '_').slice(0, 100)] *)
Definition sanitizeFilename (name : string) : string :=
  sliceTo 100
    (mapChars (fun c => if is_filename_char c then c else "_"%char) name).

(** [/^[\w.\-]{1,100}$/.test(s)], the check of [imageRef] in
    validateQuizJson and in the Worker's validateQuiz. *)
Definition safeFilename (s : string) : bool :=
  Nat.leb 1 (String.length s) && Nat.leb (String.length s) 100
  && allChars (fun c => is_word c || Ascii.eqb c "." || Ascii.eqb c "-") s.

(** The parts of the state that make the quiz: they are fixed at the
    creation of the room. *)
Definition sameQuiz (s s' : GameState) : Prop :=
  questions s' = questions s /\ g_id s' = g_id s
  /\ title s' = title s /\ hostSecret s' = hostSecret s.

(** A handler kept the quiz, in the state and in whatever it stored. *)
Definition quizKept (c c' : Ctx) : Prop :=
  sameQuiz (st c) (st c')
  /\ forall s1, gs c' = Some s1 -> gs c = Some s1 \/ sameQuiz (st c) s1.

(** The reply to a request, when it carries a request id. *)
Definition reply (ws : string) (reqId_ : option Z) (a : Ack) : list Effect :=
  match reqId_ with
  | Some r => [SendAck ws r a]
  | None => []
  end.

(** A request turned down: nothing changes, and the error is the only
    thing sent. *)
Definition refused (ws : string) (reqId_ : option Z) (error : string)
    (c c' : Ctx) : Prop :=
  unchanged c c'
  /\ out c' = (out c ++ reply ws reqId_ (ack_error error))%list.

(** What the host is told once a round is closed, if a host is bound. *)
Definition hostAdvance (s : GameState) : list Effect :=
  match hostTag s with
  | Some h => if Js.truthy h then [ToTag h host_canAdvance] else []
  | None => []
  end.

(* ------------------------------------------------------------------ *)
(** ** Lemmas on objects *)

Section ObjFacts.
Context {V : Type}.
Implicit Types (o : Obj.t V) (k : string) (v : V).

Lemma get_each (f : V -> V) o k :
  Obj.get (Obj.each f o) k = option_map f (Obj.get o k).
Proof.
  induction o as [|[k' v'] o IH]; simpl; [reflexivity|].
  destruct (String.eqb k' k); [reflexivity | exact IH].
Qed.

Lemma get_set_eq o k v : Obj.get (Obj.set o k v) k = Some v.
Proof.
  induction o as [|[k' v'] o IH]; simpl.
  - now rewrite String.eqb_refl.
  - destruct (String.eqb k' k) eqn:E; simpl; rewrite E; auto.
Qed.

Lemma get_set_ne o k k' v :
  k <> k' -> Obj.get (Obj.set o k v) k' = Obj.get o k'.
Proof.
  intros Hne. induction o as [|[k0 v0] o IH]; simpl.
  - destruct (String.eqb_spec k k'); [contradiction | reflexivity].
  - destruct (String.eqb_spec k0 k) as [->|Hk]; simpl.
    + destruct (String.eqb_spec k k'); [contradiction | reflexivity].
    + destruct (String.eqb k0 k'); [reflexivity | exact IH].
Qed.

Lemma get_del_eq o k : Obj.get (Obj.del o k) k = None.
Proof.
  unfold Obj.del. induction o as [|[k' v'] o IH]; simpl; [reflexivity|].
  destruct (String.eqb k' k) eqn:E; simpl; [exact IH|].
  now rewrite E.
Qed.

Lemma get_del_ne o k k' :
  k <> k' -> Obj.get (Obj.del o k) k' = Obj.get o k'.
Proof.
  intros Hne. unfold Obj.del.
  induction o as [|[k0 v0] o IH]; simpl; [reflexivity|].
  destruct (String.eqb_spec k0 k) as [->|Hk]; simpl.
  - destruct (String.eqb_spec k k'); [contradiction | exact IH].
  - destruct (String.eqb k0 k'); [reflexivity | exact IH].
Qed.

Lemma keys_each (f : V -> V) o : Obj.keys (Obj.each f o) = Obj.keys o.
Proof.
  unfold Obj.keys, Obj.each. rewrite List.map_map. reflexivity.
Qed.

Lemma get_Some_key o k v : Obj.get o k = Some v -> In k (Obj.keys o).
Proof.
  induction o as [|[k' v'] o IH]; simpl; [discriminate|].
  destruct (String.eqb_spec k' k); intros H; [left | right]; auto.
Qed.

End ObjFacts.

Lemma includes_In (arr : list string) (x : string) :
  Js.includes arr x = true <-> In x arr.
Proof.
  unfold Js.includes. rewrite List.existsb_exists. split.
  - intros (y & Hy & E). apply String.eqb_eq in E. now subst.
  - intros H. exists x. split; [exact H | apply String.eqb_refl].
Qed.

(* ------------------------------------------------------------------ *)
(** ** The tallies of endRound *)

Lemma values_each {V : Type} (f : V -> V) (o : Obj.t V) :
  Obj.values (Obj.each f o) = List.map f (Obj.values o).
Proof.
  unfold Obj.values, Obj.each. rewrite !List.map_map. reflexivity.
Qed.

Lemma name_scorePlayer q e p : name (scorePlayer q e p) = name p.
Proof.
  unfold scorePlayer.
  destruct (selectedOptionId p) as [o|]; [|reflexivity].
  destruct (Js.includes (correctOptionIds q) o); [|reflexivity].
  destruct (answeredAtMs p); reflexivity.
Qed.

Lemma scorePlayer_selected q e p :
  selectedOptionId (scorePlayer q e p) = selectedOptionId p.
Proof.
  unfold scorePlayer.
  destruct (selectedOptionId p) as [o|]; [|reflexivity].
  destruct (Js.includes (correctOptionIds q) o); [|reflexivity].
  destruct (answeredAtMs p); reflexivity.
Qed.

Lemma scorePlayer_answeredAt q e p :
  answeredAtMs (scorePlayer q e p) = answeredAtMs p.
Proof.
  unfold scorePlayer.
  destruct (selectedOptionId p) as [o|]; [|reflexivity].
  destruct (Js.includes (correctOptionIds q) o); [|reflexivity].
  destruct (answeredAtMs p); reflexivity.
Qed.

Lemma scorePlayer_token q e p :
  rejoinToken (scorePlayer q e p) = rejoinToken p.
Proof.
  unfold scorePlayer.
  destruct (selectedOptionId p) as [o|]; [|reflexivity].
  destruct (Js.includes (correctOptionIds q) o); [|reflexivity].
  destruct (answeredAtMs p); reflexivity.
Qed.

Lemma existsb_option_id q k :
  existsb (fun opt => String.eqb (o_id opt) k) (options q) = true
  <-> In k (List.map o_id (options q)).
Proof.
  rewrite List.existsb_exists, List.in_map_iff.
  split; intros (opt & H1 & H2).
  - apply String.eqb_eq in H2. eauto.
  - exists opt. split; [exact H2 | now apply String.eqb_eq].
Qed.

Lemma inherited_truthy k : inherited k = true -> Js.truthy k = true.
Proof. destruct k; [discriminate | reflexivity]. Qed.

Section Counting.
Context {V : Type}.

Lemma get_plainSet_ne (o : Obj.t V) k k' v :
  k <> k' -> Obj.get (plainSet o k v) k' = Obj.get o k'.
Proof.
  intros Hne. unfold plainSet.
  destruct (String.eqb k "__proto__"); [reflexivity|].
  now apply get_set_ne.
Qed.

Lemma get_plainSet_eq (o : Obj.t V) k v :
  k <> "__proto__" -> Obj.get (plainSet o k v) k = Some v.
Proof.
  intros Hne. unfold plainSet. apply String.eqb_neq in Hne. rewrite Hne.
  apply get_set_eq.
Qed.

Lemma get_plainSet_proto (o : Obj.t V) k v :
  Obj.get o "__proto__" = None -> Obj.get (plainSet o k v) "__proto__" = None.
Proof.
  intros H. unfold plainSet.
  destruct (String.eqb_spec k "__proto__") as [E|E]; [exact H|].
  now rewrite get_set_ne.
Qed.

Lemma get_zero (v0 : V) (opts : list QuizOption) : forall (acc : Obj.t V) k,
  Obj.get (List.fold_left (fun acc opt => Obj.set acc (o_id opt) v0) opts acc)
    k
  = if existsb (fun opt => String.eqb (o_id opt) k) opts then Some v0
    else Obj.get acc k.
Proof.
  induction opts as [|opt opts IH]; intros acc k; cbn [List.fold_left existsb];
    [reflexivity|].
  rewrite IH. destruct (existsb _ opts); [now rewrite orb_true_r|].
  rewrite orb_false_r. destruct (String.eqb (o_id opt) k) eqn:E.
  - apply String.eqb_eq in E. subst k. apply get_set_eq.
  - apply String.eqb_neq in E. now apply get_set_ne.
Qed.

(** The first loop of optionCounts: the assignment to [__proto__] is
    dropped. *)
Lemma get_zero_plain (v0 : V) (opts : list QuizOption) :
  forall (acc : Obj.t V) k,
  Obj.get
    (List.fold_left (fun acc opt => plainSet acc (o_id opt) v0) opts acc) k
  = if existsb (fun opt => String.eqb (o_id opt) k) opts
       && negb (String.eqb k "__proto__")
    then Some v0 else Obj.get acc k.
Proof.
  induction opts as [|opt opts IH]; intros acc k; cbn [List.fold_left existsb];
    [reflexivity|].
  rewrite IH.
  destruct (String.eqb_spec k "__proto__") as [Ek|Ek].
  - rewrite !andb_false_r. subst k. unfold plainSet.
    destruct (String.eqb_spec (o_id opt) "__proto__") as [E|E];
      [reflexivity | now apply get_set_ne].
  - rewrite !andb_true_r.
    destruct (existsb _ opts); [now rewrite orb_true_r|].
    rewrite orb_false_r. destruct (String.eqb_spec (o_id opt) k) as [E|E].
    + subst k. now apply get_plainSet_eq.
    + now apply get_plainSet_ne.
Qed.

(** The second loop of a tally whose entries are all own properties: the
    entry of the selected option, when there is one, is updated with
    [upd]. *)
Lemma get_tally (upd : Player -> V -> V) (vals : list Player) :
  forall (acc : Obj.t V) k,
  Obj.get
    (List.fold_left
       (fun acc p =>
          match selectedOptionId p with
          | Some sel =>
              if Js.truthy sel then
                match Obj.get acc sel with
                | Some n => Obj.set acc sel (upd p n)
                | None => acc
                end
              else acc
          | None => acc
          end) vals acc) k
  = option_map
      (fun n => List.fold_left (fun n p => upd p n) (choosers k vals) n)
      (Obj.get acc k).
Proof.
  induction vals as [|p vals IH]; intros acc k; cbn [List.fold_left].
  - cbn. now destruct (Obj.get acc k).
  - rewrite IH. unfold choosers. cbn [List.filter]. fold (choosers k vals).
    destruct (selectedOptionId p) as [sel|] eqn:Hsel.
    + destruct (Js.truthy sel) eqn:Ht.
      * destruct (String.eqb sel k) eqn:E.
        -- apply String.eqb_eq in E. subst k. rewrite Ht.
           rewrite bool_decide_true by reflexivity. cbn [andb List.fold_left].
           destruct (Obj.get acc sel) as [n|] eqn:Hg.
           ++ now rewrite get_set_eq.
           ++ now rewrite Hg.
        -- apply String.eqb_neq in E.
           rewrite bool_decide_false by congruence. rewrite andb_false_r.
           destruct (Obj.get acc sel) as [n|] eqn:Hg; [|reflexivity].
           now rewrite get_set_ne.
      * destruct (Js.truthy k && bool_decide (Some sel = Some k)) eqn:E;
          [|reflexivity].
        apply andb_prop in E as [E1 E2]. apply bool_decide_eq_true in E2.
        congruence.
    + rewrite bool_decide_false by congruence. now rewrite andb_false_r.
Qed.

End Counting.

(** The second loop of optionCounts, at an own property. *)
Lemma get_counts (vals : list Player) :
  forall (acc : Obj.t (option Z)) k,
  Obj.get acc "__proto__" = None -> Obj.get acc k <> None ->
  Obj.get
    (List.fold_left
       (fun acc p =>
          match selectedOptionId p with
          | Some sel =>
              if Js.truthy sel then
                match Obj.get acc sel with
                | Some n => plainSet acc sel (option_map (fun n => n + 1) n)
                | None => if inherited sel then plainSet acc sel None else acc
                end
              else acc
          | None => acc
          end) vals acc) k
  = option_map
      (fun n => List.fold_left
                  (fun n (_ : Player) => option_map (fun n => n + 1) n)
                  (choosers k vals) n)
      (Obj.get acc k).
Proof.
  induction vals as [|p vals IH]; intros acc k Hproto Hk;
    cbn [List.fold_left].
  - cbn. now destruct (Obj.get acc k).
  - unfold choosers. cbn [List.filter]. fold (choosers k vals).
    destruct (selectedOptionId p) as [sel|] eqn:Hsel.
    + destruct (Js.truthy sel) eqn:Ht.
      * destruct (String.eqb_spec sel k) as [E|E].
        -- subst k. rewrite Ht.
           rewrite bool_decide_true by reflexivity. cbn [andb List.fold_left].
           destruct (Obj.get acc sel) as [n|] eqn:Hg; [|congruence].
           assert (Hne : sel <> "__proto__") by congruence.
           rewrite IH.
           ++ now rewrite get_plainSet_eq.
           ++ now apply get_plainSet_proto.
           ++ now rewrite get_plainSet_eq.
        -- rewrite bool_decide_false by congruence. rewrite andb_false_r.
           destruct (Obj.get acc sel) as [n|] eqn:Hg;
             [|destruct (inherited sel)].
           ++ rewrite IH; [now rewrite get_plainSet_ne | |].
              ** now apply get_plainSet_proto.
              ** now rewrite get_plainSet_ne.
           ++ rewrite IH; [now rewrite get_plainSet_ne | |].
              ** now apply get_plainSet_proto.
              ** now rewrite get_plainSet_ne.
           ++ now apply IH.
      * rewrite IH by assumption.
        destruct (Js.truthy k && bool_decide (Some sel = Some k)) eqn:E;
          [|reflexivity].
        apply andb_prop in E as [E1 E2]. apply bool_decide_eq_true in E2.
        congruence.
    + rewrite bool_decide_false by congruence. rewrite andb_false_r.
      now apply IH.
Qed.

Lemma fold_count (l : list Player) : forall n,
  List.fold_left (fun n (_ : Player) => option_map (fun n => n + 1) n) l
    (Some n)
  = Some (n + Js.len l).
Proof.
  unfold Js.len. induction l as [|p l IH]; intros n; cbn [List.fold_left].
  - cbn. f_equal. lia.
  - cbn [option_map]. rewrite IH. cbn [List.length]. f_equal. lia.
Qed.

Lemma fold_names (l : list Player) : forall ns,
  List.fold_left (fun ns p => (ns ++ [name p])%list) l ns
  = (ns ++ List.map name l)%list.
Proof.
  induction l as [|p l IH]; intros ns; cbn [List.fold_left List.map].
  - now rewrite List.app_nil_r.
  - rewrite IH, <- List.app_assoc. reflexivity.
Qed.


(** The counter of an option of the question. *)
Lemma countOf_option q vals k :
  In k (List.map o_id (options q)) -> k <> "__proto__" ->
  countOf (optionCounts q vals) k = Some (Js.len (choosers k vals)).
Proof.
  intros Hin Hne. unfold countOf, optionCounts.
  apply existsb_option_id in Hin.
  assert (Hz : forall k',
            Obj.get
              (List.fold_left
                 (fun acc opt => plainSet acc (o_id opt) (Some 0))
                 (options q) []) k'
            = if existsb (fun opt => String.eqb (o_id opt) k') (options q)
                 && negb (String.eqb k' "__proto__")
              then Some (Some 0) else None)
    by (intros k'; now rewrite get_zero_plain).
  rewrite get_counts.
  - rewrite Hz, Hin. apply String.eqb_neq in Hne. rewrite Hne.
    cbn [negb andb option_map]. rewrite fold_count. reflexivity.
  - rewrite Hz. now rewrite andb_false_r.
  - rewrite Hz, Hin. apply String.eqb_neq in Hne. rewrite Hne. discriminate.
Qed.

(** No property is ever created under [__proto__]. *)
Lemma optionCounts_proto q vals :
  Obj.get (optionCounts q vals) "__proto__" = None.
Proof.
  unfold optionCounts.
  match goal with
  | |- Obj.get (List.fold_left _ _ ?z) _ = _ => set (zero := z)
  end.
  assert (Hz : Obj.get zero "__proto__" = None).
  { unfold zero. rewrite get_zero_plain. now rewrite andb_false_r. }
  clearbody zero. revert zero Hz.
  induction vals as [|p vals IH]; intros acc Hacc; cbn [List.fold_left];
    [exact Hacc|].
  apply IH.
  destruct (selectedOptionId p) as [sel|]; [|exact Hacc].
  destruct (Js.truthy sel); [|exact Hacc].
  destruct (Obj.get acc sel); [|destruct (inherited sel)];
    try exact Hacc; now apply get_plainSet_proto.
Qed.

Lemma allNumbers_map {A : Type} (f : A -> option Z) (g : A -> Z) (l : list A) :
  (forall x, In x l -> f x = Some (g x)) ->
  allNumbers (List.map f l) = Some (List.map g l).
Proof.
  induction l as [|x l IH]; intros H; [reflexivity|].
  cbn [List.map allNumbers]. rewrite (H x (or_introl eq_refl)).
  rewrite IH; [reflexivity|]. intros y Hy. apply H. now right.
Qed.

Lemma allNumbers_None {A : Type} (f : A -> option Z) (l : list A) x :
  In x l -> f x = None -> allNumbers (List.map f l) = None.
Proof.
  induction l as [|y l IH]; intros Hin Hx; [destruct Hin|].
  cbn [List.map allNumbers]. destruct Hin as [->|Hin].
  - now rewrite Hx.
  - destruct (f y); [|reflexivity]. now rewrite IH.
Qed.

Lemma no_proto_option q :
  existsb (fun opt => String.eqb (o_id opt) "__proto__") (options q) = false ->
  forall opt, In opt (options q) -> o_id opt <> "__proto__".
Proof.
  intros H opt Hin E.
  assert (Ht : existsb (fun opt => String.eqb (o_id opt) "__proto__")
                 (options q) = true).
  { apply List.existsb_exists. exists opt. split; [exact Hin|].
    now apply String.eqb_eq. }
  congruence.
Qed.

(** The counts of the reveal: one number per option, unless an option is
    called [__proto__]. *)
Lemma revealCounts_typed q vals :
  existsb (fun opt => String.eqb (o_id opt) "__proto__") (options q) = false ->
  revealCounts q vals
  = Some (List.map (fun opt => Js.len (choosers (o_id opt) vals)) (options q)).
Proof.
  intros H. unfold revealCounts. apply allNumbers_map.
  intros opt Hin. apply countOf_option.
  - now apply List.in_map.
  - now apply (no_proto_option q H).
Qed.

Lemma revealCounts_untyped q vals :
  existsb (fun opt => String.eqb (o_id opt) "__proto__") (options q) = true ->
  revealCounts q vals = None.
Proof.
  intros H. apply List.existsb_exists in H. destruct H as (opt & Hin & E).
  apply String.eqb_eq in E. unfold revealCounts.
  apply (allNumbers_None _ _ opt Hin).
  unfold countOf. rewrite E, optionCounts_proto. reflexivity.
Qed.

(** The second loop of playerChoices when every recorded answer that is
    the name of an inherited member is an own property of the tally. *)
Lemma choices_typed (vals : list Player) :
  forall acc : Obj.t (list string),
  (forall p sel, In p vals -> selectedOptionId p = Some sel ->
     inherited sel = true -> Obj.get acc sel <> None) ->
  List.fold_left
    (fun (acc : option (Obj.t (list string))) p =>
       match acc with
       | None => None
       | Some o =>
           match selectedOptionId p with
           | Some sel =>
               if Js.truthy sel then
                 match Obj.get o sel with
                 | Some names => Some (Obj.set o sel (names ++ [name p])%list)
                 | None => if inherited sel then None else Some o
                 end
               else Some o
           | None => Some o
           end
       end) vals (Some acc)
  = Some
      (List.fold_left
         (fun acc p =>
            match selectedOptionId p with
            | Some sel =>
                if Js.truthy sel then
                  match Obj.get acc sel with
                  | Some n => Obj.set acc sel (n ++ [name p])%list
                  | None => acc
                  end
                else acc
            | None => acc
            end) vals acc).
Proof.
  induction vals as [|p vals IH]; intros acc H; cbn [List.fold_left];
    [reflexivity|].
  assert (Hrest : forall acc' : Obj.t (list string),
            (forall k, Obj.get acc k <> None -> Obj.get acc' k <> None) ->
            forall p' sel, In p' vals -> selectedOptionId p' = Some sel ->
              inherited sel = true -> Obj.get acc' sel <> None).
  { intros acc' Hk p' sel Hin Hs Hi. apply Hk.
    apply (H p' sel); auto. now right. }
  destruct (selectedOptionId p) as [sel|] eqn:Hsel;
    [|apply IH, Hrest; auto].
  destruct (Js.truthy sel); [|apply IH, Hrest; auto].
  destruct (Obj.get acc sel) as [names|] eqn:Hg.
  - apply IH, Hrest. intros k Hk.
    destruct (String.eqb_spec sel k) as [<-|E].
    + now rewrite get_set_eq.
    + now rewrite get_set_ne.
  - destruct (inherited sel) eqn:Hi; [|apply IH, Hrest; auto].
    exfalso. apply (H p sel); auto. now left.
Qed.

(** ... and when one of them is not: [.push] throws. *)
Lemma choices_throw (vals : list Player) :
  forall (acc : Obj.t (list string)) p sel,
  In p vals -> selectedOptionId p = Some sel -> inherited sel = true ->
  Obj.get acc sel = None ->
  List.fold_left
    (fun (acc : option (Obj.t (list string))) p =>
       match acc with
       | None => None
       | Some o =>
           match selectedOptionId p with
           | Some sel =>
               if Js.truthy sel then
                 match Obj.get o sel with
                 | Some names => Some (Obj.set o sel (names ++ [name p])%list)
                 | None => if inherited sel then None else Some o
                 end
               else Some o
           | None => Some o
           end
       end) vals (Some acc)
  = None.
Proof.
  assert (HNone : forall vals : list Player,
            List.fold_left
              (fun (acc : option (Obj.t (list string))) p =>
                 match acc with
                 | None => None
                 | Some o =>
                     match selectedOptionId p with
                     | Some sel =>
                         if Js.truthy sel then
                           match Obj.get o sel with
                           | Some names =>
                               Some (Obj.set o sel (names ++ [name p])%list)
                           | None => if inherited sel then None else Some o
                           end
                         else Some o
                     | None => Some o
                     end
                 end) vals None = None).
  { intros l. induction l as [|x l IH]; [reflexivity | exact IH]. }
  induction vals as [|x vals IH]; intros acc p sel Hin Hsel Hi Hg;
    [destruct Hin|].
  cbn [List.fold_left]. destruct Hin as [->|Hin].
  - rewrite Hsel, (inherited_truthy _ Hi), Hg, Hi. apply HNone.
  - destruct (selectedOptionId x) as [sx|] eqn:Hx; [|now apply (IH acc p sel)].
    destruct (Js.truthy sx); [|now apply (IH acc p sel)].
    destruct (Obj.get acc sx) as [names|] eqn:Hgx.
    + apply (IH _ p sel); auto.
      rewrite get_set_ne; [exact Hg | congruence].
    + destruct (inherited sx); [apply HNone | now apply (IH acc p sel)].
Qed.

Lemma revealable_true q vals :
  revealable q vals = true <->
  existsb (fun opt => String.eqb (o_id opt) "__proto__") (options q) = false
  /\ forall p sel, In p vals -> selectedOptionId p = Some sel ->
       inherited sel = true -> In sel (List.map o_id (options q)).
Proof.
  unfold revealable. rewrite andb_true_iff, negb_true_iff, List.forallb_forall.
  split; intros [H1 H2]; (split; [exact H1|]).
  - intros p sel Hin Hsel Hi. specialize (H2 p Hin). rewrite Hsel, Hi in H2.
    now apply existsb_option_id.
  - intros p Hin. destruct (selectedOptionId p) as [sel|] eqn:Hsel;
      [|reflexivity].
    destruct (inherited sel) eqn:Hi; [|reflexivity]. cbn [negb orb].
    apply existsb_option_id. now apply (H2 p sel).
Qed.

Lemma revealable_false q vals :
  existsb (fun opt => String.eqb (o_id opt) "__proto__") (options q) = false ->
  revealable q vals = false ->
  exists p sel, In p vals /\ selectedOptionId p = Some sel
    /\ inherited sel = true /\ ~ In sel (List.map o_id (options q)).
Proof.
  unfold revealable. intros -> H. cbn [negb andb] in H.
  induction vals as [|x vals IH]; [discriminate|].
  cbn [forallb] in H. apply andb_false_iff in H. destruct H as [H|H].
  - destruct (selectedOptionId x) as [sel|] eqn:Hsel; [|discriminate].
    apply orb_false_iff in H. destruct H as [H1 H2].
    apply negb_false_iff in H1.
    exists x, sel. repeat split; auto; [now left|].
    intros Hin. apply existsb_option_id in Hin. congruence.
  - destruct (IH H) as (p & sel & Hin & Hrest).
    exists p, sel. split; [now right | exact Hrest].
Qed.

Lemma revealable_map (f : Player -> Player) q vals :
  (forall p, selectedOptionId (f p) = selectedOptionId p) ->
  revealable q (List.map f vals) = revealable q vals.
Proof.
  intros Hf. unfold revealable. f_equal.
  induction vals as [|p vals IH]; [reflexivity|].
  cbn [List.map forallb]. now rewrite Hf, IH.
Qed.

(** The names of the reveal: filed by option, when the tally can be
    built. *)
Lemma playerChoices_typed q vals :
  revealable q vals = true ->
  exists choices,
    playerChoices q vals = ChoicesOf choices
    /\ forall k,
         Obj.get choices k
         = if existsb (fun opt => String.eqb (o_id opt) k) (options q)
           then Some (voters k vals) else None.
Proof.
  intros H. apply revealable_true in H. destruct H as [H1 H2].
  unfold playerChoices. rewrite H1. rewrite choices_typed.
  - eexists. split; [reflexivity|]. intros k.
    rewrite (get_tally (fun p ns => (ns ++ [name p])%list)), get_zero.
    cbn [Obj.get].
    destruct (existsb (fun opt => String.eqb (o_id opt) k) (options q));
      cbn [option_map]; [|reflexivity].
    unfold voters. now rewrite fold_names.
  - intros p sel Hin Hsel Hi. rewrite get_zero.
    apply (H2 p sel Hin Hsel) in Hi. apply existsb_option_id in Hi.
    rewrite Hi. discriminate.
Qed.

Lemma playerChoices_throw q vals :
  existsb (fun opt => String.eqb (o_id opt) "__proto__") (options q) = false ->
  revealable q vals = false ->
  playerChoices q vals = ChoicesThrow.
Proof.
  intros H1 H2. destruct (revealable_false q vals H1 H2)
    as (p & sel & Hin & Hsel & Hi & Hno).
  unfold playerChoices. rewrite H1.
  rewrite (choices_throw vals _ p sel Hin Hsel Hi); [reflexivity|].
  rewrite get_zero. cbn [Obj.get].
  destruct (existsb (fun opt => String.eqb (o_id opt) sel) (options q))
    eqn:E; [|reflexivity].
  apply existsb_option_id in E. contradiction.
Qed.

(* ------------------------------------------------------------------ *)
(** ** Scoring (endRound) *)

(** Every question of a created game has a time limit between 5 and 90
    seconds. *)
Lemma createGameState_timeLimits gameId payload drawsQ drawsA uuid q :
  In q (questions (createGameState gameId payload drawsQ drawsA uuid)) ->
  5 <= timeLimitSeconds q <= 90.
Proof.
  unfold createGameState. cbn [questions]. intros Hin.
  apply List.in_map_iff in Hin. destruct Hin as (iq & <- & _).
  cbn [timeLimitSeconds]. unfold clampTimeLimit. lia.
Qed.

Lemma streakMult_claimed (n : Z) : streakMult n = Claimed.multiplier n.
Proof. reflexivity. Qed.

(** What the scoring loop does to one player. *)
Lemma scorePlayer_correct q endMs_ p o t :
  selectedOptionId p = Some o -> answeredAtMs p = Some t ->
  In o (correctOptionIds q) ->
  let d := Claimed.delta endMs_ t (timeLimitSeconds q) (streak p + 1) in
  scorePlayer q endMs_ p =
    mkPlayer (name p) (score p + d) (Some t) (Some o) true d (streak p + 1)
      (rejoinToken p).
Proof.
  intros Ho Ht Hin. unfold scorePlayer. rewrite Ho, Ht.
  apply includes_In in Hin. rewrite Hin. reflexivity.
Qed.

Lemma scorePlayer_other q endMs_ p :
  ~ Claimed.answeredCorrectly q p ->
  delta (scorePlayer q endMs_ p) = 0 /\ streak (scorePlayer q endMs_ p) = 0
  /\ score (scorePlayer q endMs_ p) = score p.
Proof.
  intros Hn. unfold scorePlayer.
  destruct (selectedOptionId p) as [o|] eqn:Ho; [|now simpl].
  destruct (Js.includes (correctOptionIds q) o) eqn:Hi; [|now simpl].
  destruct (answeredAtMs p) as [t|] eqn:Ht; [|now simpl].
  exfalso. apply Hn. exists o, t. repeat split; auto.
  now apply includes_In.
Qed.

(** endRound on an open round whose question exists, step by step: the
    players are scored; then the tallies are built, and the reveal is sent
    and the round closed when they can be. *)
Lemma endRound_eq c r q :
  round (st c) = Some r ->
  Js.at_index (questions (st c)) (currentIndex (st c)) = Some q ->
  let c1 := scoredCtx q r c in
  let vals := Obj.values (players (st c1)) in
  endRound c
  = match revealCounts q vals, playerChoices q vals with
    | Some counts, ChoicesOf choices =>
        Done
          (toHost host_canAdvance
             (saveState
                (mutate (set_round None)
                   (broadcast
                      (question_reveal
                         (mkReveal (correctOptionIds q) (currentIndex (st c1))
                            (Js.len (questions (st c1)))
                            (getLeaderboard (st c1)) counts choices
                            (percentCorrect vals) (fastestName vals)))
                      c1))))
    | Some _, ChoicesThrow => Threw c1
    | _, _ => Strayed c1
    end.
Proof.
  intros Hr Hq. unfold endRound. rewrite Hr, Hq. reflexivity.
Qed.

Lemma revealable_scored q e (ps : Obj.t Player) :
  revealable q (Obj.values (Obj.each (scorePlayer q e) ps))
  = revealable q (Obj.values ps).
Proof.
  rewrite values_each. apply revealable_map. intros p.
  apply scorePlayer_selected.
Qed.

(** The tallies can be built: the reveal is sent and the round closed. *)
Lemma endRound_open c r q :
  round (st c) = Some r ->
  Js.at_index (questions (st c)) (currentIndex (st c)) = Some q ->
  revealable q (Obj.values (players (st c))) = true ->
  exists c', endRound c = Done c'
    /\ players (st c') = Obj.each (scorePlayer q (endMs r)) (players (st c))
    /\ round (st c') = None
    /\ gs c' = Some (st c')
    /\ alarmAt c' = alarmAt c
    /\ (exists rv tail, out c' = (out c ++ Broadcast (question_reveal rv) :: tail)%list
          /\ rv_correctOptionIds rv = correctOptionIds q)
    /\ started (st c') = started (st c)
    /\ currentIndex (st c') = currentIndex (st c)
    /\ questions (st c') = questions (st c)
    /\ disconnectedPlayers (st c') = disconnectedPlayers (st c)
    /\ proto c' = proto c.
Proof.
  intros Hr Hq Hrev. rewrite (endRound_eq c r q Hr Hq). cbv zeta.
  assert (Hrev' : revealable q (Obj.values (players (st (scoredCtx q r c))))
                  = true)
    by (cbn [scoredCtx mutate st players set_players];
        now rewrite revealable_scored).
  destruct (playerChoices_typed q _ Hrev') as (choices & -> & _).
  apply revealable_true in Hrev'. destruct Hrev' as [Hno _].
  rewrite (revealCounts_typed q _ Hno).
  eexists. split; [reflexivity|].
  unfold scoredCtx, toHost, toTag, emit, saveState, mutate, broadcast; simpl.
  destruct (hostTag (st c)) as [h|]; [destruct (Js.truthy h)|]; simpl;
    repeat split; try reflexivity;
    eexists; eexists;
    (split; [try rewrite <- List.app_assoc; reflexivity | reflexivity]).
Qed.

(** A recorded answer names an inherited member that is no option of the
    question: endRound throws once the players are scored. *)
Lemma endRound_throws c r q :
  round (st c) = Some r ->
  Js.at_index (questions (st c)) (currentIndex (st c)) = Some q ->
  existsb (fun opt => String.eqb (o_id opt) "__proto__") (options q) = false ->
  revealable q (Obj.values (players (st c))) = false ->
  endRound c = Threw (scoredCtx q r c).
Proof.
  intros Hr Hq Hno Hrev. rewrite (endRound_eq c r q Hr Hq). cbv zeta.
  rewrite (revealCounts_typed q _ Hno).
  rewrite playerChoices_throw; [reflexivity | exact Hno |].
  cbn [scoredCtx mutate st players set_players].
  now rewrite revealable_scored.
Qed.

(** An option of the question is called [__proto__]. *)
Lemma endRound_strays c r q :
  round (st c) = Some r ->
  Js.at_index (questions (st c)) (currentIndex (st c)) = Some q ->
  existsb (fun opt => String.eqb (o_id opt) "__proto__") (options q) = true ->
  endRound c = Strayed (scoredCtx q r c).
Proof.
  intros Hr Hq Hyes. rewrite (endRound_eq c r q Hr Hq). cbv zeta.
  now rewrite (revealCounts_untyped q _ Hyes).
Qed.

(** In every case the context is, up to the reveal and the closing of the
    round, the one with the players scored. *)
Lemma endRound_either c r q :
  round (st c) = Some r ->
  Js.at_index (questions (st c)) (currentIndex (st c)) = Some q ->
  (revealable q (Obj.values (players (st c))) = true
   /\ exists c', endRound c = Done c')
  \/ (revealable q (Obj.values (players (st c))) = false
      /\ (endRound c = Threw (scoredCtx q r c)
          \/ endRound c = Strayed (scoredCtx q r c))).
Proof.
  intros Hr Hq.
  destruct (revealable q (Obj.values (players (st c)))) eqn:Hrev.
  - left. split; [reflexivity|].
    destruct (endRound_open c r q Hr Hq Hrev) as (c' & E & _). eauto.
  - right. split; [reflexivity|].
    destruct (existsb (fun opt => String.eqb (o_id opt) "__proto__")
                (options q)) eqn:Hno.
    + right. now apply endRound_strays.
    + left. now apply endRound_throws.
Qed.

Lemma endRound_players c r q :
  round (st c) = Some r ->
  Js.at_index (questions (st c)) (currentIndex (st c)) = Some q ->
  players (st (ctx_of (endRound c)))
  = Obj.each (scorePlayer q (endMs r)) (players (st c)).
Proof.
  intros Hr Hq.
  destruct (endRound_either c r q Hr Hq)
    as [[Hrev _] | [_ [E|E]]]; try (rewrite E; reflexivity).
  destruct (endRound_open c r q Hr Hq Hrev) as (c' & E & Hp & _).
  rewrite E. exact Hp.
Qed.

(** endRound never touches the alarm nor the prototype of the snapshots. *)
Lemma endRound_alarm c :
  alarmAt (ctx_of (endRound c)) = alarmAt c
  /\ proto (ctx_of (endRound c)) = proto c.
Proof.
  destruct (round (st c)) as [r|] eqn:Hr;
    [|unfold endRound; rewrite Hr; split; reflexivity].
  destruct (Js.at_index (questions (st c)) (currentIndex (st c)))
    as [q|] eqn:Hq; [|unfold endRound; rewrite Hr, Hq; split; reflexivity].
  destruct (endRound_either c r q Hr Hq)
    as [[Hrev _] | [_ [E|E]]]; try (rewrite E; split; reflexivity).
  destruct (endRound_open c r q Hr Hq Hrev)
    as (c' & E & _ & _ & _ & Ha & _ & _ & _ & _ & _ & Hp).
  rewrite E. split; [exact Ha | exact Hp].
Qed.

Lemma scorePlayer_scoredAs q endMs_ p :
  scoredAs q endMs_ p (scorePlayer q endMs_ p).
Proof.
  unfold scoredAs.
  split; [apply name_scorePlayer|]. split; [apply scorePlayer_token|].
  split; [apply scorePlayer_selected|].
  split; [apply scorePlayer_answeredAt|]. split.
  - intros o t Ho Ht Hin.
    rewrite (scorePlayer_correct q endMs_ p o t Ho Ht Hin). simpl. auto.
  - apply scorePlayer_other.
Qed.

(** C1. When a round closes (on a question with a positive time limit, as
    createGameState guarantees), every player who answered correctly has the
    streak incremented and earns delta = floor(base * multiplier), added to
    the cumulative score, with base and multiplier as in the specification;
    every other player gets delta 0 and streak 0: this is what endRound
    does to the players in every case, and it goes on to close the round
    whenever the tallies of the reveal can be built.  With a 20 s limit and
    a streak going to 1, an answer at t = 0 earns 1000 and an answer at
    t = 20 s earns 500; streak 3 gives the multiplier 1.2 and streak 10
    exactly 1.5. *)
Theorem C1_endRound_scoring (c : Ctx) (r : RoundState) (q : QuizQuestion) :
  round (st c) = Some r ->
  Js.at_index (questions (st c)) (currentIndex (st c)) = Some q ->
  0 < timeLimitSeconds q ->
  (forall w p, Obj.get (players (st c)) w = Some p ->
     exists p', Obj.get (players (st (ctx_of (endRound c)))) w = Some p' /\
       ((forall o t, selectedOptionId p = Some o -> answeredAtMs p = Some t ->
           In o (correctOptionIds q) ->
           streak p' = streak p + 1
           /\ delta p' = Claimed.delta (endMs r) t (timeLimitSeconds q)
                           (streak p')
           /\ score p' = score p + delta p')
        /\ (~ Claimed.answeredCorrectly q p ->
            delta p' = 0 /\ streak p' = 0 /\ score p' = score p)))
  /\ (revealable q (Obj.values (players (st c))) = true ->
      exists c', endRound c = Done c' /\ round (st c') = None)
  /\ (forall t0, Claimed.delta (t0 + 20 * 1000) t0 20 1 = 1000)
  /\ (forall t0, Claimed.delta (t0 + 20 * 1000) (t0 + 20 * 1000) 20 1 = 500)
  /\ Claimed.multiplier 3 = 0x1.3333333333333p+0%float (* 1.2 *)
  /\ Claimed.multiplier 10 = 1.5%float.
Proof.
  intros Hr Hq Hpos. split; [|split; [|repeat split]].
  - intros w p Hw. exists (scorePlayer q (endMs r) p). split.
    + rewrite (endRound_players c r q Hr Hq), get_each, Hw. reflexivity.
    + split.
      * intros o t Ho Ht Hin.
        rewrite (scorePlayer_correct q (endMs r) p o t Ho Ht Hin). simpl.
        auto.
      * apply scorePlayer_other.
  - intros Hrev.
    destruct (endRound_open c r q Hr Hq Hrev) as (c' & E & _ & Hn & _).
    exists c'. split; [exact E | exact Hn].
  - intros t0. unfold Claimed.delta, Claimed.base, Claimed.remainingTimeFraction.
    replace (t0 + 20 * 1000 - t0) with 20000 by lia. reflexivity.
  - intros t0. unfold Claimed.delta, Claimed.base, Claimed.remainingTimeFraction.
    replace (t0 + 20 * 1000 - (t0 + 20 * 1000)) with 0 by lia. reflexivity.
Qed.

Lemma C1_endRound_scoring_witness :
  (exists c', endRound (Sample.ctxOf Sample.room5) = Done c'
              /\ round (st c') = None)
  /\ exists p', Obj.get (players (st (ctx_of (endRound
                                            (Sample.ctxOf Sample.room5)))))
                  "player-ann" = Some p'
                /\ streak p' = 1 /\ delta p' = 875 /\ score p' = 875.
Proof.
  destruct (C1_endRound_scoring (Sample.ctxOf Sample.room5) _ Sample.q1
              eq_refl eq_refl eq_refl) as (H & Hdone & _).
  split; [exact (Hdone eq_refl)|].
  destruct (H "player-ann" _ eq_refl) as (p' & Hp & Hc & _).
  exists p'. split; [exact Hp|].
  destruct (Hc "b" 6000 eq_refl eq_refl (or_introl eq_refl)) as (Hs & Hd & Hsc).
  rewrite Hsc, Hd, Hs. repeat split; reflexivity.
Defined.

(** The arithmetic is binary64: at streak 5 the multiplier is the double
    nearest to 1.4, which lies below 1.4, and a base of 730 earns 1021,
    not 1022. *)
Example delta_is_binary64 :
  Claimed.base 21000 11800 20 = 730 /\ Claimed.delta 21000 11800 20 5 = 1021.
Proof. split; reflexivity. Qed.

(* ------------------------------------------------------------------ *)
(** ** player:answer *)

Lemma truthy_true (s : string) : Js.truthy s = true <-> s <> "".
Proof. destruct s; simpl; split; congruence. Qed.

Lemma option_id_In (o : string) (opts : list QuizOption) :
  existsb (fun opt => String.eqb (o_id opt) o) opts = true
  <-> In o (List.map o_id opts).
Proof.
  rewrite List.existsb_exists, List.in_map_iff. split.
  - intros (x & Hx & E). apply String.eqb_eq in E. eauto.
  - intros (x & E & Hx). exists x. split; [exact Hx|].
    now apply String.eqb_eq.
Qed.

Lemma onPlayerAnswer_accepted wsTag now questionId optionId c r q p o :
  accepts (st c) wsTag questionId optionId r q p o ->
  onPlayerAnswer wsTag now questionId optionId c =
    match List.filter (fun t => negb (String.eqb t wsTag)) (awaiting r) with
    | [] => endRound (saveState (deleteAlarm (lockedCtx wsTag now o r p c)))
    | _ => Done (saveState (lockedCtx wsTag now o r p c))
    end.
Proof.
  intros (Hr & Hp & Hg & Hq & Hid & Hsel & Ho & Hne & Hin).
  unfold onPlayerAnswer. rewrite Hr, Hp, Hg, Hq, Hid, Hsel, Ho.
  rewrite bool_decide_eq_true_2 by reflexivity. simpl.
  apply truthy_true in Hne. apply option_id_In in Hin.
  rewrite Hne, Hin. reflexivity.
Qed.

Lemma onPlayerAnswer_cases wsTag now questionId optionId c :
  onPlayerAnswer wsTag now questionId optionId c = Done c
  \/ exists r q p o, accepts (st c) wsTag questionId optionId r q p o.
Proof.
  unfold onPlayerAnswer.
  destruct (round (st c)) as [r|] eqn:Hr; [|now left].
  destruct (paused (st c)) eqn:Hp; [now left|].
  destruct (Obj.get (players (st c)) wsTag) as [p|] eqn:Hg; [|now left].
  destruct (Js.at_index (questions (st c)) (currentIndex (st c)))
    as [q|] eqn:Hq; [|now left].
  destruct (bool_decide (questionId = Some (q_id q))) eqn:Hid;
    [|now left].
  apply bool_decide_eq_true_1 in Hid. simpl.
  destruct (selectedOptionId p) as [x|] eqn:Hsel; [now left|].
  destruct optionId as [o|]; [|now left].
  destruct (Js.truthy o) eqn:Ht; [|now left].
  destruct (existsb (fun opt => String.eqb (o_id opt) o) (options q))
    eqn:Hin; [|now left].
  right. exists r, q, p, o. unfold accepts.
  repeat split; auto.
  - now apply truthy_true.
  - now apply option_id_In.
Qed.

Lemma lockedCtx_facts wsTag now o r p c :
  let c1 := lockedCtx wsTag now o r p c in
  players (st c1) = Obj.set (players (st c)) wsTag (lockAnswer o now p)
  /\ round (st c1) =
       Some (set_awaiting
               (List.filter (fun t => negb (String.eqb t wsTag)) (awaiting r))
               r)
  /\ questions (st c1) = questions (st c)
  /\ currentIndex (st c1) = currentIndex (st c)
  /\ started (st c1) = started (st c)
  /\ paused (st c1) = paused (st c)
  /\ disconnectedPlayers (st c1) = disconnectedPlayers (st c)
  /\ hostTag (st c1) = hostTag (st c).
Proof.
  unfold lockedCtx, toHost, toTag, emit, mutate; simpl.
  destruct (hostTag (st c)) as [h|] eqn:Hh; [destruct (Js.truthy h)|];
    simpl; repeat split; try reflexivity; exact Hh.
Qed.

(** An accepted answer that the handler completes leaves the sender
    locked or the round closed. *)
Lemma onPlayerAnswer_after wsTag now questionId optionId c r q p o c' :
  accepts (st c) wsTag questionId optionId r q p o ->
  onPlayerAnswer wsTag now questionId optionId c = Done c' ->
  gs c' = Some (st c')
  /\ (round (st c') = None
      \/ exists p', Obj.get (players (st c')) wsTag = Some p'
                    /\ selectedOptionId p' = Some o).
Proof.
  intros Ha. rewrite (onPlayerAnswer_accepted _ _ _ _ _ _ _ _ _ Ha).
  destruct Ha as (Hr & Hp & Hg & Hq & _).
  destruct (lockedCtx_facts wsTag now o r p c)
    as (Hpl & Hrd & Hqs & Hci & _).
  destruct (List.filter _ (awaiting r)) eqn:Hf.
  - assert (Hq' : Js.at_index
                    (questions (st (saveState (deleteAlarm
                       (lockedCtx wsTag now o r p c)))))
                    (currentIndex (st (saveState (deleteAlarm
                       (lockedCtx wsTag now o r p c))))) = Some q)
      by (simpl; rewrite Hqs, Hci; exact Hq).
    intros E.
    destruct (endRound_either
                (saveState (deleteAlarm (lockedCtx wsTag now o r p c)))
                _ q Hrd Hq') as [[Hrev _] | [_ [E'|E']]];
      [|congruence|congruence].
    destruct (endRound_open
                (saveState (deleteAlarm (lockedCtx wsTag now o r p c)))
                _ q Hrd Hq' Hrev) as (c1 & E1 & _ & Hn & Hs & _).
    rewrite E1 in E. injection E as <-. auto.
  - intros [= <-]. split; [reflexivity|].
    right. simpl. rewrite Hpl, get_set_eq. eexists. split; reflexivity.
Qed.

(** A player whose answer is on record, or a closed round: nothing
    happens. *)
Lemma onPlayerAnswer_locked wsTag now questionId optionId c :
  (round (st c) = None
   \/ exists p o, Obj.get (players (st c)) wsTag = Some p
                  /\ selectedOptionId p = Some o) ->
  onPlayerAnswer wsTag now questionId optionId c = Done c.
Proof.
  intros H.
  destruct (onPlayerAnswer_cases wsTag now questionId optionId c)
    as [E | (r & q & p & o & Hr & _ & Hg & _ & _ & Hsel & _)]; [exact E|].
  destruct H as [Hn | (p' & o' & Hg' & Hsel')]; congruence.
Qed.

(** A message that passes the rate limit in a room that exists runs the
    switch on the cached state. *)
Lemma webSocketMessage_dispatch wsTag now msg uuid d s :
  stateOf d = Some s ->
  Js.len (hitsAfter wsTag now d) <= 30 ->
  webSocketMessage wsTag now (Some msg) uuid d
  = leave (admitted wsTag now d)
      (dispatch wsTag now msg uuid
         (mkCtx s (storage_gs d) (storage_alarm d) [] (protoOf d))).
Proof.
  intros Hs Hrate. unfold webSocketMessage. fold (hitsAfter wsTag now d).
  destruct (30 <? Js.len (hitsAfter wsTag now d)) eqn:Hlim; [lia|].
  unfold getState, admitted, enter, stateOf, protoOf in *.
  cbn [_state _wsRateMap storage_gs storage_alarm _proto]. rewrite Hs.
  reflexivity.
Qed.

(** C4. A player:answer leaves the room state (the state object, the stored
    snapshot, the alarm) unchanged and sends nothing unless a round is
    active and not paused, the question id is that of the open question,
    the sender has not answered yet and the option id is one of the
    question's options; and once an answer has been accepted, any further
    player:answer of the same player is a no-op.  The same at the level of
    webSocketMessage: the stored snapshot, the alarm and the state are
    those of before, and nothing is sent. *)
Theorem C4_answer_ignored_unless (wsTag : string) (now : Z)
    (questionId optionId : option string) :
  (forall c,
     ~ answerable (st c) wsTag questionId optionId ->
     onPlayerAnswer wsTag now questionId optionId c = Done c)
  /\ (forall c c1,
        onPlayerAnswer wsTag now questionId optionId c = Done c1 ->
        c1 <> c ->
        forall now' questionId' optionId',
          onPlayerAnswer wsTag now' questionId' optionId' c1 = Done c1)
  /\ (forall d s reqId_ uuid,
        stateOf d = Some s ->
        ~ answerable s wsTag questionId optionId ->
        exists d',
          webSocketMessage wsTag now
            (Some (mkMessage (player_answer questionId optionId) reqId_))
            uuid d = Returned d' []
          /\ stateOf d' = Some s
          /\ storage_gs d' = storage_gs d
          /\ storage_alarm d' = storage_alarm d).
Proof.
  assert (Hignored : forall c,
            ~ answerable (st c) wsTag questionId optionId ->
            onPlayerAnswer wsTag now questionId optionId c = Done c).
  { intros c Hn.
    destruct (onPlayerAnswer_cases wsTag now questionId optionId c)
      as [E | (r & q & p & o & Hr & Hp & Hg & Hq & Hid & Hsel & Ho & _ & Hin)];
      [exact E|].
    exfalso. apply Hn. unfold answerable. repeat split; eauto 10. }
  split; [exact Hignored | split].
  - intros c c1 E Hne now' questionId' optionId'.
    destruct (onPlayerAnswer_cases wsTag now questionId optionId c)
      as [E0 | (r & q & p & o & Ha)].
    + rewrite E0 in E. injection E as <-. contradiction.
    + destruct (onPlayerAnswer_after wsTag now questionId optionId c
                  r q p o c1 Ha E) as (_ & H).
      apply onPlayerAnswer_locked.
      destruct H as [H | (p' & Hg & Hsel)]; [now left | right; eauto].
  - intros d s reqId_ uuid Hs Hn.
    destruct (30 <? Js.len (hitsAfter wsTag now d)) eqn:Hlim.
    + unfold webSocketMessage. fold (hitsAfter wsTag now d). rewrite Hlim.
      eexists. split; [reflexivity|]. unfold stateOf in *. simpl. auto.
    + apply Z.ltb_ge in Hlim.
      rewrite (webSocketMessage_dispatch wsTag now _ uuid d s Hs Hlim).
      unfold dispatch. cbn [body].
      rewrite (Hignored (mkCtx s (storage_gs d) (storage_alarm d) []
                           (protoOf d)) Hn).
      eexists. split; [reflexivity|]. simpl. auto.
Qed.

Lemma C4_answer_ignored_unless_witness :
  (* ann, who has answered, answers again *)
  onPlayerAnswer "player-ann" 7000 (Some "q1") (Some "a")
    (Sample.ctxOf Sample.room5) = Done (Sample.ctxOf Sample.room5)
  (* whatever ann sends after her accepted answer *)
  /\ (forall now' questionId' optionId',
        onPlayerAnswer "player-ann" now' questionId' optionId'
          (ctx_of (onPlayerAnswer "player-ann" 6000 (Some "q1") (Some "b")
                     (Sample.ctxOf Sample.room4)))
        = Done (ctx_of (onPlayerAnswer "player-ann" 6000 (Some "q1")
                          (Some "b") (Sample.ctxOf Sample.room4))))
  (* the duplicate as a message *)
  /\ (exists d',
        webSocketMessage "player-ann" 7000
          (Some (mkMessage (player_answer (Some "q1") (Some "a")) None))
          "" Sample.room5 = Returned d' []
        /\ stateOf d' = stateOf Sample.room5
        /\ storage_gs d' = storage_gs Sample.room5
        /\ storage_alarm d' = storage_alarm Sample.room5).
Proof.
  destruct (C4_answer_ignored_unless "player-ann" 7000 (Some "q1") (Some "a"))
    as (H1 & _ & H3).
  destruct (C4_answer_ignored_unless "player-ann" 6000 (Some "q1") (Some "b"))
    as (_ & H2 & _).
  assert (Hlocked : forall s, stateOf Sample.room5 = Some s ->
            ~ answerable s "player-ann" (Some "q1") (Some "a")).
  { intros s Hs (_ & _ & (p & Hp & Hsel)). injection Hs as <-.
    vm_compute in Hp. injection Hp as <-. discriminate Hsel. }
  split; [|split].
  - apply H1. apply Hlocked. reflexivity.
  - apply (H2 (Sample.ctxOf Sample.room4)).
    + vm_compute. reflexivity.
    + intros E. apply (f_equal out) in E. vm_compute in E. discriminate E.
  - apply (H3 Sample.room5 _ None "" eq_refl). apply Hlocked. reflexivity.
Defined.

Lemma forallb_values_set {V : Type} (f : V -> bool) (o : Obj.t V) k v0 v :
  Obj.get o k = Some v0 -> f v0 = true -> f v = true ->
  forallb f (Obj.values (Obj.set o k v)) = forallb f (Obj.values o).
Proof.
  intros Hg H0 Hv. induction o as [|[k' v'] o IH]; [discriminate|].
  cbn [Obj.get] in Hg. cbn [Obj.set].
  destruct (String.eqb k' k).
  - injection Hg as ->. unfold Obj.values. cbn [List.map snd forallb].
    now rewrite H0, Hv.
  - unfold Obj.values in *. cbn [List.map snd forallb]. now rewrite IH.
Qed.

(** Recording an accepted answer does not change whether the tallies can
    be built. *)
Lemma revealable_locked q (ps : Obj.t Player) w p o now :
  Obj.get ps w = Some p -> selectedOptionId p = None ->
  In o (List.map o_id (options q)) ->
  revealable q (Obj.values (Obj.set ps w (lockAnswer o now p)))
  = revealable q (Obj.values ps).
Proof.
  intros Hg Hsel Hin. unfold revealable. f_equal.
  apply (forallb_values_set _ ps w p); [exact Hg | now rewrite Hsel |].
  cbn [lockAnswer selectedOptionId]. apply existsb_option_id in Hin.
  rewrite Hin. apply orb_true_r.
Qed.

Lemma filter_all_gone (wsTag : string) (l : list string) :
  (forall t, In t l -> t = wsTag) ->
  List.filter (fun t => negb (String.eqb t wsTag)) l = [].
Proof.
  intros Hall. induction l as [|t l IH]; [reflexivity|]. simpl.
  rewrite (Hall t (or_introl eq_refl)), String.eqb_refl. simpl.
  apply IH. intros t' Ht'. apply Hall. now right.
Qed.

Lemma lockAnswer_recordedAs o now p : recordedAs o now p (lockAnswer o now p).
Proof. unfold recordedAs, lockAnswer. cbn. repeat split. Qed.

(** An accepted answer after which nobody is awaited closes the round on
    the spot, when the tallies of the reveal can be built. *)
Lemma onPlayerAnswer_last wsTag now questionId optionId c r q p o :
  accepts (st c) wsTag questionId optionId r q p o ->
  (forall t, In t (awaiting r) -> t = wsTag) ->
  revealable q (Obj.values (players (st c))) = true ->
  exists c', onPlayerAnswer wsTag now questionId optionId c = Done c'
    /\ alarmAt c' = None
    /\ round (st c') = None
    /\ players (st c') =
         Obj.each (scorePlayer q (endMs r))
           (Obj.set (players (st c)) wsTag (lockAnswer o now p))
    /\ gs c' = Some (st c')
    /\ (exists rv tail,
         out c' = (out (lockedCtx wsTag now o r p c)
                   ++ Broadcast (question_reveal rv) :: tail)%list
         /\ rv_correctOptionIds rv = correctOptionIds q)
    /\ proto c' = proto c.
Proof.
  intros Ha Hall Hrev. rewrite (onPlayerAnswer_accepted _ _ _ _ _ _ _ _ _ Ha).
  rewrite (filter_all_gone wsTag (awaiting r) Hall).
  destruct Ha as (Hr & Hp & Hg & Hq & _ & Hsel & _ & _ & Hin).
  destruct (lockedCtx_facts wsTag now o r p c)
    as (Hpl & Hrd & Hqs & Hci & _).
  destruct (endRound_open (saveState (deleteAlarm
              (lockedCtx wsTag now o r p c))) _ q Hrd)
    as (c' & E & Hps & Hn & Hs & Hal & Hout & _ & _ & _ & _ & Hpr).
  { simpl. rewrite Hqs, Hci. exact Hq. }
  { simpl. rewrite Hpl. now rewrite (revealable_locked q _ wsTag p o now). }
  exists c'. split; [exact E|]. simpl in *.
  rewrite Hps, Hpl. repeat split; auto.
  rewrite Hpr. unfold lockedCtx, toHost, toTag, emit, mutate. simpl.
  destruct (hostTag (st c)) as [h|]; [destruct (Js.truthy h)|]; reflexivity.
Qed.

(** ... and throws, the alarm cancelled and the round still open, when a
    recorded answer names an inherited member that is no option of the
    question. *)
Lemma onPlayerAnswer_last_throws wsTag now questionId optionId c r q p o :
  accepts (st c) wsTag questionId optionId r q p o ->
  (forall t, In t (awaiting r) -> t = wsTag) ->
  existsb (fun opt => String.eqb (o_id opt) "__proto__") (options q) = false ->
  revealable q (Obj.values (players (st c))) = false ->
  exists c', onPlayerAnswer wsTag now questionId optionId c = Threw c'
    /\ alarmAt c' = None
    /\ round (st c') = Some (set_awaiting [] r)
    /\ (exists s1, gs c' = Some s1 /\ round s1 = Some (set_awaiting [] r))
    /\ out c' = out (lockedCtx wsTag now o r p c).
Proof.
  intros Ha Hall Hno Hrev.
  rewrite (onPlayerAnswer_accepted _ _ _ _ _ _ _ _ _ Ha).
  rewrite (filter_all_gone wsTag (awaiting r) Hall).
  destruct Ha as (Hr & Hp & Hg & Hq & _ & Hsel & _ & _ & Hin).
  destruct (lockedCtx_facts wsTag now o r p c)
    as (Hpl & Hrd & Hqs & Hci & _).
  rewrite (filter_all_gone wsTag (awaiting r) Hall) in Hrd.
  rewrite (endRound_throws (saveState (deleteAlarm
             (lockedCtx wsTag now o r p c))) _ q Hrd).
  - eexists. split; [reflexivity|]. simpl. repeat split; auto.
    exists (st (lockedCtx wsTag now o r p c)). split; [reflexivity | exact Hrd].
  - simpl. rewrite Hqs, Hci. exact Hq.
  - exact Hno.
  - simpl. rewrite Hpl. now rewrite (revealable_locked q _ wsTag p o now).
Qed.

Lemma last_answer_scores wsTag now (q : QuizQuestion) (r : RoundState)
    (ps ps' : Obj.t Player) p o :
  Obj.get ps wsTag = Some p ->
  ps' = Obj.each (scorePlayer q (endMs r))
          (Obj.set ps wsTag (lockAnswer o now p)) ->
  (exists pl p', recordedAs o now p pl
                 /\ Obj.get ps' wsTag = Some p'
                 /\ scoredAs q (endMs r) pl p')
  /\ (forall w pw, w <> wsTag -> Obj.get ps w = Some pw ->
        exists pw', Obj.get ps' w = Some pw'
                    /\ scoredAs q (endMs r) pw pw').
Proof.
  intros Hg ->. split.
  - exists (lockAnswer o now p), (scorePlayer q (endMs r) (lockAnswer o now p)).
    split; [apply lockAnswer_recordedAs|]. split.
    + now rewrite get_each, get_set_eq.
    + apply scorePlayer_scoredAs.
  - intros w pw Hne Hw. exists (scorePlayer q (endMs r) pw). split.
    + rewrite get_each, get_set_ne by congruence. now rewrite Hw.
    + apply scorePlayer_scoredAs.
Qed.

(** C5. An accepted player:answer after which no player is awaited ends
    the round in the same event whenever the tallies of the reveal can be
    built: the scheduled wake-up is cancelled, the answer is recorded,
    every player is scored by the rule of the specification, the reveal
    is broadcast, the round is cleared and the state saved; the same at
    the level of webSocketMessage.  It does not when a player's recorded
    answer names a member of Object.prototype that is no option of the
    open question: the wake-up is cancelled, then endRound throws, the
    round stays open in memory and in storage and no reveal is sent.
    Such a state is reached: bob answers [constructor] to the first
    question, drops out and rejoins during the second; the answer of
    ann, the only awaited player, then leaves the round open for good. *)
Theorem C5_last_answer_ends_round_unless_stale (wsTag : string) (now : Z)
    (questionId optionId : option string)
    (r : RoundState) (q : QuizQuestion) (p : Player) (o : string) :
  (forall c,
     accepts (st c) wsTag questionId optionId r q p o ->
     (forall t, In t (awaiting r) -> t = wsTag) ->
     revealable q (Obj.values (players (st c))) = true ->
     exists c', onPlayerAnswer wsTag now questionId optionId c = Done c'
       /\ alarmAt c' = None
       /\ round (st c') = None
       /\ gs c' = Some (st c')
       /\ (exists pl p', recordedAs o now p pl
                         /\ Obj.get (players (st c')) wsTag = Some p'
                         /\ scoredAs q (endMs r) pl p')
       /\ (forall w pw, w <> wsTag ->
             Obj.get (players (st c)) w = Some pw ->
             exists pw', Obj.get (players (st c')) w = Some pw'
                         /\ scoredAs q (endMs r) pw pw')
       /\ exists rv tail,
            out c' = (out (lockedCtx wsTag now o r p c)
                      ++ Broadcast (question_reveal rv) :: tail)%list
            /\ rv_correctOptionIds rv = correctOptionIds q)
  /\ (forall d s reqId_ uuid,
        stateOf d = Some s ->
        Js.len (hitsAfter wsTag now d) <= 30 ->
        accepts s wsTag questionId optionId r q p o ->
        (forall t, In t (awaiting r) -> t = wsTag) ->
        revealable q (Obj.values (players s)) = true ->
        exists d' effects s',
          webSocketMessage wsTag now
            (Some (mkMessage (player_answer questionId optionId) reqId_))
            uuid d = Returned d' effects
          /\ storage_alarm d' = None
          /\ stateOf d' = Some s' /\ storage_gs d' = Some s'
          /\ round s' = None
          /\ (exists pl p', recordedAs o now p pl
                            /\ Obj.get (players s') wsTag = Some p'
                            /\ scoredAs q (endMs r) pl p')
          /\ (forall w pw, w <> wsTag ->
                Obj.get (players s) w = Some pw ->
                exists pw', Obj.get (players s') w = Some pw'
                            /\ scoredAs q (endMs r) pw pw')
          /\ exists rv, In (Broadcast (question_reveal rv)) effects)
  /\ (forall d s reqId_ uuid,
        stateOf d = Some s ->
        Js.len (hitsAfter wsTag now d) <= 30 ->
        accepts s wsTag questionId optionId r q p o ->
        (forall t, In t (awaiting r) -> t = wsTag) ->
        existsb (fun opt => String.eqb (o_id opt) "__proto__") (options q)
        = false ->
        revealable q (Obj.values (players s)) = false ->
        exists d' effects s' s1,
          webSocketMessage wsTag now
            (Some (mkMessage (player_answer questionId optionId) reqId_))
            uuid d = Raised d' effects
          /\ storage_alarm d' = None
          /\ stateOf d' = Some s' /\ round s' = Some (set_awaiting [] r)
          /\ storage_gs d' = Some s1 /\ round s1 = Some (set_awaiting [] r)
          /\ forall rv, ~ In (Broadcast (question_reveal rv)) effects)
  /\ (exists r0 q0 p0 d' effects s' s1,
        accepts (default Sample.lobby (stateOf Sample.roomC9)) "player-ann"
          (Some "q2") (Some "a") r0 q0 p0 "a"
        /\ awaiting r0 = ["player-ann"]
        /\ webSocketMessage "player-ann" 7000
             (Some (mkMessage (player_answer (Some "q2") (Some "a"))
                      (Some 1)))
             "" Sample.roomC9 = Raised d' effects
        /\ storage_alarm d' = None
        /\ stateOf d' = Some s' /\ round s' = Some (set_awaiting [] r0)
        /\ storage_gs d' = Some s1 /\ round s1 = Some (set_awaiting [] r0)
        /\ forall rv, ~ In (Broadcast (question_reveal rv)) effects).
Proof.
  split; [|split; [|split]].
  - intros c Ha Hall Hrev.
    destruct (onPlayerAnswer_last wsTag now questionId optionId c r q p o
                Ha Hall Hrev)
      as (c' & E & Hal & Hr & Hp & Hg & Hout & _).
    destruct Ha as (_ & _ & Hget & _).
    destruct (last_answer_scores wsTag now q r _ _ p o Hget Hp) as [H1 H2].
    exists c'. repeat split; auto.
  - intros d s reqId_ uuid Hs Hrate Ha Hall Hrev.
    rewrite (webSocketMessage_dispatch wsTag now _ uuid d s Hs Hrate).
    unfold dispatch. cbn [body].
    destruct (onPlayerAnswer_last wsTag now questionId optionId
                (mkCtx s (storage_gs d) (storage_alarm d) [] (protoOf d))
                r q p o Ha Hall Hrev)
      as (c' & E & Hal & Hr & Hp & Hg & (rv & tail & Hout & _) & _).
    destruct Ha as (_ & _ & Hget & _).
    destruct (last_answer_scores wsTag now q r _ _ p o Hget Hp) as [H1 H2].
    rewrite E. exists (leaveCtx (admitted wsTag now d) c'), (out c'), (st c').
    split; [reflexivity|]. simpl. repeat split; auto.
    exists rv. rewrite Hout. apply List.in_app_iff. right. now left.
  - intros d s reqId_ uuid Hs Hrate Ha Hall Hno Hrev.
    rewrite (webSocketMessage_dispatch wsTag now _ uuid d s Hs Hrate).
    unfold dispatch. cbn [body].
    destruct (onPlayerAnswer_last_throws wsTag now questionId optionId
                (mkCtx s (storage_gs d) (storage_alarm d) [] (protoOf d))
                r q p o Ha Hall Hno Hrev)
      as (c' & E & Hal & Hr & (s1 & Hg & Hr1) & Hout).
    rewrite E. exists (leaveCtx (admitted wsTag now d) c'), (out c'), (st c'), s1.
    split; [reflexivity|]. simpl. repeat split; auto.
    intros rv. rewrite Hout.
    unfold lockedCtx, toHost, toTag, emit, mutate. simpl.
    destruct (hostTag s) as [h|]; [destruct (Js.truthy h)|]; simpl;
      intros H; repeat (destruct H as [H|H]; [discriminate H|]); destruct H.
  - eexists (mkRound 5000 25000 ["player-ann"] None), Sample.q2,
      (mkPlayer "ann" 950 None None false 0 1 "tok-ann").
    eexists _, _, _, _.
    split; [|split; [reflexivity|]].
    + unfold accepts. repeat split; try reflexivity;
        [discriminate | simpl; left; reflexivity].
    + split; [vm_compute; reflexivity|].
      repeat split.
      intros rv H. simpl in H.
      repeat (destruct H as [H|H]; [discriminate H|]). destruct H.
Qed.

Lemma C5_last_answer_ends_round_unless_stale_witness :
  (* bob, the only player awaited in the sample room, answers *)
  (exists c',
     onPlayerAnswer "player-bob" 9000 (Some "q1") (Some "a")
       (Sample.ctxOf Sample.room5) = Done c'
     /\ alarmAt c' = None /\ round (st c') = None /\ gs c' = Some (st c'))
  /\ (exists d' effects s',
        webSocketMessage "player-bob" 9000
          (Some (mkMessage (player_answer (Some "q1") (Some "a")) None))
          "" Sample.room5 = Returned d' effects
        /\ storage_alarm d' = None
        /\ stateOf d' = Some s' /\ storage_gs d' = Some s'
        /\ round s' = None).
Proof.
  destruct (C5_last_answer_ends_round_unless_stale "player-bob" 9000
              (Some "q1") (Some "a")
              (mkRound 1000 21000 ["player-bob"] None) Sample.q1
              (mkPlayer "bob" 0 None None false 0 0 "tok-bob") "a")
    as (Hctx & Hmsg & _).
  assert (Hacc : forall s, stateOf Sample.room5 = Some s ->
            accepts s "player-bob" (Some "q1") (Some "a")
              (mkRound 1000 21000 ["player-bob"] None) Sample.q1
              (mkPlayer "bob" 0 None None false 0 0 "tok-bob") "a").
  { intros s Hs. injection Hs as <-. unfold accepts.
    repeat split; try reflexivity; [discriminate | simpl; left; reflexivity]. }
  assert (Hall : forall t,
            In t (awaiting (mkRound 1000 21000 ["player-bob"] None)) ->
            t = "player-bob").
  { intros t Ht. simpl in Ht. destruct Ht as [<-|[]]. reflexivity. }
  split.
  - destruct (Hctx (Sample.ctxOf Sample.room5) (Hacc _ eq_refl) Hall eq_refl)
      as (c' & E & Ha & Hr & Hs & _).
    exists c'. auto.
  - destruct (Hmsg Sample.room5 _ None "" eq_refl) as
      (d' & effects & s' & E & Hal & Hs & Hg & Hr & _).
    + vm_compute. discriminate.
    + apply Hacc. reflexivity.
    + exact Hall.
    + reflexivity.
    + exists d', effects, s'. auto.
Defined.

(* ------------------------------------------------------------------ *)
(** ** The alarm *)

Lemma alarm_paused d s r :
  stateOf d = Some s -> round s = Some r -> paused s = true ->
  alarm d = Returned (fst (getState d)) [].
Proof.
  intros Hs Hr Hp. unfold alarm, getState. simpl.
  rewrite Hs, Hr, Hp. reflexivity.
Qed.

Lemma alarm_no_round d s :
  stateOf d = Some s -> round s = None ->
  alarm d = Returned (purge (fst (getState d))) [].
Proof.
  intros Hs Hr. unfold alarm, getState. simpl. rewrite Hs, Hr. reflexivity.
Qed.

(** C2, as stated, fails: in the room where the round has closed early and
    the game is still in progress, the alarm handler deletes the stored
    state. *)
Lemma C2_alarm_after_early_close_purges :
  (exists s, stateOf Sample.room6 = Some s
             /\ round s = None /\ started s = true
             /\ currentIndex s < Js.len (questions s))
  /\ storage_gs Sample.room6 <> None
  /\ storage_gs (do_of (alarm Sample.room6)) = None
  /\ stateOf (do_of (alarm Sample.room6)) = None
  /\ alarm Sample.room6 <> Returned (fst (getState Sample.room6)) [].
Proof.
  split; [eexists; repeat split; reflexivity|].
  repeat split; try reflexivity; vm_compute; discriminate.
Qed.

(** C2 (amended). An alarm firing while the round is paused is ignored: no
    effect, and state, stored snapshot and alarm stay as they are.  An alarm
    firing when no round is open, also after an early close with the game
    still in progress, is the post-game cleanup: the stored state is
    deleted.  The early close itself cancels the scheduled alarm, and
    leaves no round open when the tallies of the reveal can be built. *)
Theorem C2_alarm_by_phase :
  (forall d s r,
     stateOf d = Some s -> round s = Some r -> paused s = true ->
     alarm d = Returned (fst (getState d)) []
     /\ stateOf (fst (getState d)) = Some s
     /\ storage_gs (fst (getState d)) = storage_gs d
     /\ storage_alarm (fst (getState d)) = storage_alarm d)
  /\ (forall d s,
        stateOf d = Some s -> round s = None ->
        exists d', alarm d = Returned d' []
                   /\ storage_gs d' = None /\ stateOf d' = None)
  /\ (forall wsTag now questionId optionId c r q p o,
        accepts (st c) wsTag questionId optionId r q p o ->
        (forall t, In t (awaiting r) -> t = wsTag) ->
        alarmAt (ctx_of (onPlayerAnswer wsTag now questionId optionId c))
        = None
        /\ (revealable q (Obj.values (players (st c))) = true ->
            exists c', onPlayerAnswer wsTag now questionId optionId c = Done c'
                       /\ round (st c') = None /\ alarmAt c' = None)).
Proof.
  split; [|split].
  - intros d s r Hs Hr Hp. split; [exact (alarm_paused d s r Hs Hr Hp)|].
    unfold getState, stateOf in *. simpl.
    destruct (_state d); rewrite ?Hs; auto.
  - intros d s Hs Hr. eexists. split; [exact (alarm_no_round d s Hs Hr)|].
    split; reflexivity.
  - intros wsTag now questionId optionId c r q p o Ha Hall. split.
    + rewrite (onPlayerAnswer_accepted _ _ _ _ _ _ _ _ _ Ha).
      rewrite (filter_all_gone wsTag (awaiting r) Hall).
      now rewrite (proj1 (endRound_alarm _)).
    + intros Hrev.
      destruct (onPlayerAnswer_last wsTag now questionId optionId c r q p o
                  Ha Hall Hrev) as (c' & E & Hal & Hr & _).
      exists c'. auto.
Qed.

Lemma C2_alarm_by_phase_witness :
  (exists d', alarm Sample.room6 = Returned d' []
              /\ storage_gs d' = None /\ stateOf d' = None)
  /\ alarm (do_of (webSocketMessage "host" 7000
                     (Sample.say host_pause) "" Sample.room5))
     = Returned (fst (getState
                        (do_of (webSocketMessage "host" 7000
                                  (Sample.say host_pause) "" Sample.room5))))
         [].
Proof.
  destruct C2_alarm_by_phase as (Hpaused & Hnone & _). split.
  - apply (Hnone Sample.room6 _ eq_refl eq_refl).
  - eapply Hpaused; vm_compute; reflexivity.
Defined.

(* ------------------------------------------------------------------ *)
(** ** After the game is over *)

(** Once the question pointer is past the last question, no player:answer
    does anything. *)
Lemma answer_after_game_over wsTag now questionId optionId c :
  Js.len (questions (st c)) <= currentIndex (st c) ->
  onPlayerAnswer wsTag now questionId optionId c = Done c.
Proof.
  intros Hover.
  destruct (onPlayerAnswer_cases wsTag now questionId optionId c)
    as [E | (r & q & p & o & _ & _ & _ & Hq & _)]; [exact E|].
  exfalso. unfold Js.at_index, Js.len in *.
  destruct (currentIndex (st c) <? 0) eqn:Hneg; [discriminate|].
  assert (Z.to_nat (currentIndex (st c)) < List.length (questions (st c)))%nat
    by (apply List.nth_error_Some; congruence).
  lia.
Qed.

(** With [started] back to false, onPlayerJoin takes the lobby path. *)
Lemma join_when_not_started wsTag rawName tok reqId_ uuid c :
  started (st c) = false ->
  rawName <> "" -> sanitizeName rawName <> "" ->
  Js.len (Obj.keys (players (st c))) < 100 ->
  (forall p, In p (Obj.values (players (st c))) ->
             name p <> sanitizeName rawName) ->
  Obj.get
    (players (st (ctx_of (onPlayerJoin wsTag (Some rawName) tok reqId_ uuid
                            c))))
    wsTag
  = Some (mkPlayer (sanitizeName rawName) 0 None None false 0 0 uuid).
Proof.
  intros Hs Hraw Hsafe Hfull Hfree. unfold onPlayerJoin.
  apply truthy_true in Hraw. apply truthy_true in Hsafe.
  rewrite Hraw, Hsafe, Hs. simpl.
  destruct (100 <=? Js.len (Obj.keys (players (st c)))) eqn:Hc; [lia|].
  destruct (existsb _ (Obj.values (players (st c)))) eqn:Hex.
  - apply List.existsb_exists in Hex. destruct Hex as (p & Hin & E).
    apply String.eqb_eq in E. exfalso. exact (Hfree p Hin E).
  - unfold broadcastLobby, broadcast, ack, emit, saveState, mutate.
    destruct reqId_; simpl; apply get_set_eq.
Qed.

(** C3. The game is over (game:over was broadcast, [started] is false, the
    pointer is past the last question); a player:join with a new name is
    then admitted through the lobby path and adds a player, and the status
    check reports the room as open. *)
Theorem C3_join_after_game_over_adds_player :
  (exists lb, In (Broadcast (game_over lb))
                (effects_of (webSocketMessage "host" 20000
                               (Sample.say (host_next None)) ""
                               Sample.room8)))
  /\ (exists s, stateOf Sample.roomOver = Some s
                /\ started s = false
                /\ currentIndex s = Js.len (questions s)
                /\ Obj.keys (players s) = ["player-ann"; "player-bob"])
  /\ (exists s',
        stateOf (do_of (webSocketMessage "player-eve" 30000
                          (Sample.say (player_join (Some "eve") None))
                          "tok-eve" Sample.roomOver)) = Some s'
        /\ Obj.get (players s') "player-eve"
           = Some (mkPlayer "eve" 0 None None false 0 0 "tok-eve")
        /\ Obj.keys (players s')
           = ["player-ann"; "player-bob"; "player-eve"])
  /\ snd (fetchStatus Sample.roomOver) = room_open "Sums".
Proof.
  split; [|split; [|split]].
  - eexists. vm_compute. left. reflexivity.
  - eexists. repeat split; reflexivity.
  - eexists. repeat split; vm_compute; reflexivity.
  - vm_compute. reflexivity.
Qed.

(* ------------------------------------------------------------------ *)
(** ** Host disconnect *)

(** C6. Whatever the state of an existing room (Lobby, RoundActive, Reveal
    or any other), the close of the host's socket broadcasts game:cancelled,
    which reaches every open socket, and deletes the stored state: the
    status check then answers that the room is not found. *)
Theorem C6_host_disconnect_tears_down (d : DO) (s : GameState) :
  stateOf d = Some s ->
  let d' := fst (webSocketClose "host" d) in
  let effects := snd (webSocketClose "host" d) in
  effects = [Broadcast game_cancelled]
  /\ (forall sockets t, In t sockets ->
        In (t, game_cancelled) (List.flat_map (deliver sockets) effects))
  /\ storage_gs d' = None
  /\ _state d' = None
  /\ snd (fetchStatus d') = room_not_found.
Proof.
  intros Hs. unfold webSocketClose, getState. simpl. rewrite Hs. simpl.
  repeat split.
  intros sockets t Ht. rewrite List.app_nil_r.
  apply List.in_map_iff. exists t. auto.
Qed.

Lemma C6_host_disconnect_tears_down_witness :
  (* Lobby *)
  snd (fetchStatus (fst (webSocketClose "host" Sample.room3)))
  = room_not_found
  (* RoundActive *)
  /\ snd (fetchStatus (fst (webSocketClose "host" Sample.room5)))
     = room_not_found
  (* Reveal *)
  /\ snd (fetchStatus (fst (webSocketClose "host" Sample.room6)))
     = room_not_found
  /\ snd (webSocketClose "host" Sample.room6) = [Broadcast game_cancelled].
Proof.
  split; [|split; [|split]].
  - apply (C6_host_disconnect_tears_down Sample.room3 _ eq_refl).
  - apply (C6_host_disconnect_tears_down Sample.room5 _ eq_refl).
  - apply (C6_host_disconnect_tears_down Sample.room6 _ eq_refl).
  - apply (C6_host_disconnect_tears_down Sample.room6 _ eq_refl).
Defined.

(* ------------------------------------------------------------------ *)
(** ** Disconnect and rejoin *)

Lemma unchanged_ack ws reqId_ a c : unchanged c (ack ws reqId_ a c).
Proof. unfold unchanged, ack, emit. destruct reqId_; simpl; auto. Qed.

Lemma token_guard disc tok :
  (Js.truthy (rejoinToken disc)
   && negb (bool_decide (tok = Some (rejoinToken disc))) = false)
  <-> tokenOk disc tok.
Proof.
  unfold tokenOk. destruct (Js.truthy (rejoinToken disc)) eqn:Ht; simpl.
  - apply truthy_true in Ht. rewrite negb_false_iff, bool_decide_eq_true.
    tauto.
  - split; [|reflexivity]. intros _ Hne. apply truthy_true in Hne. congruence.
Qed.

Lemma lookupSnapshot_own pr (own : gmap string Player) k disc :
  own !! k = Some disc -> lookupSnapshot pr own k = FoundPlayer disc.
Proof. intros H. unfold lookupSnapshot. now rewrite H. Qed.

(** A player is found as an own property, or as the prototype itself. *)
Lemma lookupSnapshot_found pr (own : gmap string Player) k disc :
  lookupSnapshot pr own k = FoundPlayer disc ->
  own !! k = Some disc
  \/ (own !! k = None /\ pr = Some disc /\ k = "__proto__").
Proof.
  unfold lookupSnapshot. destruct (own !! k) as [d|]; [intros [= <-]; now left|].
  destruct pr as [copy|].
  - destruct (playerFieldTruthy copy k) as [[|]|]; try discriminate.
    destruct (String.eqb_spec k "__proto__") as [->|_];
      [intros [= <-]; right; auto|].
    destruct (inherited k); discriminate.
  - destruct (inherited k); discriminate.
Qed.

(** The rejoin path, taken. *)
Lemma onPlayerJoin_rejoin wsTag rawName tok reqId_ uuid c disc :
  started (st c) = true ->
  rawName <> "" -> sanitizeName rawName <> "" ->
  lookupSnapshot (proto c) (disconnectedPlayers (st c)) (sanitizeName rawName)
  = FoundPlayer disc ->
  tokenOk disc tok ->
  exists c',
    onPlayerJoin wsTag (Some rawName) tok reqId_ uuid c = Done c'
    /\ players (st c') = Obj.set (players (st c)) wsTag disc
    /\ disconnectedPlayers (st c')
       = delete (sanitizeName rawName) (disconnectedPlayers (st c))
    /\ round (st c') = round (st c)
    /\ gs c' = Some (st c')
    /\ In (Send wsTag (game_started (title (st c)))) (out c')
    /\ proto c' = proto c
    /\ alarmAt c' = alarmAt c.
Proof.
  intros Hs Hraw Hsafe Hd Htok. unfold onPlayerJoin.
  apply truthy_true in Hraw. apply truthy_true in Hsafe.
  apply token_guard in Htok.
  rewrite Hraw, Hsafe, Hs, Hd, Htok. simpl.
  eexists. split; [reflexivity|].
  unfold broadcastLobby, broadcast, ack, emit, saveState, mutate.
  destruct reqId_; simpl; repeat split; try reflexivity;
    rewrite !List.in_app_iff; simpl; auto.
Qed.

(** A join while the game is started is turned down and changes nothing,
    or is a rejoin, or goes astray: what the lookup finds is no player. *)
Lemma onPlayerJoin_started wsTag name_ tok reqId_ uuid c :
  started (st c) = true ->
  (exists c', onPlayerJoin wsTag name_ tok reqId_ uuid c = Done c'
              /\ unchanged c c' /\ proto c' = proto c)
  \/ (exists rawName disc,
        name_ = Some rawName
        /\ rawName <> "" /\ sanitizeName rawName <> ""
        /\ lookupSnapshot (proto c) (disconnectedPlayers (st c))
             (sanitizeName rawName) = FoundPlayer disc
        /\ tokenOk disc tok)
  \/ (exists rawName,
        name_ = Some rawName
        /\ rawName <> "" /\ sanitizeName rawName <> ""
        /\ lookupSnapshot (proto c) (disconnectedPlayers (st c))
             (sanitizeName rawName) = FoundOther
        /\ onPlayerJoin wsTag name_ tok reqId_ uuid c = Strayed c).
Proof.
  intros Hs. unfold onPlayerJoin.
  assert (Hack : forall a,
            exists c', Done (ack wsTag reqId_ a c) = Done c'
                       /\ unchanged c c' /\ proto c' = proto c).
  { intros a. eexists. split; [reflexivity|]. split; [apply unchanged_ack|].
    unfold ack, emit. now destruct reqId_. }
  destruct name_ as [rawName|]; [|left; apply Hack].
  destruct (Js.truthy rawName) eqn:Hraw; simpl; [|left; apply Hack].
  destruct (Js.truthy (sanitizeName rawName)) eqn:Hsafe; simpl;
    [|left; apply Hack].
  rewrite Hs. apply truthy_true in Hraw, Hsafe.
  destruct (lookupSnapshot (proto c) (disconnectedPlayers (st c))
              (sanitizeName rawName)) as [disc| |] eqn:Hd.
  - destruct (Js.truthy (rejoinToken disc)
              && negb (bool_decide (tok = Some (rejoinToken disc)))) eqn:Hg;
      [left; apply Hack|].
    right. left. exists rawName, disc. apply token_guard in Hg. auto.
  - right. right. exists rawName. auto.
  - left. apply Hack.
Qed.

(** What onPlayerClose does for a joined player. *)
Lemma onPlayerClose_player wsTag c p :
  Obj.get (players (st c)) wsTag = Some p ->
  let c' := onPlayerClose wsTag c in
  players (st c') = Obj.del (players (st c)) wsTag
  /\ disconnectedPlayers (st c')
     = (if started (st c) && negb (String.eqb (name p) "__proto__")
        then <[name p := p]> (disconnectedPlayers (st c))
        else disconnectedPlayers (st c))
  /\ started (st c') = started (st c)
  /\ gs c' = Some (st c')
  /\ (forall r', round (st c') = Some r' ->
      exists r, round (st c) = Some r
                /\ r' = set_awaiting
                          (List.filter (fun t => negb (String.eqb t wsTag))
                             (awaiting r)) r)
  /\ proto c'
     = (if started (st c) && String.eqb (name p) "__proto__"
        then Some p else proto c).
Proof.
  intros Hg. unfold onPlayerClose. rewrite Hg.
  destruct c as [[gid ttl qs ps dps stt psd ci rd ht hs] g a o pr].
  cbn [st started players] in *.
  destruct stt; [destruct (String.eqb (name p) "__proto__")|];
    destruct rd as [r|];
    cbn -[insert Obj.keys Obj.del];
    destruct (Obj.keys (Obj.del ps wsTag));
    cbn -[insert Obj.keys Obj.del];
    repeat split; try discriminate; intros r' [= <-]; eauto.
Qed.

(** C7. A player whose socket closes once the game has started leaves a
    snapshot under the player's name, saved with the state, unless the
    name is [__proto__]: the copy then becomes the prototype of the
    snapshots and nothing is stored.  A player:join in the started game
    is turned down and changes nothing, or finds a player under the
    sanitized name and passes the token check (the player found is then
    bound to the new tag as found, score and streak included, and the
    snapshot removed), or finds under that name something that is no
    player, and goes on without a token check.  A token that does not
    match the one of the player found changes nothing, and disconnecting
    and rejoining with the right name and token gives back the same
    player.  With no snapshot under the name and the prototype in place,
    the join is turned down with "Game already started." exactly when
    the name is not that of a member of [Object.prototype].  The claim
    fails on the other names: in a started room without any snapshot, a
    join called [constructor] is not turned down. *)
Theorem C7_join_by_inherited_name_needs_no_snapshot :
  (forall d s wsTag p,
     stateOf d = Some s -> started s = true -> wsTag <> "host" ->
     Obj.get (players s) wsTag = Some p ->
     exists s',
       stateOf (fst (webSocketClose wsTag d)) = Some s'
       /\ storage_gs (fst (webSocketClose wsTag d)) = Some s'
       /\ Obj.get (players s') wsTag = None
       /\ (name p <> "__proto__" -> disconnectedPlayers s' !! name p = Some p)
       /\ (name p = "__proto__" ->
           disconnectedPlayers s' = disconnectedPlayers s
           /\ _proto (fst (webSocketClose wsTag d)) = Some p))
  /\ (forall c wsTag name_ tok reqId_ uuid,
        started (st c) = true ->
        (exists c', onPlayerJoin wsTag name_ tok reqId_ uuid c = Done c'
                    /\ unchanged c c')
        \/ (exists rawName disc c',
              name_ = Some rawName
              /\ lookupSnapshot (proto c) (disconnectedPlayers (st c))
                   (sanitizeName rawName) = FoundPlayer disc
              /\ tokenOk disc tok
              /\ onPlayerJoin wsTag name_ tok reqId_ uuid c = Done c'
              /\ Obj.get (players (st c')) wsTag = Some disc
              /\ disconnectedPlayers (st c') !! sanitizeName rawName = None)
        \/ (exists rawName,
              name_ = Some rawName
              /\ lookupSnapshot (proto c) (disconnectedPlayers (st c))
                   (sanitizeName rawName) = FoundOther
              /\ disconnectedPlayers (st c) !! sanitizeName rawName = None
              /\ onPlayerJoin wsTag name_ tok reqId_ uuid c = Strayed c))
  /\ (forall c wsTag rawName tok reqId_ uuid disc,
        started (st c) = true ->
        lookupSnapshot (proto c) (disconnectedPlayers (st c))
          (sanitizeName rawName) = FoundPlayer disc ->
        rejoinToken disc <> "" -> tok <> Some (rejoinToken disc) ->
        exists c', onPlayerJoin wsTag (Some rawName) tok reqId_ uuid c
                   = Done c'
                   /\ unchanged c c')
  /\ (forall c wsTag wsTag' p rawName reqId_ uuid,
        started (st c) = true -> Obj.get (players (st c)) wsTag = Some p ->
        rawName <> "" -> sanitizeName rawName = name p -> name p <> "" ->
        name p <> "__proto__" ->
        let c1 := onPlayerClose wsTag c in
        exists c2,
          onPlayerJoin wsTag' (Some rawName) (Some (rejoinToken p))
            reqId_ uuid c1 = Done c2
          /\ Obj.get (players (st c2)) wsTag' = Some p
          /\ disconnectedPlayers (st c2) !! name p = None)
  /\ (forall c wsTag rawName tok reqId_ uuid disc,
        started (st c) = true ->
        rawName <> "" -> sanitizeName rawName <> "" ->
        lookupSnapshot (proto c) (disconnectedPlayers (st c))
          (sanitizeName rawName) = FoundPlayer disc ->
        tokenOk disc tok ->
        exists c',
          onPlayerJoin wsTag (Some rawName) tok reqId_ uuid c = Done c'
          /\ players (st c') = Obj.set (players (st c)) wsTag disc
          /\ disconnectedPlayers (st c')
             = delete (sanitizeName rawName) (disconnectedPlayers (st c))
          /\ gs c' = Some (st c')
          /\ In (Send wsTag (game_started (title (st c)))) (out c'))
  /\ (forall c wsTag rawName tok reqId_ uuid,
        started (st c) = true ->
        rawName <> "" -> sanitizeName rawName <> "" ->
        disconnectedPlayers (st c) !! sanitizeName rawName = None ->
        proto c = None ->
        (inherited (sanitizeName rawName) = true ->
         onPlayerJoin wsTag (Some rawName) tok reqId_ uuid c = Strayed c)
        /\ (inherited (sanitizeName rawName) = false ->
            onPlayerJoin wsTag (Some rawName) tok reqId_ uuid c
            = Done (ack wsTag reqId_ (ack_error "Game already started.") c)))
  /\ (exists s,
        stateOf Sample.room4 = Some s /\ started s = true
        /\ disconnectedPlayers s = ∅
        /\ _proto Sample.room4 = None
        /\ onPlayerJoin "player-eve" (Some "constructor") None (Some 1)
             "tok-eve" (Sample.ctxOf Sample.room4)
           = Strayed (Sample.ctxOf Sample.room4)
        /\ exists d',
             webSocketMessage "player-eve" 2000
               (Some (mkMessage (player_join (Some "constructor") None)
                        (Some 1)))
               "tok-eve" Sample.room4 = Astray d' []).
Proof.
  split; [|split; [|split; [|split; [|split; [|split]]]]].
  - intros d s wsTag p Hd Hs Hhost Hg.
    unfold webSocketClose, getState. rewrite Hd.
    destruct (String.eqb_spec wsTag "host") as [E|_]; [contradiction|].
    destruct (onPlayerClose_player wsTag
                (enter (mkDO (Some s) (_wsRateMap d) (storage_gs d)
                          (storage_alarm d) (protoOf d)) s) p Hg)
      as (Hp & Hdp & _ & Hsaved & _ & Hpr).
    eexists. split; [reflexivity|]. cbn [fst leaveCtx storage_gs _proto].
    split; [exact Hsaved|]. rewrite Hp, Hdp, Hpr. cbn [enter st]. rewrite Hs.
    split; [apply get_del_eq|]. split.
    + intros Hne. apply String.eqb_neq in Hne. rewrite Hne.
      apply lookup_insert_eq.
    + intros ->. split; reflexivity.
  - intros c wsTag name_ tok reqId_ uuid Hs.
    destruct (onPlayerJoin_started wsTag name_ tok reqId_ uuid c Hs)
      as [(c' & E & Hu & _)
         | [(rawName & disc & -> & Hraw & Hsafe & Hd & Htok)
           | (rawName & -> & _ & _ & Hd & E)]].
    + left. eauto.
    + right. left.
      destruct (onPlayerJoin_rejoin wsTag rawName tok reqId_ uuid c disc
                  Hs Hraw Hsafe Hd Htok) as (c' & E & Hp & Hdp & _).
      exists rawName, disc, c'. rewrite Hp, Hdp.
      repeat split; auto; [apply get_set_eq | apply lookup_delete_eq].
    + right. right. exists rawName. repeat split; auto.
      unfold lookupSnapshot in Hd.
      now destruct (disconnectedPlayers (st c) !! sanitizeName rawName).
  - intros c wsTag rawName tok reqId_ uuid disc Hs Hd Hne Htok.
    destruct (onPlayerJoin_started wsTag (Some rawName) tok reqId_ uuid c Hs)
      as [(c' & E & Hu & _)
         | [(rawName' & disc' & [= <-] & _ & _ & Hd' & Htok')
           | (rawName' & [= <-] & _ & _ & Hd' & _)]].
    + eauto.
    + exfalso. rewrite Hd in Hd'. injection Hd' as <-.
      exact (Htok (Htok' Hne)).
    + congruence.
  - intros c wsTag wsTag' p rawName reqId_ uuid Hs Hg Hraw Hname Hne Hnp c1.
    destruct (onPlayerClose_player wsTag c p Hg) as (_ & Hd & Hs1 & _).
    fold c1 in Hd, Hs1. rewrite Hs in Hd, Hs1.
    apply String.eqb_neq in Hnp. rewrite Hnp in Hd. cbn [negb andb] in Hd.
    assert (Hlook : lookupSnapshot (proto c1) (disconnectedPlayers (st c1))
                      (sanitizeName rawName) = FoundPlayer p).
    { apply lookupSnapshot_own. rewrite Hd, Hname. apply lookup_insert_eq. }
    destruct (onPlayerJoin_rejoin wsTag' rawName (Some (rejoinToken p))
                reqId_ uuid c1 p Hs1 Hraw) as (c2 & E & Hp & Hdp & _).
    + rewrite Hname. exact Hne.
    + exact Hlook.
    + intros _. reflexivity.
    + exists c2. split; [exact E|]. rewrite Hp, Hdp, Hname.
      split; [apply get_set_eq | apply lookup_delete_eq].
  - intros c wsTag rawName tok reqId_ uuid disc Hs Hraw Hsafe Hd Htok.
    destruct (onPlayerJoin_rejoin wsTag rawName tok reqId_ uuid c disc
                Hs Hraw Hsafe Hd Htok)
      as (c' & E & Hp & Hdp & _ & Hg & Hsend & _).
    exists c'. auto.
  - intros c wsTag rawName tok reqId_ uuid Hs Hraw Hsafe Hd Hpr.
    apply truthy_true in Hraw. apply truthy_true in Hsafe.
    unfold onPlayerJoin, lookupSnapshot.
    rewrite Hraw, Hsafe, Hs, Hd, Hpr. cbn [negb].
    split; intros ->; reflexivity.
  - eexists. split; [reflexivity|]. split; [reflexivity|].
    split; [vm_compute; reflexivity|]. split; [reflexivity|].
    split; [vm_compute; reflexivity|].
    eexists. vm_compute. reflexivity.
Qed.

Lemma C7_join_by_inherited_name_needs_no_snapshot_witness :
  (* ann's socket closes during the first round *)
  (exists s',
     stateOf (fst (webSocketClose "player-ann" Sample.room5)) = Some s'
     /\ storage_gs (fst (webSocketClose "player-ann" Sample.room5)) = Some s'
     /\ disconnectedPlayers s' !! "ann"
        = Some (mkPlayer "ann" 0 (Some 6000) (Some "b") false 0 0 "tok-ann"))
  (* she comes back with her name and token *)
  /\ (exists c2,
        onPlayerJoin "player-ann2" (Some " <b>ann</b> ") (Some "tok-ann")
          (Some 2) ""
          (onPlayerClose "player-ann" (Sample.ctxOf Sample.room5)) = Done c2
        /\ Obj.get (players (st c2)) "player-ann2"
           = Some (mkPlayer "ann" 0 (Some 6000) (Some "b") false 0 0
                     "tok-ann"))
  (* somebody else tries her name with another token *)
  /\ (exists c2,
        onPlayerJoin "player-x" (Some "ann") (Some "guess") (Some 2) ""
          (onPlayerClose "player-ann" (Sample.ctxOf Sample.room5)) = Done c2
        /\ unchanged
             (onPlayerClose "player-ann" (Sample.ctxOf Sample.room5)) c2).
Proof.
  destruct C7_join_by_inherited_name_needs_no_snapshot
    as (Hsnap & _ & Hbad & Hback & _).
  split; [|split].
  - destruct (Hsnap Sample.room5 _ "player-ann"
                (mkPlayer "ann" 0 (Some 6000) (Some "b") false 0 0 "tok-ann")
                eq_refl eq_refl) as (s' & H1 & H2 & _ & H3 & _).
    + discriminate.
    + reflexivity.
    + exists s'. split; [exact H1|]. split; [exact H2|].
      apply H3. discriminate.
  - destruct (Hback (Sample.ctxOf Sample.room5) "player-ann" "player-ann2"
                (mkPlayer "ann" 0 (Some 6000) (Some "b") false 0 0 "tok-ann")
                " <b>ann</b> " (Some 2) "") as (c2 & E & H & _).
    + reflexivity.
    + reflexivity.
    + discriminate.
    + reflexivity.
    + discriminate.
    + discriminate.
    + exists c2. split; [exact E | exact H].
  - apply (Hbad (onPlayerClose "player-ann" (Sample.ctxOf Sample.room5))
             "player-x" "ann" (Some "guess") (Some 2) ""
             (mkPlayer "ann" 0 (Some 6000) (Some "b") false 0 0 "tok-ann")).
    + reflexivity.
    + vm_compute. reflexivity.
    + discriminate.
    + discriminate.
Defined.

(* ------------------------------------------------------------------ *)
(** ** Opening a question *)

Lemma at_index_Some {A : Type} (l : list A) (i : Z) (x : A) :
  Js.at_index l i = Some x -> 0 <= i < Js.len l.
Proof.
  unfold Js.at_index, Js.len. destruct (i <? 0) eqn:Hneg; [discriminate|].
  intros H.
  assert (Z.to_nat i < List.length l)%nat
    by (apply List.nth_error_Some; congruence).
  lia.
Qed.

Lemma at_index_map {A B : Type} (f : A -> B) (l : list A) (i : Z) :
  Js.at_index (List.map f l) i = option_map f (Js.at_index l i).
Proof.
  unfold Js.at_index. destruct (i <? 0); [reflexivity|].
  apply List.nth_error_map.
Qed.

Lemma len_map {A B : Type} (f : A -> B) (l : list A) :
  Js.len (List.map f l) = Js.len l.
Proof. unfold Js.len. now rewrite List.length_map. Qed.

Lemma startQuestion_out now imageData c :
  out (ctx_of (startQuestion now imageData c))
  = (out c ++ startEffects imageData (st c))%list.
Proof.
  destruct c as [[gid ttl qs ps dps stt psd ci rd ht hs] g a o pr].
  unfold startQuestion, startEffects, endGame, broadcast, emit, saveState,
    setAlarm, mutate; simpl.
  destruct (Js.len qs <=? ci + 1); simpl; [reflexivity|].
  destruct (Js.at_index qs (ci + 1)); simpl;
    [reflexivity | now rewrite List.app_nil_r].
Qed.

Lemma withCorrect_same i ids s : sameButCorrect s (withCorrect i ids s).
Proof.
  unfold sameButCorrect, withCorrect; simpl. repeat split.
  generalize 0%nat. induction (questions s) as [|q qs IH]; intros n; simpl;
    [reflexivity|].
  rewrite <- IH. destruct (Nat.eqb n i); reflexivity.
Qed.

Lemma startEffects_hidden imageData s1 s2 :
  sameButCorrect s1 s2 ->
  startEffects imageData s1 = startEffects imageData s2.
Proof.
  intros (Hq & _ & _ & Hp & _ & _ & _ & Hi & _).
  unfold startEffects.
  assert (Hlen : Js.len (questions s1) = Js.len (questions s2)).
  { rewrite <- (len_map hideCorrect (questions s1)), Hq. apply len_map. }
  assert (Hlb : getLeaderboard s1 = getLeaderboard s2).
  { unfold getLeaderboard. now rewrite Hp. }
  rewrite Hlen, Hi, Hlb.
  destruct (Js.len (questions s2) <=? currentIndex s2 + 1); [reflexivity|].
  pose proof (at_index_map hideCorrect (questions s1) (currentIndex s2 + 1))
    as H1.
  pose proof (at_index_map hideCorrect (questions s2) (currentIndex s2 + 1))
    as H2.
  rewrite Hq, H2 in H1.
  destruct (Js.at_index (questions s1) (currentIndex s2 + 1)) as [q1|],
           (Js.at_index (questions s2) (currentIndex s2 + 1)) as [q2|];
    simpl in H1; try discriminate; [|reflexivity].
  injection H1 as E1 E2 E3 E4 E5 E6 E7.
  now rewrite E1, E2, E3, E5, E6.
Qed.

(** C8. What startQuestion sends, the question:show payload included, does
    not depend on the correct-answer identifiers: two states that differ
    only there (in the question being opened or in any other) produce the
    same effects; in particular, replacing the correct-answer identifiers
    of any one question changes nothing of what is sent. *)
Theorem C8_question_show_hides_correct (now : Z) (imageData : option string) :
  (forall c1 c2,
     sameButCorrect (st c1) (st c2) -> out c1 = out c2 ->
     out (ctx_of (startQuestion now imageData c1))
     = out (ctx_of (startQuestion now imageData c2)))
  /\ (forall c i ids,
        out (ctx_of (startQuestion now imageData (mutate (withCorrect i ids) c)))
        = out (ctx_of (startQuestion now imageData c))).
Proof.
  assert (Hgen : forall c1 c2,
            sameButCorrect (st c1) (st c2) -> out c1 = out c2 ->
            out (ctx_of (startQuestion now imageData c1))
            = out (ctx_of (startQuestion now imageData c2))).
  { intros c1 c2 Hsame Hout. rewrite !startQuestion_out, Hout.
    f_equal. now apply startEffects_hidden. }
  split; [exact Hgen|].
  intros c i ids. symmetry. apply Hgen; [apply withCorrect_same | reflexivity].
Qed.

Lemma C8_question_show_hides_correct_witness :
  out (ctx_of (startQuestion 12000 None (Sample.ctxOf Sample.room6)))
  = out (ctx_of (startQuestion 12000 None
                   (mutate (withCorrect 1 ["b"]) (Sample.ctxOf Sample.room6))))
  /\ exists sq, out (ctx_of (startQuestion 12000 None
                               (Sample.ctxOf Sample.room6)))
                = [Broadcast (question_show sq)].
Proof.
  split.
  - apply (proj1 (C8_question_show_hides_correct 12000 None)
             (Sample.ctxOf Sample.room6)
             (mutate (withCorrect 1 ["b"]) (Sample.ctxOf Sample.room6))).
    + vm_compute. repeat split.
    + reflexivity.
  - eexists. reflexivity.
Defined.

(** startQuestion when a next question exists. *)
Lemma startQuestion_next now imageData c q :
  Js.at_index (questions (st c)) (currentIndex (st c) + 1) = Some q ->
  exists c', startQuestion now imageData c = Done c'
    /\ currentIndex (st c') = currentIndex (st c) + 1
    /\ round (st c')
       = Some (mkRound now (now + timeLimitSeconds q * 1000)
                 (Obj.keys (players (st c))) None)
    /\ players (st c') = Obj.each resetRoundFields (players (st c))
    /\ started (st c') = started (st c)
    /\ paused (st c') = false
    /\ alarmAt c' = Some (now + timeLimitSeconds q * 1000)
    /\ gs c' = Some (st c')
    /\ out c'
       = (out c
          ++ [Broadcast
                (question_show
                   (mkSafeQ (q_id q) (currentIndex (st c) + 1)
                      (Js.len (questions (st c))) (text q) (imageUrl q)
                      imageData (timeLimitSeconds q) (options q)))])%list.
Proof.
  intros Hq. pose proof (at_index_Some _ _ _ Hq) as Hrange.
  destruct c as [[gid ttl qs ps dps stt psd ci rd ht hs] g a o pr].
  unfold startQuestion, broadcast, emit, saveState, setAlarm, mutate.
  simpl in *.
  destruct (Js.len qs <=? ci + 1) eqn:Hover; [lia|].
  rewrite Hq. eexists. split; [reflexivity|]. simpl.
  rewrite keys_each. repeat split.
Qed.



(* ------------------------------------------------------------------ *)
(** ** The awaiting set along the life of a round *)












Lemma onPlayerReact_state wsTag emoji c :
  st (onPlayerReact wsTag emoji c) = st c.
Proof.
  unfold onPlayerReact, toHost, toTag, emit.
  repeat match goal with
         | |- context [match ?x with _ => _ end] => destruct x; simpl
         end; reflexivity.
Qed.












(* ------------------------------------------------------------------ *)
(** ** sanitizeName *)

Lemma allChars_impl (f g : ascii -> bool) (s : string) :
  (forall c, f c = true -> g c = true) ->
  allChars f s = true -> allChars g s = true.
Proof.
  intros Hfg. induction s as [|c r IH]; simpl; [reflexivity|].
  rewrite !andb_true_iff. intros [Hc Hr]. auto.
Qed.

Lemma allChars_filterChars (f : ascii -> bool) (s : string) :
  allChars f (filterChars f s) = true.
Proof.
  induction s as [|c r IH]; simpl; [reflexivity|].
  destruct (f c) eqn:Hc; simpl; [rewrite Hc|]; exact IH.
Qed.

Lemma filterChars_id (f : ascii -> bool) (s : string) :
  allChars f s = true -> filterChars f s = s.
Proof.
  induction s as [|c r IH]; simpl; [reflexivity|].
  rewrite andb_true_iff. intros [Hc Hr]. rewrite Hc, (IH Hr). reflexivity.
Qed.

Lemma sliceTo_length (n : nat) (s : string) :
  (String.length (sliceTo n s) <= n)%nat.
Proof.
  revert s. induction n as [|n IH]; intros [|c r]; simpl; try lia.
  specialize (IH r). lia.
Qed.

Lemma sliceTo_allChars (f : ascii -> bool) (n : nat) (s : string) :
  allChars f s = true -> allChars f (sliceTo n s) = true.
Proof.
  revert s. induction n as [|n IH]; intros [|c r]; simpl; try reflexivity.
  rewrite !andb_true_iff. intros [Hc Hr]. auto.
Qed.

Lemma sliceTo_id (n : nat) (s : string) :
  (String.length s <= n)%nat -> sliceTo n s = s.
Proof.
  revert s. induction n as [|n IH]; intros [|c r]; simpl; try reflexivity;
    try lia.
  intros H. rewrite IH by lia. reflexivity.
Qed.

Lemma trimStart_length (s : string) :
  (String.length (trimStart s) <= String.length s)%nat.
Proof.
  induction s as [|c r IH]; simpl; [lia|].
  destruct (is_space c); simpl; lia.
Qed.

Lemma trimStart_allChars (f : ascii -> bool) (s : string) :
  allChars f s = true -> allChars f (trimStart s) = true.
Proof.
  induction s as [|c r IH]; simpl; [reflexivity|].
  rewrite andb_true_iff. intros [Hc Hr].
  destruct (is_space c); simpl; [auto | now rewrite Hc, Hr].
Qed.

Lemma trimStart_first (s : string) (c : ascii) :
  firstChar (trimStart s) = Some c -> is_space c = false.
Proof.
  induction s as [|c' r IH]; simpl; [discriminate|].
  destruct (is_space c') eqn:Hc; [exact IH|].
  simpl. intros [= <-]. exact Hc.
Qed.

Lemma trimStart_id (s : string) :
  (forall c, firstChar s = Some c -> is_space c = false) -> trimStart s = s.
Proof.
  destruct s as [|c r]; simpl; [reflexivity|].
  intros H. now rewrite (H c eq_refl).
Qed.

Lemma trimEnd_length (s : string) :
  (String.length (trimEnd s) <= String.length s)%nat.
Proof.
  induction s as [|c r IH]; simpl; [lia|].
  destruct (trimEnd r); [destruct (is_space c)|]; simpl in *; lia.
Qed.

Lemma trimEnd_allChars (f : ascii -> bool) (s : string) :
  allChars f s = true -> allChars f (trimEnd s) = true.
Proof.
  induction s as [|c r IH]; simpl; [reflexivity|].
  rewrite andb_true_iff. intros [Hc Hr]. specialize (IH Hr).
  destruct (trimEnd r); [destruct (is_space c)|]; simpl in *;
    rewrite ?Hc; auto.
Qed.

Lemma trimEnd_last (s : string) (c : ascii) :
  lastChar (trimEnd s) = Some c -> is_space c = false.
Proof.
  induction s as [|c' r IH]; simpl; [discriminate|].
  destruct (trimEnd r) as [|c2 r2] eqn:Hr.
  - destruct (is_space c') eqn:Hc; simpl; [discriminate|].
    intros [= <-]. exact Hc.
  - exact IH.
Qed.

Lemma trimEnd_first (s : string) (c : ascii) :
  (forall c', firstChar s = Some c' -> is_space c' = false) ->
  firstChar (trimEnd s) = Some c -> is_space c = false.
Proof.
  destruct s as [|c' r]; simpl; [discriminate|].
  intros H. specialize (H c' eq_refl).
  destruct (trimEnd r); [rewrite H|]; simpl; intros [= <-]; exact H.
Qed.

Lemma trimEnd_id (s : string) :
  (forall c, lastChar s = Some c -> is_space c = false) -> trimEnd s = s.
Proof.
  induction s as [|c r IH]; [reflexivity|].
  intros H. cbn [trimEnd]. destruct r as [|c2 r2].
  - simpl. now rewrite (H c eq_refl).
  - rewrite IH; [reflexivity|]. intros c0 Hc0. apply H. exact Hc0.
Qed.

Lemma stripTags_none_id (s : string) :
  allChars (fun c => negb (Ascii.eqb c "<")) s = true ->
  stripTags None s = s.
Proof.
  induction s as [|c r IH]; simpl; [reflexivity|].
  rewrite andb_true_iff. intros [Hc Hr].
  apply negb_true_iff in Hc. rewrite Hc, (IH Hr). reflexivity.
Qed.

Lemma sanitizeName_shape (raw : string) :
  (String.length (sanitizeName raw) <= 24)%nat
  /\ allChars is_safe (sanitizeName raw) = true
  /\ allChars (fun c => negb (Ascii.eqb c "<") && negb (Ascii.eqb c ">"))
       (sanitizeName raw) = true
  /\ (forall c, firstChar (sanitizeName raw) = Some c -> is_space c = false)
  /\ (forall c, lastChar (sanitizeName raw) = Some c -> is_space c = false).
Proof.
  unfold sanitizeName, trim.
  set (u := sliceTo 24 (filterChars is_safe (stripTags None raw))).
  assert (Hsafe : allChars is_safe (trimEnd (trimStart u)) = true).
  { apply trimEnd_allChars, trimStart_allChars, sliceTo_allChars,
      allChars_filterChars. }
  split; [|split; [exact Hsafe | split; [|split]]].
  - pose proof (trimEnd_length (trimStart u)).
    pose proof (trimStart_length u).
    pose proof (sliceTo_length 24 (filterChars is_safe (stripTags None raw))).
    fold u in H1. lia.
  - revert Hsafe. apply allChars_impl. intros c Hc.
    destruct (Ascii.eqb_spec c "<") as [->|_]; [discriminate Hc|].
    destruct (Ascii.eqb_spec c ">") as [->|_]; [discriminate Hc|].
    reflexivity.
  - intros c. apply trimEnd_first. intros c'. apply trimStart_first.
  - intros c. apply trimEnd_last.
Qed.

(** X1. A sanitized name has at most 24 characters, all of them from the
    class [[\w\s\-'.!]] (so neither ["<"] nor [">"]), and neither starts nor
    ends with white space. *)
Theorem X1_sanitizeName_shape (raw : string) :
  (String.length (sanitizeName raw) <= 24)%nat
  /\ allChars is_safe (sanitizeName raw) = true
  /\ allChars (fun c => negb (Ascii.eqb c "<") && negb (Ascii.eqb c ">"))
       (sanitizeName raw) = true
  /\ (forall c, firstChar (sanitizeName raw) = Some c -> is_space c = false)
  /\ (forall c, lastChar (sanitizeName raw) = Some c -> is_space c = false).
Proof. exact (sanitizeName_shape raw). Qed.

Lemma sanitizeName_idem (raw : string) :
  sanitizeName (sanitizeName raw) = sanitizeName raw.
Proof.
  destruct (sanitizeName_shape raw) as (Hlen & Hsafe & Hlt & Hf & Hl).
  set (n := sanitizeName raw) in *.
  unfold sanitizeName at 1.
  rewrite stripTags_none_id.
  - rewrite (filterChars_id _ _ Hsafe), (sliceTo_id _ _ Hlen).
    unfold trim. rewrite (trimStart_id _ Hf). apply trimEnd_id. exact Hl.
  - revert Hlt. apply allChars_impl. intros c Hc.
    apply andb_true_iff in Hc. tauto.
Qed.

(** X2. Sanitizing is idempotent: a sanitized name is left as it is. *)
Theorem X2_sanitizeName_idempotent (raw : string) :
  sanitizeName (sanitizeName raw) = sanitizeName raw.
Proof. exact (sanitizeName_idem raw). Qed.

(* ------------------------------------------------------------------ *)
(** ** shuffle and createGameState *)

Lemma insertByKey_perm {T : Type} (x : Z * T) (l : list (Z * T)) :
  Permutation (insertByKey x l) (x :: l).
Proof.
  induction l as [|y r IH]; simpl; [reflexivity|].
  destruct (fst y <? fst x); [|reflexivity].
  rewrite IH. apply perm_swap.
Qed.

Lemma sortByKey_perm {T : Type} (l : list (Z * T)) :
  Permutation (List.fold_right insertByKey [] l) l.
Proof.
  induction l as [|x r IH]; simpl; [reflexivity|].
  rewrite insertByKey_perm. now constructor.
Qed.

Lemma map_snd_combine {A B : Type} (la : list A) (lb : list B) :
  (List.length lb <= List.length la)%nat ->
  List.map snd (List.combine la lb) = lb.
Proof.
  revert lb. induction la as [|a la IH]; intros [|b lb]; simpl;
    try reflexivity; try lia.
  intros H. rewrite IH by lia. reflexivity.
Qed.

Lemma shuffle_perm {T : Type} (draws : list Z) (arr : list T) :
  (List.length arr <= List.length draws)%nat ->
  Permutation (shuffle draws arr) arr.
Proof.
  intros H. unfold shuffle. rewrite sortByKey_perm.
  now rewrite map_snd_combine.
Qed.

(** X3. shuffle returns a permutation of its argument: with a draw for every
    element, nothing is lost and nothing is duplicated. *)
Theorem X3_shuffle_is_permutation {T : Type} (draws : list Z) (arr : list T) :
  (List.length arr <= List.length draws)%nat ->
  Permutation (shuffle draws arr) arr
  /\ List.length (shuffle draws arr) = List.length arr.
Proof.
  intros H. pose proof (shuffle_perm draws arr H) as Hp.
  split; [exact Hp | now apply Permutation_length].
Qed.

Lemma X3_shuffle_is_permutation_witness :
  Permutation (shuffle [7; 2; 9; 2] ["a"; "b"; "c"; "d"]) ["a"; "b"; "c"; "d"]
  /\ shuffle [7; 2; 9; 2] ["a"; "b"; "c"; "d"] = ["b"; "d"; "a"; "c"].
Proof.
  split.
  - apply (X3_shuffle_is_permutation [7; 2; 9; 2] ["a"; "b"; "c"; "d"]).
    simpl. lia.
  - reflexivity.
Defined.

Lemma nth_error_combine_seq {A : Type} (l : list A) : forall a i,
  List.nth_error (List.combine (List.seq a (List.length l)) l) i
  = option_map (fun x => ((a + i)%nat, x)) (List.nth_error l i).
Proof.
  induction l as [|x l IH]; intros a i; simpl.
  - destruct i; reflexivity.
  - destruct i as [|i]; simpl.
    + now rewrite Nat.add_0_r.
    + rewrite IH. destruct (List.nth_error l i); simpl; [|reflexivity].
      do 2 f_equal. lia.
Qed.

Lemma map_snd_combine_seq {A : Type} (l : list A) (a : nat) :
  List.map snd (List.combine (List.seq a (List.length l)) l) = l.
Proof. apply map_snd_combine. now rewrite List.length_seq. Qed.

(** X4. createGameState keeps the quiz: the stored question ids are a
    permutation of the uploaded ones (the same list when shuffleQuestions
    is false); the question stored at position i has index i, a time limit
    between 5 and 90, and the text, the correct-answer identifiers and
    (up to order) the options of the uploaded question of the same id.  The
    state starts as an empty lobby holding the fresh host secret. *)
Theorem X4_createGameState_keeps_quiz (gameId : string)
    (payload : QuizPayload) (drawsQ : list Z) (drawsA : list (list Z))
    (uuid : string) :
  enoughDraws payload drawsQ drawsA ->
  let s := createGameState gameId payload drawsQ drawsA uuid in
  Permutation (List.map q_id (questions s))
    (List.map rq_id (p_questions payload))
  /\ (p_shuffleQuestions payload = Some false ->
      List.map q_id (questions s) = List.map rq_id (p_questions payload))
  /\ (forall i q,
        List.nth_error (questions s) i = Some q ->
        index q = Z.of_nat i
        /\ 5 <= timeLimitSeconds q <= 90
        /\ exists raw,
             In raw (p_questions payload)
             /\ q_id q = rq_id raw /\ text q = rq_text raw
             /\ correctOptionIds q = rq_correctOptionIds raw
             /\ Permutation (options q) (rq_options raw))
  /\ players s = [] /\ disconnectedPlayers s = ∅
  /\ started s = false /\ paused s = false /\ currentIndex s = -1
  /\ round s = None /\ hostTag s = None /\ hostSecret s = uuid.
Proof.
  intros [HdQ HdA] s. subst s. unfold createGameState.
  cbn [questions players disconnectedPlayers started paused currentIndex
       round hostTag hostSecret].
  set (ordered := if match p_shuffleQuestions payload with
                     | Some false => false | _ => true end
                  then shuffle drawsQ (p_questions payload)
                  else p_questions payload).
  assert (Hord : Permutation ordered (p_questions payload)).
  { subst ordered. destruct (p_shuffleQuestions payload) as [[|]|];
      try reflexivity; now apply shuffle_perm. }
  split; [|split; [|split; [|repeat split]]].
  - rewrite List.map_map. cbn [q_id].
    rewrite <- (List.map_map snd rq_id), map_snd_combine_seq.
    now apply Permutation_map.
  - intros Hno. rewrite List.map_map. cbn [q_id].
    rewrite <- (List.map_map snd rq_id), map_snd_combine_seq.
    subst ordered. now rewrite Hno.
  - intros i q Hq. rewrite List.nth_error_map, nth_error_combine_seq in Hq.
    destruct (List.nth_error ordered i) as [raw|] eqn:Hraw;
      [|discriminate Hq].
    simpl in Hq. injection Hq as <-. cbn [index timeLimitSeconds q_id text
      correctOptionIds options fst snd].
    split; [reflexivity|]. split; [unfold clampTimeLimit; lia|].
    assert (Hin : In raw (p_questions payload)).
    { eapply Permutation_in; [exact Hord|].
      eapply List.nth_error_In; exact Hraw. }
    exists raw. repeat split; auto.
    destruct (p_shuffleAnswers payload) as [[|]|]; try reflexivity;
      apply shuffle_perm, HdA; auto;
      rewrite <- (Permutation_length Hord);
      apply List.nth_error_Some; congruence.
Qed.

Lemma X4_createGameState_keeps_quiz_witness :
  let s := createGameState "ABC234"
             (mkPayload (Some "Sums") None None None
                (p_questions Sample.quiz))
             [5; 3] [[1; 2]; [2; 1]] "secret" in
  Permutation (List.map q_id (questions s)) ["q1"; "q2"]
  /\ List.map q_id (questions s) = ["q2"; "q1"]
  /\ hostSecret s = "secret".
Proof.
  intros s.
  destruct (X4_createGameState_keeps_quiz "ABC234"
              (mkPayload (Some "Sums") None None None
                 (p_questions Sample.quiz))
              [5; 3] [[1; 2]; [2; 1]] "secret")
    as (Hperm & _ & _ & _ & _ & _ & _ & _ & _ & _ & Hsec).
  { split; [simpl; lia|]. intros idx raw Hidx Hin.
    destruct idx as [|[|idx]]; simpl in Hidx; try lia;
      simpl in Hin; destruct Hin as [<-|[<-|[]]]; simpl; lia. }
  split; [exact Hperm|]. split; [reflexivity | exact Hsec].
Defined.

(* ------------------------------------------------------------------ *)
(** ** getLeaderboard *)

Lemma insertEntry_perm x l : Permutation (insertEntry x l) (x :: l).
Proof.
  induction l as [|y r IH]; simpl; [reflexivity|].
  destruct (lb_score x <? lb_score y); [|reflexivity].
  rewrite IH. apply perm_swap.
Qed.

Lemma insertEntry_sorted x l :
  Sorted (fun a b => lb_score b <= lb_score a) l ->
  Sorted (fun a b => lb_score b <= lb_score a) (insertEntry x l).
Proof.
  induction l as [|y r IH]; simpl; intros Hs.
  - repeat constructor.
  - destruct (lb_score x <? lb_score y) eqn:Hlt.
    + apply Sorted_inv in Hs. destruct Hs as [Hr Hhd].
      constructor; [now apply IH|].
      destruct r as [|z r]; simpl.
      * constructor. lia.
      * destruct (lb_score x <? lb_score z); constructor;
          [now inversion Hhd | lia].
    + constructor; [exact Hs|]. constructor. lia.
Qed.

Lemma insertEntry_filter k x l :
  List.filter (fun e => lb_score e =? k) (insertEntry x l)
  = List.filter (fun e => lb_score e =? k) (x :: l).
Proof.
  induction l as [|y r IH]; [reflexivity|].
  cbn [insertEntry]. destruct (lb_score x <? lb_score y) eqn:Hlt;
    [|reflexivity].
  cbn [List.filter] in *. rewrite IH.
  destruct (lb_score x =? k) eqn:Hx, (lb_score y =? k) eqn:Hy;
    try reflexivity.
  lia.
Qed.

(** X5. The leaderboard has exactly one entry per connected player, is in
    order of non-increasing score, and keeps players of equal score in
    the order in which they are stored (the sort is stable). *)
Theorem X5_getLeaderboard_sorted (s : GameState) :
  Permutation (getLeaderboard s)
    (List.map entryOf (Obj.values (players s)))
  /\ StronglySorted (fun a b => lb_score b <= lb_score a) (getLeaderboard s)
  /\ forall k,
       List.filter (fun e => lb_score e =? k) (getLeaderboard s)
       = List.filter (fun e => lb_score e =? k)
           (List.map entryOf (Obj.values (players s))).
Proof.
  unfold getLeaderboard. fold entryOf.
  generalize (List.map entryOf (Obj.values (players s))). intros l.
  split; [|split].
  - induction l as [|x l IH]; simpl; [reflexivity|].
    rewrite insertEntry_perm. now constructor.
  - apply Sorted_StronglySorted.
    + intros a b c Hab Hbc. lia.
    + induction l as [|x l IH]; simpl; [constructor|].
      now apply insertEntry_sorted.
  - intros k. induction l as [|x l IH]; [reflexivity|].
    cbn [List.fold_right]. rewrite insertEntry_filter.
    cbn [List.filter]. now rewrite IH.
Qed.

(* ------------------------------------------------------------------ *)
(** ** fetch *)

(** X6. After init the reply carries the stored question order and the
    stored host secret; the room answers the status check as open, with
    its title; and the host upgrade with the returned secret is accepted
    and binds the host tag in the saved state. *)
Theorem X6_init_then_status_and_upgrade (gameId : string)
    (payload : QuizPayload) (drawsQ : list Z) (drawsA : list (list Z))
    (uuid uuid' : string) (d : DO) :
  let d1 := fst (fetchInit gameId payload drawsQ drawsA uuid d) in
  let reply := snd (fetchInit gameId payload drawsQ drawsA uuid d) in
  exists s,
    stateOf d1 = Some s /\ storage_gs d1 = Some s
    /\ fst reply = List.map q_id (questions s)
    /\ snd reply = hostSecret s
    /\ snd (fetchStatus d1) = room_open (title s)
    /\ snd (fetchUpgrade "host" (Some (snd reply)) uuid' d1)
       = upgrade_101 "host"
    /\ stateOf (fst (fetchUpgrade "host" (Some (snd reply)) uuid' d1))
       = Some (set_hostTag (Some "host") s)
    /\ storage_gs (fst (fetchUpgrade "host" (Some (snd reply)) uuid' d1))
       = Some (set_hostTag (Some "host") s).
Proof.
  intros d1 reply. subst d1 reply. unfold fetchInit. cbn [fst snd].
  eexists. split; [reflexivity|]. split; [reflexivity|].
  split; [reflexivity|]. split; [reflexivity|].
  split; [reflexivity|].
  unfold fetchUpgrade, getState, stateOf.
  cbn [String.eqb Ascii.eqb Bool.eqb _state storage_gs storage_alarm
       _wsRateMap].
  cbn [createGameState hostSecret].
  rewrite bool_decide_eq_true_2 by reflexivity.
  rewrite andb_false_r. repeat split.
Qed.

(** X7. The host upgrade is refused with 404 when there is no room and with
    403 when the room has a secret and the offered one differs; a refusal
    changes neither the state nor the storage.  It is accepted with the
    stored secret, and with any secret when the room has none; the host
    tag is then bound and saved.  Any other role is accepted without a
    look at the state and gets the tag [role-xxxxxxxx]. *)
Theorem X7_upgrade_authorization (secret : option string) (uuid : string)
    (d : DO) :
  (stateOf d = None ->
   fetchUpgrade "host" secret uuid d = (fst (getState d), upgrade_404))
  /\ (forall s,
        stateOf d = Some s -> hostSecret s <> "" ->
        secret <> Some (hostSecret s) ->
        snd (fetchUpgrade "host" secret uuid d) = upgrade_403
        /\ stateOf (fst (fetchUpgrade "host" secret uuid d)) = Some s
        /\ storage_gs (fst (fetchUpgrade "host" secret uuid d))
           = storage_gs d)
  /\ (forall s,
        stateOf d = Some s ->
        hostSecret s = "" \/ secret = Some (hostSecret s) ->
        snd (fetchUpgrade "host" secret uuid d) = upgrade_101 "host"
        /\ stateOf (fst (fetchUpgrade "host" secret uuid d))
           = Some (set_hostTag (Some "host") s)
        /\ storage_gs (fst (fetchUpgrade "host" secret uuid d))
           = Some (set_hostTag (Some "host") s))
  /\ (forall role,
        role <> "host" ->
        fetchUpgrade role secret uuid d
        = (d, upgrade_101 (String.append role
                             (String.append "-" (sliceTo 8 uuid))))).
Proof.
  split; [|split; [|split]].
  - intros Hs. unfold fetchUpgrade, getState. simpl. now rewrite Hs.
  - intros s Hs Hne Hsec. unfold fetchUpgrade, getState. simpl. rewrite Hs.
    apply truthy_true in Hne. rewrite Hne.
    rewrite bool_decide_eq_false_2 by exact Hsec. simpl. auto.
  - intros s Hs Hok. unfold fetchUpgrade, getState. simpl. rewrite Hs.
    assert (Hg : Js.truthy (hostSecret s)
                 && negb (bool_decide (secret = Some (hostSecret s)))
                 = false).
    { destruct Hok as [He | He].
      - rewrite He. reflexivity.
      - rewrite bool_decide_eq_true_2 by exact He. apply andb_false_r. }
    rewrite Hg. simpl. auto.
  - intros role Hrole. unfold fetchUpgrade.
    destruct (String.eqb_spec role "host"); [contradiction | reflexivity].
Qed.

Lemma X7_upgrade_authorization_witness :
  snd (fetchUpgrade "host" (Some "guess") "" Sample.room0) = upgrade_403
  /\ snd (fetchUpgrade "host" (Some "secret") "" Sample.room0)
     = upgrade_101 "host"
  /\ snd (fetchUpgrade "host" None "" (mkDO None ∅ None None None)) = upgrade_404
  /\ snd (fetchUpgrade "player" None "0123456789abcdef" Sample.room0)
     = upgrade_101 "player-01234567".
Proof.
  destruct (X7_upgrade_authorization (Some "guess") "" Sample.room0)
    as (_ & Hbad & _).
  destruct (X7_upgrade_authorization (Some "secret") "" Sample.room0)
    as (_ & _ & Hgood & _).
  destruct (X7_upgrade_authorization None "" (mkDO None ∅ None None None))
    as (Hnone & _).
  destruct (X7_upgrade_authorization None "0123456789abcdef" Sample.room0)
    as (_ & _ & _ & Hplayer).
  split; [|split; [|split]].
  - apply (Hbad _ eq_refl); discriminate.
  - apply (Hgood _ eq_refl). right. reflexivity.
  - rewrite (Hnone eq_refl). reflexivity.
  - rewrite (Hplayer "player"); [reflexivity | discriminate].
Defined.

(* ------------------------------------------------------------------ *)
(** ** The rate limiter of webSocketMessage *)

Lemma dropOld_sorted (now : Z) (l : list Z) :
  Sorted Z.le l -> dropOld now l = List.filter (recentHit now) l.
Proof.
  intros Hs. apply Sorted_StronglySorted in Hs;
    [|intros a b c; apply Z.le_trans].
  induction Hs as [|h r Hr IH Hall]; [reflexivity|].
  cbn [dropOld List.filter]. unfold recentHit at 1.
  destruct (h <? now - 10000) eqn:Hold.
  - destruct (now - 10000 <=? h) eqn:Hrec; [lia | exact IH].
  - destruct (now - 10000 <=? h) eqn:Hrec; [|lia].
    f_equal. symmetry. apply List.forallb_filter_id.
    apply List.forallb_forall. intros x Hx.
    rewrite List.Forall_forall in Hall. specialize (Hall x Hx).
    unfold recentHit. lia.
Qed.

(** X8. With the hits of a socket recorded in time order, the hits kept by
    the limiter are exactly those of the last 10 s, followed by the new
    one, and they are again in time order when the clock has not gone
    back.  A message that arrives when 30 hits of the last 10 s are on
    record is dropped whatever its type: nothing is sent, and the cached
    state, the stored snapshot and the alarm are left as they are. *)
Theorem X8_rate_limit_window (wsTag : string) (now : Z)
    (message : option Message) (uuid : string) (d : DO) :
  let hits := default [] (_wsRateMap d !! wsTag) in
  Sorted Z.le hits ->
  hitsAfter wsTag now d = (List.filter (recentHit now) hits ++ [now])%list
  /\ (List.Forall (fun h => h <= now) hits ->
      Sorted Z.le (hitsAfter wsTag now d))
  /\ (30 <= Js.len (List.filter (recentHit now) hits) ->
      exists d',
        webSocketMessage wsTag now message uuid d = Returned d' []
        /\ _state d' = _state d
        /\ storage_gs d' = storage_gs d
        /\ storage_alarm d' = storage_alarm d
        /\ _wsRateMap d' !! wsTag = Some (hitsAfter wsTag now d)).
Proof.
  intros hits Hs. subst hits.
  assert (Hh : hitsAfter wsTag now d
               = (List.filter (recentHit now)
                    (default [] (_wsRateMap d !! wsTag)) ++ [now])%list).
  { unfold hitsAfter. now rewrite dropOld_sorted. }
  split; [exact Hh | split].
  - intros Hle. rewrite Hh.
    generalize dependent (default [] (_wsRateMap d !! wsTag)).
    intros l Hs _ Hle. induction l as [|h r IH]; simpl.
    + repeat constructor.
    + apply Sorted_inv in Hs. destruct Hs as [Hr Hhd].
      apply List.Forall_cons_iff in Hle. destruct Hle as [Hh Hle].
      specialize (IH Hr Hle).
      destruct (recentHit now h); [|exact IH].
      simpl. constructor; [exact IH|].
      assert (Hall : List.Forall (Z.le h) r).
      { apply Sorted_extends; [intros a b c; apply Z.le_trans|].
        now constructor. }
      destruct (List.filter (recentHit now) r) as [|x xs] eqn:Hf; simpl.
      * constructor. exact Hh.
      * constructor. rewrite List.Forall_forall in Hall. apply Hall.
        assert (Hin : In x (List.filter (recentHit now) r))
          by (rewrite Hf; now left).
        apply List.filter_In in Hin. tauto.
  - intros Hfull. unfold webSocketMessage. fold (hitsAfter wsTag now d).
    assert (Hlim : (30 <? Js.len (hitsAfter wsTag now d)) = true).
    { apply Z.ltb_lt. rewrite Hh. unfold Js.len in *.
      rewrite List.length_app. simpl. lia. }
    rewrite Hlim. eexists. split; [reflexivity|]. simpl.
    repeat split. apply lookup_insert_eq.
Qed.

Lemma X8_rate_limit_window_witness :
  let d := mkDO (_state Sample.room5)
             {[ "player-bob" := List.repeat 6000 30 ]}
             (storage_gs Sample.room5) (storage_alarm Sample.room5) None in
  exists d',
    webSocketMessage "player-bob" 7000
      (Sample.say (player_answer (Some "q1") (Some "a"))) "" d
    = Returned d' []
    /\ _state d' = _state d /\ storage_gs d' = storage_gs d.
Proof.
  intros d.
  pose proof (X8_rate_limit_window "player-bob" 7000
                (Sample.say (player_answer (Some "q1") (Some "a"))) "" d)
    as H.
  cbv zeta in H.
  assert (Hl : default [] (_wsRateMap d !! "player-bob")
               = List.repeat 6000 30) by (vm_compute; reflexivity).
  rewrite Hl in H.
  destruct H as (_ & _ & Hdrop).
  - simpl. repeat (constructor; try lia).
  - destruct Hdrop as (d' & E & Hs & Hg & _).
    + vm_compute. discriminate.
    + exists d'. auto.
Defined.

(* ------------------------------------------------------------------ *)
(** ** Host actions *)

(** X9. Host authority: a host:startGame, host:pause, host:resume,
    host:next or host:kickPlayer sent from any tag other than "host" does
    nothing; as a message it leaves the state, the stored snapshot and the
    alarm as they are and sends nothing. *)
Theorem X9_host_actions_need_host_tag (wsTag : string) (now : Z)
    (msg : Message) (uuid : string) :
  wsTag <> "host" ->
  (exists img, body msg = host_startGame img) \/ body msg = host_pause
  \/ body msg = host_resume \/ (exists img, body msg = host_next img)
  \/ (exists n, body msg = host_kickPlayer n) ->
  (forall c, dispatch wsTag now msg uuid c = Done c)
  /\ (forall d s,
        stateOf d = Some s ->
        exists d',
          webSocketMessage wsTag now (Some msg) uuid d = Returned d' []
          /\ stateOf d' = Some s
          /\ storage_gs d' = storage_gs d
          /\ storage_alarm d' = storage_alarm d).
Proof.
  intros Hne Hmsg.
  assert (Hneb : String.eqb wsTag "host" = false)
    by (now apply String.eqb_neq).
  assert (Hd : forall c, dispatch wsTag now msg uuid c = Done c).
  { intros c. unfold dispatch.
    destruct Hmsg as [(img & ->) | [-> | [-> | [(img & ->) | (n & ->)]]]].
    - unfold onHostStart. now rewrite Hneb.
    - unfold onHostPause. rewrite Hneb. simpl.
      now destruct (round (st c)).
    - unfold onHostResume. rewrite Hneb. simpl.
      now destruct (round (st c)).
    - unfold onHostNext. now rewrite Hneb.
    - unfold onHostKickPlayer. now rewrite Hneb. }
  split; [exact Hd|].
  intros d s Hs. unfold webSocketMessage. fold (hitsAfter wsTag now d).
  destruct (30 <? Js.len (hitsAfter wsTag now d)).
  - eexists. split; [reflexivity|]. unfold stateOf in *. simpl. auto.
  - unfold getState, enter, stateOf in *.
    cbn [_state _wsRateMap storage_gs storage_alarm _proto]. rewrite Hs.
    rewrite Hd. eexists. split; [reflexivity|]. simpl. auto.
Qed.

Lemma X9_host_actions_need_host_tag_witness :
  dispatch "player-ann" 7000 (mkMessage (host_next None) None) ""
    (Sample.ctxOf Sample.room5)
  = Done (Sample.ctxOf Sample.room5).
Proof.
  apply (X9_host_actions_need_host_tag "player-ann" 7000
           (mkMessage (host_next None) None) "").
  - discriminate.
  - right. right. right. left. exists None. reflexivity.
Defined.

Lemma onHostPause_host now c r :
  round (st c) = Some r -> paused (st c) = false ->
  onHostPause "host" now c
  = mkCtx (set_round (Some (set_msRemaining
                              (Some (Z.max 0 (endMs r - now))) r))
             (set_paused true (st c)))
      (Some (set_round (Some (set_msRemaining
                                (Some (Z.max 0 (endMs r - now))) r))
               (set_paused true (st c))))
      None
      (out c ++ [Broadcast (game_paused (Z.max 0 (endMs r - now)))])%list
      (proto c).
Proof.
  intros Hr Hp. unfold onHostPause. rewrite Hr, Hp. reflexivity.
Qed.

Lemma onHostResume_host now c r :
  round (st c) = Some r -> paused (st c) = true ->
  onHostResume "host" now c
  = mkCtx (set_round (Some (set_msRemaining None
                              (set_endMs
                                 (now + default 5000 (msRemaining r)) r)))
             (set_paused false (st c)))
      (Some (set_round (Some (set_msRemaining None
                                (set_endMs
                                   (now + default 5000 (msRemaining r)) r)))
               (set_paused false (st c))))
      (Some (now + default 5000 (msRemaining r)))
      (out c ++ [Broadcast (game_resumed (default 5000 (msRemaining r)))])%list
      (proto c).
Proof.
  intros Hr Hp. unfold onHostResume. rewrite Hr, Hp. reflexivity.
Qed.

(** X10. A pause followed by a resume gives back the round with its end
    moved: the time that was left at the pause is left again at the
    resume.  Nothing else in the state changes, the alarm is cancelled by
    the pause and set to the new end by the resume, the state is saved, and
    the two broadcasts carry the remaining time. *)
Theorem X10_pause_then_resume (now1 now2 : Z) (c : Ctx) (r : RoundState) :
  round (st c) = Some r -> paused (st c) = false -> msRemaining r = None ->
  let left := Z.max 0 (endMs r - now1) in
  let c1 := onHostPause "host" now1 c in
  let c2 := onHostResume "host" now2 c1 in
  paused (st c1) = true /\ alarmAt c1 = None /\ gs c1 = Some (st c1)
  /\ round (st c1) = Some (set_msRemaining (Some left) r)
  /\ st c2 = set_round (Some (set_endMs (now2 + left) r)) (st c)
  /\ alarmAt c2 = Some (now2 + left)
  /\ gs c2 = Some (st c2)
  /\ out c2 = (out c ++ [Broadcast (game_paused left);
                         Broadcast (game_resumed left)])%list.
Proof.
  intros Hr Hp Hm left c1 c2. subst c2 c1.
  rewrite (onHostPause_host now1 c r Hr Hp). fold left.
  match goal with
  | |- context [onHostResume "host" now2 ?x] =>
      rewrite (onHostResume_host now2 x (set_msRemaining (Some left) r)
                 eq_refl eq_refl)
  end.
  cbn [st gs alarmAt out paused round msRemaining set_msRemaining
       set_round set_paused default from_option id].
  assert (Hst : set_round
                  (Some (set_msRemaining None
                           (set_endMs (now2 + left)
                              (set_msRemaining (Some left) r))))
                  (set_paused false
                     (set_round (Some (set_msRemaining (Some left) r))
                        (set_paused true (st c))))
                = set_round (Some (set_endMs (now2 + left) r)) (st c)).
  { destruct (st c) as [gid ttl qs ps dps stt psd ci rd ht hs].
    destruct r as [sm em aw mr]. simpl in *. now subst psd mr. }
  rewrite Hst. repeat split. now rewrite <- List.app_assoc.
Qed.

Lemma X10_pause_then_resume_witness :
  let c2 := onHostResume "host" 50000
              (onHostPause "host" 7000 (Sample.ctxOf Sample.room5)) in
  round (st c2) = Some (mkRound 1000 64000 ["player-bob"] None)
  /\ alarmAt c2 = Some 64000.
Proof.
  intros c2.
  destruct (X10_pause_then_resume 7000 50000 (Sample.ctxOf Sample.room5)
              (mkRound 1000 21000 ["player-bob"] None)
              eq_refl eq_refl eq_refl) as (_ & _ & _ & _ & Hst & Hal & _).
  fold c2 in Hst, Hal. rewrite Hst, Hal. split; reflexivity.
Defined.

Lemma NoDup_map_In_eq {A B : Type} (f : A -> B) (l : list A) (x y : A) :
  List.NoDup (List.map f l) -> In x l -> In y l -> f x = f y -> x = y.
Proof.
  induction l as [|a l IH]; simpl; [tauto|].
  intros Hnd Hx Hy E. apply List.NoDup_cons_iff in Hnd. destruct Hnd as [Ha Hnd].
  destruct Hx as [->|Hx], Hy as [->|Hy]; auto.
  - exfalso. apply Ha. rewrite E. now apply List.in_map.
  - exfalso. apply Ha. rewrite <- E. now apply List.in_map.
Qed.

Lemma In_del {V : Type} (o : Obj.t V) (k t : string) (v : V) :
  In (t, v) (Obj.del o k) <-> In (t, v) o /\ t <> k.
Proof.
  unfold Obj.del. rewrite List.filter_In. simpl.
  rewrite negb_true_iff, String.eqb_neq. tauto.
Qed.

Lemma In_values {V : Type} (o : Obj.t V) (v : V) :
  In v (Obj.values o) <-> exists t, In (t, v) o.
Proof.
  unfold Obj.values. rewrite List.in_map_iff. split.
  - intros ([t v'] & <- & H). now exists t.
  - intros (t & H). now exists (t, v).
Qed.

(** X11. host:kickPlayer does nothing once the game has started, or when
    no player has the given name.  Before the start it removes the first
    player of that name: that player is told, the socket is closed, the
    entry is deleted and the others are kept, the state is saved and the
    new roster is broadcast; names being unique, nobody of that name is
    left. *)
Theorem X11_kick_player (n : string) (c : Ctx) :
  (started (st c) = true -> onHostKickPlayer "host" (Some n) c = c)
  /\ ((forall p, In p (Obj.values (players (st c))) -> name p <> n) ->
      onHostKickPlayer "host" (Some n) c = c)
  /\ (started (st c) = false -> n <> "" ->
      (exists p, In p (Obj.values (players (st c))) /\ name p = n) ->
      exists t p,
        In (t, p) (players (st c)) /\ name p = n
        /\ players (st (onHostKickPlayer "host" (Some n) c))
           = Obj.del (players (st c)) t
        /\ Obj.get (players (st (onHostKickPlayer "host" (Some n) c))) t
           = None
        /\ (forall t', t <> t' ->
              Obj.get (players (st (onHostKickPlayer "host" (Some n) c))) t'
              = Obj.get (players (st c)) t')
        /\ gs (onHostKickPlayer "host" (Some n) c)
           = Some (st (onHostKickPlayer "host" (Some n) c))
        /\ out (onHostKickPlayer "host" (Some n) c)
           = (out c
              ++ [ToTag t player_kicked; CloseTag t 1000;
                  Broadcast
                    (lobby_update
                       (List.map name
                          (Obj.values (Obj.del (players (st c)) t)))
                       (g_id (st c)) (title (st c)))])%list
        /\ (List.NoDup (List.map name (Obj.values (players (st c)))) ->
            forall q,
              In q (Obj.values
                      (players (st (onHostKickPlayer "host" (Some n) c)))) ->
              name q <> n)).
Proof.
  split; [|split].
  - intros Hs. unfold onHostKickPlayer. rewrite Hs.
    now rewrite orb_true_r.
  - intros Hnone. unfold onHostKickPlayer.
    destruct (negb (String.eqb "host" "host") || started (st c));
      [reflexivity|].
    destruct (Js.truthy n); [|reflexivity]. simpl.
    destruct (List.find _ (players (st c))) as [[t p]|] eqn:Hf;
      [|reflexivity].
    apply List.find_some in Hf. destruct Hf as [Hin E]. simpl in E.
    apply String.eqb_eq in E. exfalso.
    apply (Hnone p); [|exact E]. apply In_values. now exists t.
  - intros Hs Hn (p0 & Hin0 & Hname0).
    unfold onHostKickPlayer. rewrite Hs.
    apply truthy_true in Hn. rewrite Hn. simpl.
    destruct (List.find (fun kv => String.eqb (name (snd kv)) n)
                (players (st c))) as [[t p]|] eqn:Hf.
    + pose proof (List.find_some _ _ Hf) as [Hin E]. simpl in E.
      apply String.eqb_eq in E.
      exists t, p.
      unfold broadcastLobby, broadcast, toTag, emit, saveState, mutate.
      cbn [st gs out players set_players g_id title].
      split; [exact Hin|]. split; [exact E|]. split; [reflexivity|].
      split; [apply get_del_eq|]. split; [intros t' Ht'; now apply get_del_ne|].
      split; [reflexivity|]. split.
      * rewrite <- !List.app_assoc. reflexivity.
      * intros Hnd q Hq Hqn. apply In_values in Hq. destruct Hq as (t' & Hq).
        apply In_del in Hq. destruct Hq as [Hq Hne]. apply Hne.
        assert (Heq : (t', q) = (t, p)).
        { apply (NoDup_map_In_eq (fun kv => name (snd kv)) (players (st c)));
            auto.
          - unfold Obj.values in Hnd. now rewrite List.map_map in Hnd.
          - simpl. congruence. }
        congruence.
    + exfalso. apply In_values in Hin0. destruct Hin0 as (t0 & Hin0).
      pose proof (List.find_none _ _ Hf _ Hin0) as E. simpl in E.
      apply String.eqb_neq in E. contradiction.
Qed.

Lemma X11_kick_player_witness :
  let c' := onHostKickPlayer "host" (Some "bob") (Sample.ctxOf Sample.room3) in
  Obj.keys (players (st c')) = ["player-ann"]
  /\ exists t, Obj.get (players (st c')) t = None
               /\ In (CloseTag t 1000) (out c').
Proof.
  intros c'.
  destruct (X11_kick_player "bob" (Sample.ctxOf Sample.room3))
    as (_ & _ & Hkick).
  destruct Hkick as (t & p & Hin & Hn & Hp & Hg & _ & _ & Hout & _).
  - reflexivity.
  - discriminate.
  - exists (mkPlayer "bob" 0 None None false 0 0 "tok-bob").
    split; [simpl; auto | reflexivity].
  - split; [reflexivity|]. exists t. split; [exact Hg|].
    fold c' in Hout. rewrite Hout. rewrite List.in_app_iff. right.
    simpl. auto.
Defined.

(* ------------------------------------------------------------------ *)
(** ** Invariants of the room *)

Section ObjMore.
Context {V : Type}.
Implicit Types (o : Obj.t V) (k : string) (v : V).

Lemma keys_set_existing o k v p :
  Obj.get o k = Some p -> Obj.keys (Obj.set o k v) = Obj.keys o.
Proof.
  induction o as [|[k' v'] o IH]; simpl; [discriminate|].
  destruct (String.eqb k' k); simpl; [reflexivity|].
  intros H. now rewrite IH.
Qed.

Lemma keys_set_new o k v :
  Obj.get o k = None -> Obj.keys (Obj.set o k v) = (Obj.keys o ++ [k])%list.
Proof.
  induction o as [|[k' v'] o IH]; simpl; [reflexivity|].
  destruct (String.eqb k' k); simpl; [discriminate|].
  intros H. now rewrite IH.
Qed.

Lemma get_None_key o k : Obj.get o k = None -> ~ In k (Obj.keys o).
Proof.
  induction o as [|[k' v'] o IH]; simpl; [tauto|].
  destruct (String.eqb_spec k' k); [discriminate|].
  intros H [E|Hin]; [contradiction | now apply IH].
Qed.

Lemma keys_set_NoDup o k v :
  List.NoDup (Obj.keys o) -> List.NoDup (Obj.keys (Obj.set o k v)).
Proof.
  intros Hnd. destruct (Obj.get o k) as [p|] eqn:Hg.
  - now rewrite (keys_set_existing o k v p Hg).
  - rewrite (keys_set_new o k v Hg).
    apply List.NoDup_app; [exact Hnd | repeat constructor; simpl; tauto |].
    intros x Hx [<-|[]]. exact (get_None_key o k Hg Hx).
Qed.

Lemma values_set_In o k v x :
  In x (Obj.values (Obj.set o k v)) -> x = v \/ In x (Obj.values o).
Proof.
  induction o as [|[k' v'] o IH]; simpl; [intuition auto|].
  destruct (String.eqb k' k); simpl; [intuition auto|].
  intros [E|H]; [tauto|]. destruct (IH H); tauto.
Qed.

Lemma set_length o k v :
  (List.length (Obj.set o k v) <= S (List.length o))%nat.
Proof.
  induction o as [|[k' v'] o IH]; simpl; [lia|].
  destruct (String.eqb k' k); simpl; lia.
Qed.

Lemma map_values_set_fresh {B : Type} (f : V -> B) o k v :
  List.NoDup (List.map f (Obj.values o)) ->
  ~ In (f v) (List.map f (Obj.values o)) ->
  List.NoDup (List.map f (Obj.values (Obj.set o k v))).
Proof.
  induction o as [|[k' v'] o IH]; simpl; intros Hnd Hfresh.
  - repeat constructor. simpl. tauto.
  - apply List.NoDup_cons_iff in Hnd. destruct Hnd as [Hv' Hnd].
    destruct (String.eqb k' k); simpl.
    + constructor; [tauto | exact Hnd].
    + constructor; [|apply IH; tauto].
      intros Hin. apply List.in_map_iff in Hin.
      destruct Hin as (x & E & Hx). apply values_set_In in Hx.
      destruct Hx as [->|Hx]; [intuition congruence|].
      apply Hv'. rewrite <- E. now apply List.in_map.
Qed.

Lemma map_values_set_In {B : Type} (f : V -> B) o k v b :
  In b (List.map f (Obj.values (Obj.set o k v))) ->
  b = f v \/ In b (List.map f (Obj.values o)).
Proof.
  intros Hin. apply List.in_map_iff in Hin. destruct Hin as (x & <- & Hx).
  apply values_set_In in Hx. destruct Hx as [->|Hx]; [now left|].
  right. now apply List.in_map.
Qed.

Lemma map_values_set_same {B : Type} (f : V -> B) o k v p :
  Obj.get o k = Some p -> f v = f p ->
  List.map f (Obj.values (Obj.set o k v)) = List.map f (Obj.values o).
Proof.
  induction o as [|[k' v'] o IH]; simpl; [discriminate|].
  destruct (String.eqb k' k); simpl.
  - intros [= ->] E. now rewrite E.
  - intros H E. now rewrite IH.
Qed.

Lemma map_values_each {B : Type} (f : V -> B) (g : V -> V) o :
  (forall p, f (g p) = f p) ->
  List.map f (Obj.values (Obj.each g o)) = List.map f (Obj.values o).
Proof.
  intros H. unfold Obj.values, Obj.each. rewrite !List.map_map. simpl.
  apply List.map_ext. intros [k v]. apply H.
Qed.

Lemma keys_del_NoDup o k :
  List.NoDup (Obj.keys o) -> List.NoDup (Obj.keys (Obj.del o k)).
Proof.
  unfold Obj.keys, Obj.del.
  induction o as [|[k' v'] o IH]; simpl; intros Hnd; [constructor|].
  apply List.NoDup_cons_iff in Hnd. destruct Hnd as [Hk Hnd].
  destruct (negb (String.eqb k' k)); simpl; [|auto].
  constructor; [|auto]. intros Hin. apply Hk.
  apply List.in_map_iff in Hin. destruct Hin as (x & E & Hx).
  apply List.filter_In in Hx. apply List.in_map_iff. exists x. tauto.
Qed.

Lemma map_values_del_NoDup {B : Type} (f : V -> B) o k :
  List.NoDup (List.map f (Obj.values o)) ->
  List.NoDup (List.map f (Obj.values (Obj.del o k))).
Proof.
  unfold Obj.values, Obj.del.
  induction o as [|[k' v'] o IH]; simpl; intros Hnd; [constructor|].
  apply List.NoDup_cons_iff in Hnd. destruct Hnd as [Hk Hnd].
  destruct (negb (String.eqb k' k)); simpl; [|auto].
  constructor; [|auto]. intros Hin. apply Hk.
  apply List.in_map_iff in Hin. destruct Hin as (x & E & Hx).
  apply List.in_map_iff in Hx. destruct Hx as (y & <- & Hy).
  apply List.filter_In in Hy. rewrite <- E.
  apply List.in_map, List.in_map. tauto.
Qed.

Lemma map_values_del_In {B : Type} (f : V -> B) o k b :
  In b (List.map f (Obj.values (Obj.del o k))) ->
  In b (List.map f (Obj.values o)).
Proof.
  unfold Obj.values, Obj.del. rewrite !List.map_map, !List.in_map_iff.
  intros (x & E & Hx). apply List.filter_In in Hx. exists x. tauto.
Qed.

Lemma del_length o k :
  (List.length (Obj.del o k) <= List.length o)%nat.
Proof. unfold Obj.del. apply List.filter_length_le. Qed.

Lemma del_length_found o k p :
  Obj.get o k = Some p ->
  (S (List.length (Obj.del o k)) <= List.length o)%nat.
Proof.
  unfold Obj.del. induction o as [|[k' v'] o IH]; simpl; [discriminate|].
  destruct (String.eqb k' k); simpl.
  - intros _. pose proof (List.filter_length_le
                            (fun kv => negb (String.eqb (fst kv) k)) o). lia.
  - intros H. specialize (IH H). lia.
Qed.

Lemma get_In o k v : Obj.get o k = Some v -> In (k, v) o.
Proof.
  induction o as [|[k' v'] o IH]; simpl; [discriminate|].
  destruct (String.eqb_spec k' k) as [->|_].
  - intros [= ->]. now left.
  - intros H. right. now apply IH.
Qed.

End ObjMore.

Lemma len_keys (o : Obj.t Player) : Js.len (Obj.keys o) = Js.len o.
Proof. unfold Js.len, Obj.keys. now rewrite List.length_map. Qed.

(** A removed player's name is not among the names that stay. *)
Lemma name_gone_after_del (o : Obj.t Player) k p :
  List.NoDup (List.map name (Obj.values o)) ->
  Obj.get o k = Some p ->
  ~ In (name p) (List.map name (Obj.values (Obj.del o k))).
Proof.
  intros Hnd Hg Hin. apply List.in_map_iff in Hin.
  destruct Hin as (q & E & Hq). apply In_values in Hq.
  destruct Hq as (t & Hq). apply In_del in Hq. destruct Hq as [Hq Hne].
  apply Hne. apply get_In in Hg.
  assert (Heq : (t, q) = (k, p)).
  { apply (NoDup_map_In_eq (fun kv => name (snd kv)) o); auto.
    unfold Obj.values in Hnd. now rewrite List.map_map in Hnd. }
  congruence.
Qed.

Lemma roomInv_same s s' : sameRoom s s' -> roomInv s -> roomInv s'.
Proof.
  intros (Hk & Hn & Hd & Hs & Hq & Hi) (I1 & I2 & I3 & I4 & I5 & I6).
  assert (Hlen : Js.len (players s') = Js.len (players s)).
  { rewrite <- !len_keys. now rewrite Hk. }
  unfold roomInv. rewrite Hk, Hn, Hd, Hs, Hq, Hi, Hlen. auto 10.
Qed.

Lemma sameRoom_refl s : sameRoom s s.
Proof. unfold sameRoom. auto 10. Qed.

Lemma roomInv_players_kept s s' :
  roomInv s ->
  Obj.keys (players s') = Obj.keys (players s) ->
  namesOf s' = namesOf s ->
  disconnectedPlayers s' = disconnectedPlayers s ->
  Js.len (questions s') = Js.len (questions s) ->
  (started s' = started s /\ currentIndex s <= currentIndex s'
   \/ started s' = false /\ Js.len (questions s') <= currentIndex s'
   \/ disconnectedPlayers s = ∅) ->
  roomInv s'.
Proof.
  intros (I1 & I2 & I3 & I4 & I5 & I6) Hk Hn Hd Hq Hcase.
  assert (Hlen : Js.len (players s') = Js.len (players s)).
  { rewrite <- !len_keys. now rewrite Hk. }
  unfold roomInv. rewrite Hk, Hn, Hd, Hlen.
  split; [exact I1|]. split; [exact I2|]. split; [exact I3|].
  split; [exact I4|].
  destruct Hcase as [[Hs Hi] | [[Hs Hi] | He]].
  - rewrite Hs, Hq. split; [exact I5|]. intros A B. specialize (I6 A B). lia.
  - rewrite Hs. split; [discriminate|]. intros _ _. exact Hi.
  - rewrite He. split.
    + intros _. split.
      * intros n p H. now rewrite lookup_empty in H.
      * rewrite map_size_empty. lia.
    + intros _ H. now contradiction H.
Qed.


Lemma keys_scoreUntilThrow ps :
  Obj.keys (scoreUntilThrow ps) = Obj.keys ps.
Proof.
  unfold Obj.keys.
  induction ps as [|[t p] r IH]; simpl; [reflexivity|].
  destruct (selectedOptionId p); simpl; [reflexivity|].
  f_equal. exact IH.
Qed.

Lemma names_scoreUntilThrow ps :
  List.map name (Obj.values (scoreUntilThrow ps))
  = List.map name (Obj.values ps).
Proof.
  unfold Obj.values.
  induction ps as [|[t p] r IH]; simpl; [reflexivity|].
  destruct (selectedOptionId p); simpl; [reflexivity|].
  f_equal. exact IH.
Qed.

Lemma endRound_same c :
  sameRoom (st c) (st (ctx_of (endRound c)))
  /\ savedOrKept c (ctx_of (endRound c)).
Proof.
  destruct (round (st c)) as [r|] eqn:Hr;
    [|unfold endRound; rewrite Hr; split; [apply sameRoom_refl | now left]].
  destruct (Js.at_index (questions (st c)) (currentIndex (st c)))
    as [q|] eqn:Hq.
  - assert (Hscored : sameRoom (st c) (st (scoredCtx q r c))).
    { unfold sameRoom, namesOf, scoredCtx, mutate.
      cbn [st players set_players disconnectedPlayers started questions
           currentIndex].
      rewrite keys_each, (map_values_each name); [auto 10|].
      apply name_scorePlayer. }
    destruct (endRound_either c r q Hr Hq) as [[Hrev _] | [_ [E|E]]].
    + destruct (endRound_open c r q Hr Hq Hrev)
        as (c' & E & Hp & _ & Hg & _ & _ & Hs & Hi & Hqs & Hd & _).
      rewrite E. cbn [ctx_of]. split; [|now right].
      unfold sameRoom, namesOf. rewrite Hp, keys_each, Hd, Hs, Hqs, Hi.
      rewrite (map_values_each name); [auto 10|]. apply name_scorePlayer.
    + rewrite E. split; [exact Hscored | now left].
    + rewrite E. split; [exact Hscored | now left].
  - unfold endRound. rewrite Hr, Hq. cbn [ctx_of]. split; [|now left].
    unfold sameRoom, namesOf, mutate. cbn [st players set_players
      disconnectedPlayers started questions currentIndex].
    rewrite keys_scoreUntilThrow, names_scoreUntilThrow. auto 10.
Qed.

Lemma onHostPause_same wsTag now c :
  sameRoom (st c) (st (onHostPause wsTag now c))
  /\ savedOrKept c (onHostPause wsTag now c).
Proof.
  unfold onHostPause.
  destruct (round (st c)); [|split; [apply sameRoom_refl | now left]].
  destruct (negb (String.eqb wsTag "host") || paused (st c));
    [split; [apply sameRoom_refl | now left]|].
  split; [|now right].
  unfold sameRoom, namesOf; simpl. auto 10.
Qed.

Lemma onHostResume_same wsTag now c :
  sameRoom (st c) (st (onHostResume wsTag now c))
  /\ savedOrKept c (onHostResume wsTag now c).
Proof.
  unfold onHostResume.
  destruct (round (st c)); [|split; [apply sameRoom_refl | now left]].
  destruct (negb (String.eqb wsTag "host") || negb (paused (st c)));
    [split; [apply sameRoom_refl | now left]|].
  split; [|now right].
  unfold sameRoom, namesOf; simpl. auto 10.
Qed.

(** Handlers that leave the roster as it is keep every property of
    states that only depends on the roster. *)
Section Keeps.

Variable I : GameState -> Prop.
Hypothesis I_same : forall s s', sameRoom s s' -> I s -> I s'.

Lemma keeps_saved c' : I (st c') -> gs c' = Some (st c') -> ctxHolds I c'.
Proof. intros H E. split; [exact H|]. rewrite E. now intros s [= <-]. Qed.

Lemma keeps_same c c' :
  sameRoom (st c) (st c') -> savedOrKept c c' -> ctxHolds I c -> ctxHolds I c'.
Proof.
  intros Hsame Hsaved [Hst Hgs].
  assert (Hst' : I (st c')) by (eapply I_same; eauto).
  split; [exact Hst'|].
  destruct Hsaved as [E|E]; rewrite E; [exact Hgs|].
  intros s [= <-]. exact Hst'.
Qed.

Lemma keeps_ack ws reqId_ a c : ctxHolds I c -> ctxHolds I (ack ws reqId_ a c).
Proof. unfold ack, emit. destruct reqId_; intros [H1 H2]; now split. Qed.

Lemma endRound_keeps c : ctxHolds I c -> ctxHolds I (ctx_of (endRound c)).
Proof.
  intros Hc. destruct (endRound_same c) as [Hsame Hsaved].
  eapply keeps_same; eauto.
Qed.

Lemma onPlayerAnswer_keeps wsTag now questionId optionId c :
  ctxHolds I c ->
  ctxHolds I (ctx_of (onPlayerAnswer wsTag now questionId optionId c)).
Proof.
  intros Hc.
  destruct (onPlayerAnswer_cases wsTag now questionId optionId c)
    as [E | (r & q & p & o & Ha)]; [now rewrite E|].
  rewrite (onPlayerAnswer_accepted _ _ _ _ _ _ _ _ _ Ha).
  destruct (lockedCtx_facts wsTag now o r p c)
    as (Hpl & _ & Hqs & Hci & Hst & _ & Hd & _).
  destruct Ha as (_ & _ & Hg & _).
  assert (Hl : sameRoom (st c) (st (lockedCtx wsTag now o r p c))).
  { unfold sameRoom, namesOf. rewrite Hpl, Hqs, Hci, Hst, Hd.
    rewrite (keys_set_existing _ _ _ _ Hg).
    rewrite (map_values_set_same name _ _ _ _ Hg); [auto 10 | reflexivity]. }
  assert (Hsaved : forall c1, st c1 = st (lockedCtx wsTag now o r p c) ->
                     gs c1 = Some (st c1) -> ctxHolds I c1).
  { intros c1 E1 E2. apply keeps_saved; [|exact E2]. rewrite E1.
    destruct Hc as [Hc _]. eapply I_same; eauto. }
  destruct (List.filter _ (awaiting r)); cbn [ctx_of].
  - apply endRound_keeps. now apply Hsaved.
  - now apply Hsaved.
Qed.

Lemma onHostPause_keeps wsTag now c :
  ctxHolds I c -> ctxHolds I (onHostPause wsTag now c).
Proof.
  intros Hc. destruct (onHostPause_same wsTag now c). eapply keeps_same; eauto.
Qed.

Lemma onHostResume_keeps wsTag now c :
  ctxHolds I c -> ctxHolds I (onHostResume wsTag now c).
Proof.
  intros Hc. destruct (onHostResume_same wsTag now c).
  eapply keeps_same; eauto.
Qed.

Lemma onPlayerReact_keeps wsTag emoji c :
  ctxHolds I c -> ctxHolds I (onPlayerReact wsTag emoji c).
Proof.
  intros [H1 H2]. unfold ctxHolds. rewrite onPlayerReact_state.
  split; [exact H1|].
  unfold onPlayerReact, toHost, toTag, emit.
  repeat match goal with
         | |- context [match ?x with _ => _ end] => destruct x; simpl
         end; exact H2.
Qed.

End Keeps.

(** The prototype of the snapshots is only ever replaced by
    onPlayerClose. *)
Lemma startQuestion_proto now imageData c :
  proto (ctx_of (startQuestion now imageData c)) = proto c.
Proof.
  unfold startQuestion.
  repeat match goal with
         | |- context [match ?x with _ => _ end] => destruct x
         | |- context [if ?x then _ else _] => destruct x
         end; reflexivity.
Qed.

Lemma onPlayerJoin_proto wsTag name_ tok reqId_ uuid c :
  proto (ctx_of (onPlayerJoin wsTag name_ tok reqId_ uuid c)) = proto c.
Proof.
  unfold onPlayerJoin, broadcastLobby, broadcast, ack, emit, saveState,
    mutate.
  repeat match goal with
         | |- context [match ?x with _ => _ end] => destruct x
         | |- context [if ?x then _ else _] => destruct x
         end; reflexivity.
Qed.

Lemma onPlayerAnswer_proto wsTag now questionId optionId c :
  proto (ctx_of (onPlayerAnswer wsTag now questionId optionId c)) = proto c.
Proof.
  destruct (onPlayerAnswer_cases wsTag now questionId optionId c)
    as [E | (r & q & p & o & Ha)]; [now rewrite E|].
  rewrite (onPlayerAnswer_accepted _ _ _ _ _ _ _ _ _ Ha).
  assert (Hl : proto (lockedCtx wsTag now o r p c) = proto c).
  { unfold lockedCtx, toHost, toTag, emit, mutate. simpl.
    destruct (hostTag (st c)) as [h|]; [destruct (Js.truthy h)|];
      reflexivity. }
  destruct (List.filter _ (awaiting r)); cbn [ctx_of]; [|exact Hl].
  now rewrite (proj2 (endRound_alarm _)).
Qed.

Lemma dispatch_proto wsTag now msg uuid c :
  proto (ctx_of (dispatch wsTag now msg uuid c)) = proto c.
Proof.
  unfold dispatch. destruct (body msg); cbn [ctx_of].
  - unfold onHostStart.
    destruct (negb (String.eqb wsTag "host") || started (st c));
      [reflexivity|]. now rewrite startQuestion_proto.
  - unfold onHostPause.
    destruct (round (st c)); [|reflexivity].
    destruct (negb (String.eqb wsTag "host") || paused (st c)); reflexivity.
  - unfold onHostResume.
    destruct (round (st c)); [|reflexivity].
    destruct (negb (String.eqb wsTag "host") || negb (paused (st c)));
      reflexivity.
  - unfold onHostNext. destruct (negb (String.eqb wsTag "host"));
      [reflexivity|]. apply startQuestion_proto.
  - apply onPlayerJoin_proto.
  - apply onPlayerAnswer_proto.
  - unfold onPlayerReact, toHost, toTag, emit.
    repeat match goal with
           | |- context [match ?x with _ => _ end] => destruct x
           | |- context [if ?x then _ else _] => destruct x
           end; reflexivity.
  - unfold ack, emit. destruct (reqId msg); reflexivity.
  - unfold onHostKickPlayer.
    repeat match goal with
           | |- context [match ?x with _ => _ end] => destruct x
           | |- context [if ?x then _ else _] => destruct x
           end; reflexivity.
  - reflexivity.
Qed.

Lemma onPlayerClose_proto wsTag c :
  (forall n, In n (namesOf (st c)) -> notProto n) ->
  proto (onPlayerClose wsTag c) = proto c.
Proof.
  intros Hn. destruct (Obj.get (players (st c)) wsTag) as [p|] eqn:Hg.
  2:{ unfold onPlayerClose. now rewrite Hg. }
  destruct (onPlayerClose_player wsTag c p Hg) as (_ & _ & _ & _ & _ & ->).
  assert (Hp : name p <> "__proto__").
  { apply Hn. unfold namesOf. apply List.in_map. apply In_values.
    exists wsTag. now apply get_In. }
  apply String.eqb_neq in Hp. rewrite Hp. now rewrite andb_false_r.
Qed.

Lemma startQuestion_inv now imageData c :
  ctxInv c -> ctxInv (ctx_of (startQuestion now imageData c)).
Proof.
  intros [Hst Hgs]. unfold startQuestion.
  set (c1 := mutate (fun s => set_currentIndex (currentIndex s + 1) s) c).
  assert (H1 : roomInv (st c1)).
  { apply (roomInv_players_kept (st c)); try reflexivity; [exact Hst|].
    left. simpl. split; [reflexivity | lia]. }
  destruct (Js.len (questions (st c1)) <=? currentIndex (st c1)) eqn:Hover.
  - cbn [ctx_of].
    assert (H2 : roomInv (st (endGame now c1))).
    { apply (roomInv_players_kept (st c1)); try reflexivity; [exact H1|].
      right. left. split; [reflexivity|]. simpl in *. lia. }
    split; [exact H2|]. intros s [= <-]. exact H2.
  - destruct (Js.at_index (questions (st c1)) (currentIndex (st c1)))
      as [q|]; cbn [ctx_of].
    + match goal with |- ctxInv ?c' =>
        assert (H2 : roomInv (st c'))
      end.
      { apply (roomInv_players_kept (st c1)); try reflexivity;
          [exact H1 | | |].
        - simpl. apply keys_each.
        - unfold namesOf. simpl. now apply map_values_each.
        - left. split; reflexivity || (simpl; lia). }
      split; [exact H2|]. intros s [= <-]. exact H2.
    + split; [exact H1 | exact Hgs].
Qed.

Lemma onHostNext_inv wsTag now imageData c :
  ctxInv c -> ctxInv (ctx_of (onHostNext wsTag now imageData c)).
Proof.
  intros H. unfold onHostNext.
  destruct (negb (String.eqb wsTag "host")); [exact H|].
  now apply startQuestion_inv.
Qed.

Lemma onHostStart_inv wsTag now imageData c :
  ctxInv c -> ctxInv (ctx_of (onHostStart wsTag now imageData c)).
Proof.
  intros [Hst Hgs]. unfold onHostStart.
  destruct (negb (String.eqb wsTag "host")); [now split|].
  destruct (started (st c)) eqn:Hs; [now split|]. cbn [orb].
  set (c1 := broadcast _ (saveState (mutate (set_started true) c))).
  destruct (map_choose_or_empty (disconnectedPlayers (st c)))
    as [(n & p & Hnp) | Hempty].
  - (* snapshots exist: the questions are exhausted, the game ends again *)
    assert (Hover : Js.len (questions (st c)) <= currentIndex (st c)).
    { destruct Hst as (_ & _ & _ & _ & _ & I6). apply I6; [exact Hs|].
      intros E. rewrite E in Hnp. now rewrite lookup_empty in Hnp. }
    unfold startQuestion.
    set (c2 := mutate (fun s => set_currentIndex (currentIndex s + 1) s) c1).
    assert (Hle : (Js.len (questions (st c2)) <=? currentIndex (st c2)) = true).
    { apply Z.leb_le. simpl. lia. }
    rewrite Hle. cbn [ctx_of].
    assert (H2 : roomInv (st (endGame now c2))).
    { apply (roomInv_players_kept (st c)); try reflexivity; [exact Hst|].
      right. left. split; [reflexivity|]. simpl. lia. }
    split; [exact H2|]. intros s [= <-]. exact H2.
  - apply startQuestion_inv.
    assert (H1 : roomInv (st c1)).
    { apply (roomInv_players_kept (st c)); try reflexivity; [exact Hst|].
      right. right. exact Hempty. }
    split; [exact H1|]. intros s [= <-]. exact H1.
Qed.

Lemma ctxInv_ack ws reqId_ a c : ctxInv c -> ctxInv (ack ws reqId_ a c).
Proof. unfold ack, emit. destruct reqId_; intros [H1 H2]; now split. Qed.

Lemma ctxInv_saved c' :
  roomInv (st c') -> gs c' = Some (st c') -> ctxInv c'.
Proof. intros H E. split; [exact H|]. rewrite E. now intros s [= <-]. Qed.

(** The context a rejoin and a lobby join leave. *)
Lemma onPlayerJoin_rejoin_state wsTag rawName tok reqId_ uuid c disc c' :
  onPlayerJoin wsTag (Some rawName) tok reqId_ uuid c = Done c' ->
  started (st c) = true ->
  lookupSnapshot (proto c) (disconnectedPlayers (st c)) (sanitizeName rawName)
  = FoundPlayer disc ->
  unchanged c c'
  \/ (st c'
      = set_players (Obj.set (players (st c)) wsTag disc)
          (set_disconnectedPlayers
             (delete (sanitizeName rawName) (disconnectedPlayers (st c)))
             (st c))
      /\ gs c' = Some (st c')).
Proof.
  intros E Hs Hd. unfold onPlayerJoin in E.
  destruct (Js.truthy rawName); cbn [negb] in E;
    [|injection E as <-; left; apply unchanged_ack].
  destruct (Js.truthy (sanitizeName rawName)); cbn [negb] in E;
    [|injection E as <-; left; apply unchanged_ack].
  rewrite Hs, Hd in E.
  destruct (Js.truthy (rejoinToken disc)
            && negb (bool_decide (tok = Some (rejoinToken disc))));
    [injection E as <-; left; apply unchanged_ack|].
  injection E as <-. right.
  unfold broadcastLobby, broadcast, ack, emit, saveState, mutate.
  destruct reqId_; split; reflexivity.
Qed.

Lemma onPlayerJoin_lobby_state wsTag rawName tok reqId_ uuid c :
  started (st c) = false ->
  let c' := ctx_of (onPlayerJoin wsTag (Some rawName) tok reqId_ uuid c) in
  unchanged c c'
  \/ (Js.truthy (sanitizeName rawName) = true
      /\ Js.len (Obj.keys (players (st c))) < 100
      /\ ~ In (sanitizeName rawName) (namesOf (st c))
      /\ st c'
         = set_players (Obj.set (players (st c)) wsTag
                          (mkPlayer (sanitizeName rawName) 0 None None false
                             0 0 uuid)) (st c)
      /\ gs c' = Some (st c')).
Proof.
  intros Hs. unfold onPlayerJoin.
  destruct (Js.truthy rawName); cbn [negb];
    [|left; apply unchanged_ack].
  destruct (Js.truthy (sanitizeName rawName)) eqn:Hsafe; cbn [negb];
    [|left; apply unchanged_ack].
  rewrite Hs.
  destruct (100 <=? Js.len (Obj.keys (players (st c)))) eqn:Hfull;
    [left; apply unchanged_ack|].
  destruct (existsb (fun p => String.eqb (name p) (sanitizeName rawName))
              (Obj.values (players (st c)))) eqn:Htaken;
    [left; apply unchanged_ack|].
  right. split; [reflexivity|]. split; [lia|]. split.
  - intros Hin. apply List.in_map_iff in Hin. destruct Hin as (p & E & Hp).
    assert (Hex : existsb (fun p => String.eqb (name p) (sanitizeName rawName))
                    (Obj.values (players (st c))) = true).
    { apply List.existsb_exists. exists p. split; [exact Hp|].
      now apply String.eqb_eq. }
    congruence.
  - unfold broadcastLobby, broadcast, ack, emit, saveState, mutate.
    destruct reqId_; split; reflexivity.
Qed.

Lemma ctxInv_unchanged c c' : unchanged c c' -> ctxInv c -> ctxInv c'.
Proof. intros (E1 & E2 & _) [H1 H2]. split; [rewrite E1 | rewrite E2]; auto. Qed.

Lemma onPlayerJoin_inv wsTag name_ tok reqId_ uuid c :
  proto c = None ->
  ctxInv c -> ctxInv (ctx_of (onPlayerJoin wsTag name_ tok reqId_ uuid c)).
Proof.
  intros Hpr Hc. pose proof Hc as [Hst Hgs].
  destruct Hst as (I1 & I2 & I3 & I4 & I5 & I6).
  destruct (started (st c)) eqn:Hs.
  - destruct (onPlayerJoin_started wsTag name_ tok reqId_ uuid c Hs)
      as [(c' & E & Hu & _)
         | [(rawName & disc & -> & Hraw & Hsafe & Hd & Htok)
           | (rawName & _ & _ & _ & _ & E)]].
    + rewrite E. now apply (ctxInv_unchanged c).
    + destruct (onPlayerJoin_rejoin wsTag rawName tok reqId_ uuid c disc
                  Hs Hraw Hsafe Hd Htok) as (c' & E & _).
      rewrite E. cbn [ctx_of].
      destruct (onPlayerJoin_rejoin_state _ _ _ _ _ _ _ _ E Hs Hd)
        as [Hu | [Hstate Hsaved]]; [now apply (ctxInv_unchanged c)|].
      apply ctxInv_saved; [|exact Hsaved]. rewrite Hstate.
      set (n := sanitizeName rawName) in *.
      rewrite Hpr in Hd. apply lookupSnapshot_found in Hd.
      destruct Hd as [Hd | (_ & Hd & _)]; [|discriminate Hd].
      destruct (I5 eq_refl) as [Hdisj Hcap].
      assert (Hname : name disc = n) by (now apply I4).
      assert (Hfresh : ~ In (name disc) (namesOf (st c))).
      { rewrite Hname. eapply Hdisj. exact Hd. }
      assert (Hsize : (1 <= size (disconnectedPlayers (st c)))%nat).
      { destruct (size (disconnectedPlayers (st c))) eqn:Hz; [|lia].
        apply map_size_empty_inv in Hz. rewrite Hz in Hd.
        now rewrite lookup_empty in Hd. }
      pose proof (set_length (players (st c)) wsTag disc) as Hlen.
      unfold roomInv, namesOf, Js.len in *.
      cbn [players disconnectedPlayers started questions currentIndex
           set_players set_disconnectedPlayers].
      split; [now apply keys_set_NoDup|].
      split; [now apply map_values_set_fresh|].
      split; [lia|].
      split.
      { intros k p Hk. apply lookup_delete_Some in Hk. destruct Hk as [_ Hk].
        now apply I4. }
      split.
      * intros _. split.
        -- intros k p Hk Hin. apply lookup_delete_Some in Hk.
           destruct Hk as [Hne Hk].
           apply map_values_set_In in Hin. destruct Hin as [E'|Hin].
           ++ congruence.
           ++ eapply Hdisj; eauto.
        -- rewrite map_size_delete, Hd. simpl. lia.
      * rewrite Hs. discriminate.
    + rewrite E. exact Hc.
  - destruct name_ as [rawName|];
      [|unfold onPlayerJoin; now apply ctxInv_ack].
    destruct (onPlayerJoin_lobby_state wsTag rawName tok reqId_ uuid c Hs)
      as [Hu | (_ & Hfull & Hfresh & Hstate & Hsaved)];
      [now apply (ctxInv_unchanged c)|].
    apply ctxInv_saved; [|exact Hsaved]. rewrite Hstate.
    pose proof (set_length (players (st c)) wsTag
                  (mkPlayer (sanitizeName rawName) 0 None None false 0 0 uuid))
      as Hlen.
    rewrite len_keys in Hfull.
    unfold roomInv, namesOf, Js.len in *.
    cbn [players disconnectedPlayers started questions currentIndex
         set_players].
    split; [now apply keys_set_NoDup|].
    split; [now apply map_values_set_fresh|].
    split; [lia|]. split; [exact I4|].
    rewrite Hs. split; [discriminate | exact I6].
Qed.

Lemma onHostKickPlayer_inv wsTag playerName c :
  ctxInv c -> ctxInv (onHostKickPlayer wsTag playerName c).
Proof.
  intros Hc. pose proof Hc as [Hst Hgs]. unfold onHostKickPlayer.
  destruct (negb (String.eqb wsTag "host")); [exact Hc|].
  destruct (started (st c)) eqn:Hs; [exact Hc|]. cbn [orb].
  destruct playerName as [n|]; [|exact Hc].
  destruct (Js.truthy n); cbn [negb]; [|exact Hc].
  destruct (List.find _ (players (st c))) as [[t p]|]; [|exact Hc].
  apply ctxInv_saved; [|reflexivity].
  destruct Hst as (I1 & I2 & I3 & I4 & I5 & I6).
  pose proof (del_length (players (st c)) t) as Hlen.
  unfold roomInv, namesOf, Js.len in *.
  cbn [st broadcastLobby broadcast toTag emit saveState mutate players
       disconnectedPlayers started questions currentIndex set_players].
  split; [now apply keys_del_NoDup|].
  split; [now apply map_values_del_NoDup|].
  split; [lia|]. split; [exact I4|].
  rewrite Hs. split; [discriminate | intros _; now apply I6].
Qed.

(** onPlayerClose for a joined player, field by field. *)
Lemma onPlayerClose_state wsTag c p :
  Obj.get (players (st c)) wsTag = Some p ->
  exists rd,
    st (onPlayerClose wsTag c)
    = set_round rd
        (set_players (Obj.del (players (st c)) wsTag)
           (set_disconnectedPlayers
              (if started (st c) && negb (String.eqb (name p) "__proto__")
               then <[name p := p]> (disconnectedPlayers (st c))
               else disconnectedPlayers (st c)) (st c)))
    /\ gs (onPlayerClose wsTag c) = Some (st (onPlayerClose wsTag c)).
Proof.
  intros Hg. unfold onPlayerClose. rewrite Hg.
  destruct c as [[gid ttl qs ps dps stt psd ci rd ht hs] g a o pr].
  cbn [st started players] in *.
  destruct stt; [destruct (String.eqb (name p) "__proto__")|];
    destruct rd as [r|];
    cbn -[insert Obj.keys Obj.del];
    try (destruct (Obj.keys (Obj.del ps wsTag)));
    cbn -[insert Obj.keys Obj.del];
    eexists; split; reflexivity.
Qed.

Lemma onPlayerClose_inv wsTag c :
  ctxInv c -> ctxInv (onPlayerClose wsTag c).
Proof.
  intros Hc. pose proof Hc as [Hst Hgs].
  destruct (Obj.get (players (st c)) wsTag) as [p|] eqn:Hg.
  2:{ unfold onPlayerClose. now rewrite Hg. }
  destruct (onPlayerClose_state wsTag c p Hg) as (rd & E & Hsaved).
  apply ctxInv_saved; [|exact Hsaved]. rewrite E.
  destruct Hst as (I1 & I2 & I3 & I4 & I5 & I6).
  pose proof (del_length_found (players (st c)) wsTag p Hg) as Hlen.
  unfold roomInv, namesOf, Js.len in *.
  cbn [players disconnectedPlayers started questions currentIndex
       set_players set_disconnectedPlayers set_round].
  split; [now apply keys_del_NoDup|].
  split; [now apply map_values_del_NoDup|].
  split; [lia|].
  destruct (started (st c)) eqn:Hs; cbn [andb].
  - destruct (I5 eq_refl) as [Hdisj Hcap].
    destruct (negb (String.eqb (name p) "__proto__")).
    + split.
      { intros k q Hk. apply lookup_insert_Some in Hk.
        destruct Hk as [[<- <-] | [_ Hk]]; [reflexivity | now apply I4]. }
      split; [|discriminate].
      intros _. split.
      * intros k q Hk Hin. apply lookup_insert_Some in Hk.
        destruct Hk as [[<- <-] | [_ Hk]].
        -- now apply (name_gone_after_del (players (st c)) wsTag p).
        -- apply map_values_del_In in Hin. eapply Hdisj; eauto.
      * pose proof (map_size_insert (name p) p (disconnectedPlayers (st c)))
          as Hsz.
        destruct (disconnectedPlayers (st c) !! name p); simpl in Hsz; lia.
    + split; [exact I4|]. split; [|discriminate].
      intros _. split; [|lia].
      intros k q Hk Hin. apply map_values_del_In in Hin. eapply Hdisj; eauto.
  - split; [exact I4|]. split; [discriminate | exact I6].
Qed.

Lemma dispatch_inv wsTag now msg uuid c :
  proto c = None ->
  ctxInv c -> ctxInv (ctx_of (dispatch wsTag now msg uuid c)).
Proof.
  intros Hpr Hc. unfold dispatch. destruct (body msg); cbn [ctx_of].
  - now apply onHostStart_inv.
  - now apply (onHostPause_keeps roomInv roomInv_same).
  - now apply (onHostResume_keeps roomInv roomInv_same).
  - now apply onHostNext_inv.
  - now apply onPlayerJoin_inv.
  - now apply (onPlayerAnswer_keeps roomInv roomInv_same).
  - now apply (onPlayerReact_keeps roomInv).
  - now apply ctxInv_ack.
  - now apply onHostKickPlayer_inv.
  - exact Hc.
Qed.

(* ------------------------------------------------------------------ *)
(** ** The names along the handlers *)

Section NamesAll.

Variable good : string -> Prop.

Lemma namesAll_same s s' :
  namesOf s' = namesOf s ->
  disconnectedPlayers s' = disconnectedPlayers s ->
  namesAll good s -> namesAll good s'.
Proof. intros E1 E2 [H1 H2]. split; [rewrite E1 | rewrite E2]; assumption. Qed.

Lemma namesAll_sameRoom s s' :
  sameRoom s s' -> namesAll good s -> namesAll good s'.
Proof. intros (_ & E1 & E2 & _). now apply namesAll_same. Qed.

Lemma all_saved c' :
  namesAll good (st c') -> gs c' = Some (st c') ->
  ctxHolds (namesAll good) c'.
Proof. intros H E. split; [exact H|]. rewrite E. now intros s [= <-]. Qed.

Lemma all_unchanged c c' :
  unchanged c c' -> ctxHolds (namesAll good) c -> ctxHolds (namesAll good) c'.
Proof. intros (E1 & E2 & _) [H1 H2]. split; [rewrite E1 | rewrite E2]; auto. Qed.

Lemma startQuestion_all now imageData c :
  ctxHolds (namesAll good) c ->
  ctxHolds (namesAll good) (ctx_of (startQuestion now imageData c)).
Proof.
  intros [Hst Hgs]. unfold startQuestion.
  set (c1 := mutate (fun s => set_currentIndex (currentIndex s + 1) s) c).
  destruct (Js.len (questions (st c1)) <=? currentIndex (st c1)).
  - cbn [ctx_of]. apply all_saved; [|reflexivity].
    now apply (namesAll_same (st c)).
  - destruct (Js.at_index (questions (st c1)) (currentIndex (st c1)))
      as [q|]; cbn [ctx_of].
    + apply all_saved; [|reflexivity].
      apply (namesAll_same (st c)); [|reflexivity|exact Hst].
      unfold namesOf. simpl. now apply map_values_each.
    + split; [|exact Hgs]. now apply (namesAll_same (st c)).
Qed.

Lemma onHostStart_all wsTag now imageData c :
  ctxHolds (namesAll good) c ->
  ctxHolds (namesAll good) (ctx_of (onHostStart wsTag now imageData c)).
Proof.
  intros Hc. pose proof Hc as [Hst Hgs]. unfold onHostStart.
  destruct (negb (String.eqb wsTag "host") || started (st c)); [exact Hc|].
  apply startQuestion_all. apply all_saved; [|reflexivity].
  now apply (namesAll_same (st c)).
Qed.

Lemma onHostNext_all wsTag now imageData c :
  ctxHolds (namesAll good) c ->
  ctxHolds (namesAll good) (ctx_of (onHostNext wsTag now imageData c)).
Proof.
  intros H. unfold onHostNext.
  destruct (negb (String.eqb wsTag "host")); [exact H|].
  now apply startQuestion_all.
Qed.

Lemma onPlayerJoin_all wsTag name_ tok reqId_ uuid c :
  (forall rawName, name_ = Some rawName -> sanitizeName rawName <> "" ->
     good (sanitizeName rawName)) ->
  ctxHolds (namesAll good) c -> protoHolds good (proto c) ->
  ctxHolds (namesAll good)
    (ctx_of (onPlayerJoin wsTag name_ tok reqId_ uuid c)).
Proof.
  intros Hgood Hc Hpr. pose proof Hc as [[Hn Hd] Hgs].
  destruct (started (st c)) eqn:Hs.
  - destruct (onPlayerJoin_started wsTag name_ tok reqId_ uuid c Hs)
      as [(c' & E & Hu & _)
         | [(rawName & disc & -> & Hraw & Hsafe & Hl & Htok)
           | (rawName & _ & _ & _ & _ & E)]].
    + rewrite E. now apply (all_unchanged c).
    + destruct (onPlayerJoin_rejoin wsTag rawName tok reqId_ uuid c disc
                  Hs Hraw Hsafe Hl Htok) as (c' & E & _).
      rewrite E. cbn [ctx_of].
      destruct (onPlayerJoin_rejoin_state _ _ _ _ _ _ _ _ E Hs Hl)
        as [Hu | [Hstate Hsaved]]; [now apply (all_unchanged c)|].
      apply all_saved; [|exact Hsaved]. rewrite Hstate.
      assert (Hdisc : good (name disc)).
      { apply lookupSnapshot_found in Hl.
        destruct Hl as [Hl | (_ & Hl & _)]; [eapply Hd; eauto | now apply Hpr]. }
      split.
      * intros n Hin. unfold namesOf in Hin. cbn [players set_players] in Hin.
        apply map_values_set_In in Hin. destruct Hin as [->|Hin];
          [exact Hdisc | now apply Hn].
      * intros k p Hk. cbn [disconnectedPlayers set_players
                            set_disconnectedPlayers] in Hk.
        apply lookup_delete_Some in Hk. destruct Hk as [_ Hk].
        eapply Hd; eauto.
    + rewrite E. exact Hc.
  - destruct name_ as [rawName|];
      [|unfold onPlayerJoin, ack, emit; destruct reqId_; exact Hc].
    destruct (onPlayerJoin_lobby_state wsTag rawName tok reqId_ uuid c Hs)
      as [Hu | (Hsafe & _ & _ & Hstate & Hsaved)];
      [now apply (all_unchanged c)|].
    apply all_saved; [|exact Hsaved]. rewrite Hstate. split; [|exact Hd].
    intros n Hin. unfold namesOf in Hin. cbn [players set_players] in Hin.
    apply map_values_set_In in Hin. destruct Hin as [->|Hin];
      [|now apply Hn].
    cbn [name]. apply (Hgood rawName eq_refl). now apply truthy_true.
Qed.

Lemma onHostKickPlayer_all wsTag playerName c :
  ctxHolds (namesAll good) c ->
  ctxHolds (namesAll good) (onHostKickPlayer wsTag playerName c).
Proof.
  intros Hc. pose proof Hc as [[Hn Hd] Hgs]. unfold onHostKickPlayer.
  destruct (negb (String.eqb wsTag "host") || started (st c)); [exact Hc|].
  destruct playerName as [n|]; [|exact Hc].
  destruct (Js.truthy n); cbn [negb]; [|exact Hc].
  destruct (List.find _ (players (st c))) as [[t p]|]; [|exact Hc].
  apply all_saved; [|reflexivity]. split; [|exact Hd].
  intros k Hin. unfold namesOf in Hin.
  cbn [st broadcastLobby broadcast toTag emit saveState mutate players
       set_players] in Hin.
  apply map_values_del_In in Hin. now apply Hn.
Qed.

Lemma onPlayerClose_all wsTag c :
  ctxHolds (namesAll good) c -> protoHolds good (proto c) ->
  ctxKeeps (namesAll good) (protoHolds good) (onPlayerClose wsTag c).
Proof.
  intros Hc Hpr. pose proof Hc as [[Hn Hd] Hgs].
  destruct (Obj.get (players (st c)) wsTag) as [p|] eqn:Hg.
  2:{ unfold onPlayerClose. rewrite Hg. now split. }
  assert (Hp : good (name p)).
  { apply Hn. unfold namesOf. apply List.in_map. apply In_values.
    exists wsTag. now apply get_In. }
  split.
  - destruct (onPlayerClose_state wsTag c p Hg) as (rd & E & Hsaved).
    apply all_saved; [|exact Hsaved]. rewrite E. split.
    + intros n Hin. unfold namesOf in Hin.
      cbn [players set_players set_round] in Hin.
      apply map_values_del_In in Hin. now apply Hn.
    + intros k q Hk.
      cbn [disconnectedPlayers set_players set_round
           set_disconnectedPlayers] in Hk.
      destruct (started (st c) && negb (String.eqb (name p) "__proto__"));
        [|eapply Hd; eauto].
      apply lookup_insert_Some in Hk.
      destruct Hk as [[_ <-] | [_ Hk]]; [exact Hp | eapply Hd; eauto].
  - destruct (onPlayerClose_player wsTag c p Hg) as (_ & _ & _ & _ & _ & ->).
    destruct (started (st c) && String.eqb (name p) "__proto__");
      [|exact Hpr].
    intros copy [= <-]. exact Hp.
Qed.

Lemma dispatch_all wsTag now msg uuid c :
  (forall rawName tok, body msg = player_join (Some rawName) tok ->
     sanitizeName rawName <> "" -> good (sanitizeName rawName)) ->
  ctxKeeps (namesAll good) (protoHolds good) c ->
  ctxKeeps (namesAll good) (protoHolds good)
    (ctx_of (dispatch wsTag now msg uuid c)).
Proof.
  intros Hgood [Hc Hpr]. split; [|now rewrite dispatch_proto].
  unfold dispatch. destruct (body msg) eqn:Hb; cbn [ctx_of].
  - now apply onHostStart_all.
  - now apply (onHostPause_keeps _ namesAll_sameRoom).
  - now apply (onHostResume_keeps _ namesAll_sameRoom).
  - now apply onHostNext_all.
  - apply onPlayerJoin_all; [|exact Hc|exact Hpr].
    intros rawName ->. now apply (Hgood rawName rejoinToken_).
  - now apply (onPlayerAnswer_keeps _ namesAll_sameRoom).
  - now apply (onPlayerReact_keeps (namesAll good)).
  - now apply (keeps_ack (namesAll good)).
  - now apply onHostKickPlayer_all.
  - exact Hc.
Qed.

Lemma endRound_all c :
  ctxKeeps (namesAll good) (protoHolds good) c ->
  ctxKeeps (namesAll good) (protoHolds good) (ctx_of (endRound c)).
Proof.
  intros [Hc Hpr]. split.
  - now apply (endRound_keeps _ namesAll_sameRoom).
  - now rewrite (proj2 (endRound_alarm c)).
Qed.

Lemma createGameState_all gameId payload drawsQ drawsA uuid :
  namesAll good (createGameState gameId payload drawsQ drawsA uuid).
Proof.
  split; [intros n [] | intros k q H].
  unfold createGameState in H. cbn [disconnectedPlayers] in H.
  now rewrite lookup_empty in H.
Qed.

End NamesAll.

(* ------------------------------------------------------------------ *)
(** ** From the handlers to every reachable state *)

Section Reachable.

Variable I : GameState -> Prop.
Variable P : option Player -> Prop.
Variable allowed : Request -> bool.

Hypothesis I_create : forall gameId payload drawsQ drawsA uuid,
  I (createGameState gameId payload drawsQ drawsA uuid).
Hypothesis I_hostTag : forall h s, I s -> I (set_hostTag h s).
Hypothesis P_None : P None.
Hypothesis I_dispatch : forall wsTag now msg uuid c,
  allowed (ReqEvent (EvMessage wsTag now (Some msg) uuid)) = true ->
  ctxKeeps I P c -> ctxKeeps I P (ctx_of (dispatch wsTag now msg uuid c)).
Hypothesis I_close : forall wsTag c,
  ctxKeeps I P c -> ctxKeeps I P (onPlayerClose wsTag c).
Hypothesis I_endRound : forall c,
  ctxKeeps I P c -> ctxKeeps I P (ctx_of (endRound c)).

Lemma holds_leave d o :
  ctxKeeps I P (ctx_of o) -> doKeeps I P (do_of (leave d o)).
Proof.
  intros [[H1 H2] H3]. destruct o as [c|c|c]; cbn [leave do_of ctx_of] in *;
    (split; [split|]; cbn [leaveCtx _state storage_gs _proto];
     [intros s [= <-]; exact H1 | exact H2 | exact H3]).
Qed.

Lemma holds_stateOf d s : doKeeps I P d -> stateOf d = Some s -> I s.
Proof.
  intros [[Hm Hg] _] Hs. unfold stateOf in Hs.
  destruct (_state d) as [s'|] eqn:E; [apply Hm | apply Hg]; congruence.
Qed.

Lemma holds_protoOf d : doKeeps I P d -> P (protoOf d).
Proof.
  intros [_ Hp]. unfold protoOf. destruct (_state d); [exact Hp | exact P_None].
Qed.

Lemma holds_getState d : doKeeps I P d -> doKeeps I P (fst (getState d)).
Proof.
  intros Hd. pose proof Hd as [[Hm Hg] Hp]. unfold getState. cbn [fst].
  split; [split|]; cbn [_state storage_gs _proto];
    [|exact Hg|now apply holds_protoOf].
  intros s Hs. now apply (holds_stateOf d).
Qed.

Lemma holds_enter d s :
  doKeeps I P d -> stateOf d = Some s ->
  ctxKeeps I P (enter (fst (getState d)) s).
Proof.
  intros Hd Hs. pose proof Hd as [[Hm Hg] Hp].
  split; [split|]; cbn [enter getState fst st gs proto storage_gs _proto].
  - now apply (holds_stateOf d).
  - exact Hg.
  - now apply holds_protoOf.
Qed.

Lemma webSocketMessage_holds wsTag now message uuid d :
  allowed (ReqEvent (EvMessage wsTag now message uuid)) = true ->
  doKeeps I P d ->
  doKeeps I P (do_of (webSocketMessage wsTag now message uuid d)).
Proof.
  intros Hal Hd. pose proof Hd as [[Hm Hg] Hp]. unfold webSocketMessage.
  fold (hitsAfter wsTag now d).
  set (d1 := mkDO (_state d) (<[wsTag := hitsAfter wsTag now d]> (_wsRateMap d))
               (storage_gs d) (storage_alarm d) (_proto d)).
  assert (H1 : doKeeps I P d1) by (split; [split|]; assumption).
  destruct (30 <? Js.len (hitsAfter wsTag now d)); [exact H1|].
  pose proof (holds_getState d1 H1) as H2.
  pose proof (holds_enter d1) as H3.
  unfold getState in *. cbn [fst] in H2, H3.
  destruct (stateOf d1) as [s|] eqn:Hs; [|exact H2].
  destruct message as [msg|]; [|exact H2].
  apply holds_leave, I_dispatch; [exact Hal|]. now apply H3.
Qed.

Lemma webSocketClose_holds wsTag d :
  doKeeps I P d -> doKeeps I P (fst (webSocketClose wsTag d)).
Proof.
  intros Hd. pose proof Hd as [[Hm Hg] Hp]. unfold webSocketClose.
  pose proof (holds_getState d Hd) as H2.
  pose proof (fun s => holds_enter d s Hd) as H3.
  unfold getState in *. cbn [fst] in H2, H3.
  destruct (stateOf d) as [s|] eqn:Hs; [|exact H2].
  destruct (String.eqb wsTag "host"); cbn [fst].
  - split; [split; intros s' Hs'; discriminate Hs' | exact P_None].
  - destruct (I_close wsTag _ (H3 s eq_refl)) as [[Hc1 Hc2] Hc3].
    split; [split|]; cbn [leaveCtx _state storage_gs _proto];
      [intros s' [= <-]; exact Hc1 | exact Hc2 | exact Hc3].
Qed.

Lemma alarm_holds d : doKeeps I P d -> doKeeps I P (do_of (alarm d)).
Proof.
  intros Hd. pose proof Hd as [[Hm Hg] Hp]. unfold alarm.
  pose proof (holds_getState d Hd) as H2.
  pose proof (fun s => holds_enter d s Hd) as H3.
  unfold getState in *. cbn [fst] in H2, H3.
  destruct (stateOf d) as [s|] eqn:Hs; [|exact H2].
  destruct (round s).
  - destruct (paused s); [exact H2|].
    apply holds_leave, I_endRound. now apply H3.
  - cbn [do_of]. split; [split; intros s' Hs'; discriminate Hs' | exact P_None].
Qed.

Lemma fetchUpgrade_holds role secret uuid d :
  doKeeps I P d -> doKeeps I P (fst (fetchUpgrade role secret uuid d)).
Proof.
  intros Hd. pose proof Hd as [[Hm Hg] Hp]. unfold fetchUpgrade.
  destruct (String.eqb role "host"); [|exact Hd].
  pose proof (holds_getState d Hd) as H2.
  unfold getState in *. cbn [fst] in H2.
  destruct (stateOf d) as [s|] eqn:Hs; [|exact H2].
  destruct (Js.truthy (hostSecret s)
            && negb (bool_decide (secret = Some (hostSecret s))));
    [exact H2|].
  cbn [fst].
  assert (H3 : I (set_hostTag (Some "host") s)).
  { apply I_hostTag. now apply (holds_stateOf d). }
  split; [split|];
    cbn [leaveCtx _state storage_gs _proto saveState mutate enter st gs proto];
    [intros s' [= <-]; exact H3 | intros s' [= <-]; exact H3
     | now apply holds_protoOf].
Qed.

Lemma serve_holds_later r d :
  isInit r = false -> allowed r = true ->
  doKeeps I P d -> doKeeps I P (serve r d).
Proof.
  intros Hr Hal Hd.
  destruct r as [e | gameId payload drawsQ drawsA uuid | | role secret uuid | ];
    cbn [serve]; try discriminate Hr.
  - destruct e as [wsTag now message uuid | wsTag | ]; cbn [step].
    + now apply webSocketMessage_holds.
    + now apply webSocketClose_holds.
    + now apply alarm_holds.
  - unfold fetchStatus.
    pose proof (holds_getState d Hd) as H2.
    unfold getState in *. cbn [fst] in H2.
    destruct (stateOf d) as [s|]; [destruct (started s)|]; exact H2.
  - now apply fetchUpgrade_holds.
  - destruct Hd as [[_ Hg] _]. split; [split|];
      cbn [evict _state storage_gs _proto];
      [intros s Hs; discriminate Hs | exact Hg | exact P_None].
Qed.

Lemma serveAll_holds_later rs : forall d,
  List.forallb (fun r => negb (isInit r)) rs = true ->
  List.forallb allowed rs = true ->
  doKeeps I P d -> doKeeps I P (serveAll rs d).
Proof.
  induction rs as [|r rs IH]; intros d Hrs Hal Hd; [exact Hd|].
  cbn [List.forallb] in Hrs, Hal. apply andb_prop in Hrs as [Hr Hrs].
  apply andb_prop in Hal as [Ha Hal].
  apply negb_true_iff in Hr.
  cbn [serveAll List.fold_left]. apply IH; [exact Hrs|exact Hal|].
  now apply serve_holds_later.
Qed.

Lemma serve_holds r d :
  allowed r = true -> doKeeps I P d -> doKeeps I P (serve r d).
Proof.
  intros Hal Hd. destruct (isInit r) eqn:Hr; [|now apply serve_holds_later].
  destruct r; try discriminate Hr. cbn [serve]. unfold fetchInit. cbn [fst].
  split; [split|]; cbn [_state storage_gs _proto];
    [intros s [= <-]; apply I_create | intros s [= <-]; apply I_create
     | exact P_None].
Qed.

Lemma serveAll_holds rs : forall d,
  List.forallb allowed rs = true ->
  doKeeps I P d -> doKeeps I P (serveAll rs d).
Proof.
  induction rs as [|r rs IH]; intros d Hal Hd; [exact Hd|].
  cbn [List.forallb] in Hal. apply andb_prop in Hal as [Ha Hal].
  cbn [serveAll List.fold_left]. apply IH; [exact Hal|].
  now apply serve_holds.
Qed.

End Reachable.

Lemma forallb_true {A : Type} (l : list A) :
  List.forallb (fun _ => true) l = true.
Proof. induction l; [reflexivity | exact IHl]. Qed.

Lemma createGameState_inv gameId payload drawsQ drawsA uuid :
  roomInv (createGameState gameId payload drawsQ drawsA uuid).
Proof.
  unfold roomInv, createGameState, namesOf, Js.len.
  cbn [players disconnectedPlayers started questions currentIndex].
  split; [constructor|]. split; [constructor|]. split; [simpl; lia|].
  split; [intros n p H; now rewrite lookup_empty in H|].
  split; [discriminate|]. intros _ H. now contradiction H.
Qed.

Lemma ctxHolds_and (A B : GameState -> Prop) c :
  ctxHolds (fun s => A s /\ B s) c <-> ctxHolds A c /\ ctxHolds B c.
Proof.
  unfold ctxHolds, optHolds. split.
  - intros [[Ha Hb] H]. repeat split; auto; intros s Hs; now apply H.
  - intros [[Ha Ha'] [Hb Hb']]. repeat split; auto.
Qed.

Lemma protoHolds_None good : protoHolds good None.
Proof. intros copy H. discriminate H. Qed.

(** A join under another name than [__proto__]. *)
Lemma joinsAs_good wsTag now msg uuid rawName tok :
  joinsAs "__proto__" (ReqEvent (EvMessage wsTag now (Some msg) uuid)) = false ->
  body msg = player_join (Some rawName) tok ->
  notProto (sanitizeName rawName).
Proof.
  unfold joinsAs. intros H Hb. rewrite Hb in H.
  now apply String.eqb_neq in H.
Qed.

(** X12. Whatever requests, messages, socket closes, alarms and restarts
    of the instance a room goes through from its creation, as long as no
    request makes a handler go on with a value outside the declared types
    and nobody joins under the name [__proto__], in every state the room
    holds or has stored the connection tags of the players are pairwise
    distinct, so are their display names, there are at most 100 players,
    every snapshot of a disconnected player is filed under that player's
    name, while the game is started no snapshot bears the name of a
    connected player, and the prototype of the snapshots is the one they
    were created with. *)
Theorem X12_room_invariants (rs : list Request) (s : GameState) :
  let d := serveAll rs (mkDO None ∅ None None None) in
  typedRun rs (mkDO None ∅ None None None) = true ->
  List.forallb (fun r => negb (joinsAs "__proto__" r)) rs = true ->
  stateOf d = Some s \/ storage_gs d = Some s ->
  List.NoDup (Obj.keys (players s))
  /\ List.NoDup (List.map name (Obj.values (players s)))
  /\ Js.len (Obj.keys (players s)) <= 100
  /\ (forall n p, disconnectedPlayers s !! n = Some p -> name p = n)
  /\ (started s = true ->
      forall n p, disconnectedPlayers s !! n = Some p ->
                  ~ In n (List.map name (Obj.values (players s))))
  /\ ~ In "__proto__" (List.map name (Obj.values (players s)))
  /\ _proto d = None.
Proof.
  intros d _ Hjoin Hs.
  set (I := fun s => roomInv s /\ namesAll notProto s).
  set (P := fun pr : option Player => pr = None).
  assert (Hkeeps : forall c, ctxKeeps I P c ->
            ctxInv c /\ ctxKeeps (namesAll notProto) (protoHolds notProto) c
            /\ proto c = None).
  { intros c [Hc Hp]. apply ctxHolds_and in Hc. destruct Hc as [Ha Hb].
    unfold P in Hp. split; [exact Ha|]. split; [|exact Hp].
    split; [exact Hb|]. rewrite Hp. apply protoHolds_None. }
  assert (Hback : forall c,
            ctxInv c -> ctxHolds (namesAll notProto) c -> proto c = None ->
            ctxKeeps I P c).
  { intros c Ha Hb Hp. split; [|exact Hp]. apply ctxHolds_and. now split. }
  assert (Hd : doKeeps I P d).
  { apply (serveAll_holds I P (fun r => negb (joinsAs "__proto__" r))).
    - intros. split; [apply createGameState_inv | apply createGameState_all].
    - intros h s0 [Ha Hb]. split.
      + revert Ha. apply roomInv_same. unfold sameRoom. auto 10.
      + revert Hb. now apply namesAll_same.
    - reflexivity.
    - intros wsTag now msg uuid c Hal Hc.
      apply negb_true_iff in Hal.
      destruct (Hkeeps c Hc) as (Ha & Hb & Hp).
      apply Hback.
      + now apply dispatch_inv.
      + apply (dispatch_all notProto); [|exact Hb].
        intros rawName tok Hbody _.
        exact (joinsAs_good wsTag now msg uuid rawName tok Hal Hbody).
      + now rewrite dispatch_proto.
    - intros wsTag c Hc. destruct (Hkeeps c Hc) as (Ha & Hb & Hp).
      apply Hback.
      + now apply onPlayerClose_inv.
      + destruct Hb as [Hb1 Hb2].
        exact (proj1 (onPlayerClose_all notProto wsTag c Hb1 Hb2)).
      + rewrite onPlayerClose_proto; [exact Hp|].
        destruct Hb as [[[Hn _] _] _]. exact Hn.
    - intros c Hc. destruct (Hkeeps c Hc) as (Ha & Hb & Hp).
      apply Hback.
      + now apply (endRound_keeps roomInv roomInv_same).
      + now apply (endRound_all notProto).
      + now rewrite (proj2 (endRound_alarm c)).
    - exact Hjoin.
    - split; [split; intros s' Hs'; discriminate Hs' | reflexivity]. }
  assert (Hinv : I s).
  { destruct Hs as [Hs|Hs]; [now apply (holds_stateOf I P d s Hd)|].
    now apply Hd. }
  destruct Hinv as [(I1 & I2 & I3 & I4 & I5 & _) [Hn _]].
  rewrite len_keys. repeat split; auto.
  - intros Hst. now apply I5.
  - intros Hin. now apply (Hn "__proto__" Hin).
  - apply Hd.
Qed.

Lemma X12_room_invariants_witness :
  List.NoDup (List.map name
                (Obj.values (players (default Sample.lobby
                                        (stateOf Sample.roomOver))))).
Proof.
  apply (X12_room_invariants
           [ReqInit "ABC234" Sample.quiz [] [] "secret";
            ReqUpgrade "host" (Some "secret") "";
            ReqEvent (EvMessage "player-ann" 10
                        (Sample.say (player_join (Some "ann") None))
                        "tok-ann");
            ReqEvent (EvMessage "player-bob" 20
                        (Sample.say (player_join (Some "bob") None))
                        "tok-bob");
            ReqEvent (EvMessage "host" 1000
                        (Sample.say (host_startGame None)) "");
            ReqEvent (EvMessage "player-ann" 6000
                        (Sample.say (player_answer (Some "q1") (Some "b")))
                        "");
            ReqEvent (EvMessage "player-bob" 9000
                        (Sample.say (player_answer (Some "q1") (Some "a")))
                        "");
            ReqEvent (EvMessage "host" 12000 (Sample.say (host_next None)) "");
            ReqEvent (EvMessage "player-ann" 13000
                        (Sample.say (player_answer (Some "q2") (Some "a")))
                        "");
            ReqEvent (EvMessage "player-bob" 15000
                        (Sample.say (player_answer (Some "q2") (Some "a")))
                        "");
            ReqEvent (EvMessage "host" 20000 (Sample.say (host_next None)) "")]
           (default Sample.lobby (stateOf Sample.roomOver))).
  - vm_compute. reflexivity.
  - vm_compute. reflexivity.
  - left. vm_compute. reflexivity.
Defined.

(* ------------------------------------------------------------------ *)
(** ** A room that is gone *)

Lemma stateOf_None d :
  stateOf d = None <-> _state d = None /\ storage_gs d = None.
Proof.
  unfold stateOf. destruct (_state d); [|tauto].
  split; [discriminate | intros [H _]; discriminate H].
Qed.

Lemma serve_gone r d :
  isInit r = false -> stateOf d = None ->
  stateOf (serve r d) = None
  /\ storage_alarm (serve r d) = storage_alarm d.
Proof.
  intros Hr Hd. pose proof Hd as Hd'. apply stateOf_None in Hd' as [H1 H2].
  destruct d as [ms rm sg al pr]. cbn [_state storage_gs] in H1, H2. subst ms sg.
  destruct r as [e | gameId payload drawsQ drawsA uuid | | role secret uuid | ];
    cbn [serve]; try discriminate Hr.
  - destruct e as [wsTag now message uuid | wsTag | ]; cbn [step].
    + unfold webSocketMessage. cbn [_state _wsRateMap storage_gs storage_alarm _proto].
      destruct (30 <? _); cbn [do_of]; split; reflexivity.
    + split; reflexivity.
    + split; reflexivity.
  - split; reflexivity.
  - unfold fetchUpgrade. destruct (String.eqb role "host"); split; reflexivity.
  - split; reflexivity.
Qed.

Lemma serveAll_gone rs : forall d,
  List.forallb (fun r => negb (isInit r)) rs = true ->
  stateOf d = None ->
  stateOf (serveAll rs d) = None
  /\ storage_alarm (serveAll rs d) = storage_alarm d.
Proof.
  induction rs as [|r rs IH]; intros d Hrs Hd; [split; [exact Hd | reflexivity]|].
  cbn [List.forallb] in Hrs. apply andb_prop in Hrs as [Hr Hrs].
  apply negb_true_iff in Hr.
  destruct (serve_gone r d Hr Hd) as [H1 H2].
  cbn [serveAll List.fold_left]. destruct (IH (serve r d) Hrs H1) as [H3 H4].
  split; [exact H3 | rewrite <- H2; exact H4].
Qed.

(** X13. A room that does not exist (never created, torn down by the
    host's disconnect, or cleaned up after the game) stays that way
    whatever arrives, short of a new init: messages, closes, alarms,
    status checks and upgrades leave it without state and leave the alarm
    as it is.  Such a room answers a message by closing the socket with
    code 1011 (or not at all when the sender is rate limited), sends
    nothing on a close or an alarm, reports "not found" to the status
    check and refuses the host upgrade with 404. *)
Theorem X13_gone_room_stays_gone (rs : list Request) (d : DO) :
  List.forallb (fun r => negb (isInit r)) rs = true ->
  stateOf d = None ->
  let d' := serveAll rs d in
  stateOf d' = None
  /\ storage_alarm d' = storage_alarm d
  /\ (forall wsTag now message uuid,
        effects_of (webSocketMessage wsTag now message uuid d')
        = if 30 <? Js.len (hitsAfter wsTag now d') then []
          else [CloseWs wsTag 1011])
  /\ (forall wsTag, snd (webSocketClose wsTag d') = [])
  /\ effects_of (alarm d') = []
  /\ snd (fetchStatus d') = room_not_found
  /\ (forall secret uuid,
        snd (fetchUpgrade "host" secret uuid d') = upgrade_404)
  /\ (forall d0,
        stateOf (serveAll rs (fst (webSocketClose "host" d0))) = None).
Proof.
  intros Hrs Hd d'.
  destruct (serveAll_gone rs d Hrs Hd) as [H1 H2]. fold d' in H1, H2.
  split; [exact H1|]. split; [exact H2|].
  split.
  { intros wsTag now message uuid. unfold webSocketMessage.
    fold (hitsAfter wsTag now d').
    destruct (30 <? Js.len (hitsAfter wsTag now d')); [reflexivity|].
    unfold getState, stateOf in *. cbn [_state storage_gs].
    apply stateOf_None in H1 as [-> ->]. reflexivity. }
  split.
  { intros wsTag. unfold webSocketClose, getState. now rewrite H1. }
  split.
  { unfold alarm, getState. now rewrite H1. }
  split.
  { unfold fetchStatus, getState. now rewrite H1. }
  split.
  { intros secret uuid. unfold fetchUpgrade, getState.
    cbn [String.eqb Ascii.eqb Bool.eqb]. now rewrite H1. }
  intros d0. apply serveAll_gone; [exact Hrs|].
  unfold webSocketClose, getState.
  destruct (stateOf d0) as [s|] eqn:Hs; cbn [fst String.eqb Ascii.eqb Bool.eqb].
  - reflexivity.
  - unfold stateOf in *. cbn [_state storage_gs].
    destruct (_state d0); [discriminate Hs | exact Hs].
Qed.

Lemma X13_gone_room_stays_gone_witness :
  stateOf
    (serveAll
       [ReqEvent (EvMessage "player-ann" 10
                    (Sample.say (player_join (Some "ann") None)) "tok");
        ReqUpgrade "host" (Some "secret") ""; ReqEvent EvAlarm; ReqStatus]
       (fst (webSocketClose "host" Sample.room6))) = None.
Proof.
  apply (X13_gone_room_stays_gone
           [ReqEvent (EvMessage "player-ann" 10
                        (Sample.say (player_join (Some "ann") None)) "tok");
            ReqUpgrade "host" (Some "secret") ""; ReqEvent EvAlarm; ReqStatus]
           (fst (webSocketClose "host" Sample.room6))).
  - vm_compute. reflexivity.
  - vm_compute. reflexivity.
Defined.

(* ------------------------------------------------------------------ *)
(** ** The end of the game *)

Lemma at_index_None {T} (l : list T) i :
  Js.len l <= i -> Js.at_index l i = None.
Proof.
  unfold Js.at_index, Js.len. intros H.
  destruct (i <? 0) eqn:E; [reflexivity|].
  apply List.nth_error_None. apply Z.ltb_ge in E. lia.
Qed.

Lemma startQuestion_last now imageData c :
  Js.len (questions (st c)) <= currentIndex (st c) + 1 ->
  startQuestion now imageData c
  = Done (mkCtx
            (set_started false
               (set_currentIndex (currentIndex (st c) + 1) (st c)))
            (Some (set_started false
                     (set_currentIndex (currentIndex (st c) + 1) (st c))))
            (Some (now + 60000))
            (out c ++ [Broadcast (game_over (getLeaderboard (st c)))])%list
            (proto c)).
Proof.
  intros H. destruct c as [[gid ttl qs ps dps stt psd ci rd ht hs] g a o pr].
  unfold startQuestion, endGame, broadcast, emit, saveState, setAlarm, mutate.
  cbn [st gs alarmAt out questions currentIndex set_currentIndex] in *.
  apply Z.leb_le in H. rewrite H. reflexivity.
Qed.

(** X14. When the host asks for the next question and none is left, the
    game is over: the final leaderboard is broadcast, the state is saved
    with [started] false, and the cleanup is scheduled one minute later.
    If no round was open, that alarm deletes the room, which is then
    reported as not found.  If a round was still open (the host skipped
    the last question), the round is left in the state: the alarm does not
    delete the room, and unless the game is paused it fails in endRound,
    there being no current question. *)
Theorem X14_game_over_cleanup (now : Z) (img : option string)
    (reqId_ : option Z) (uuid : string) (d : DO) (s : GameState) :
  stateOf d = Some s ->
  Js.len (hitsAfter "host" now d) <= 30 ->
  Js.len (questions s) <= currentIndex s + 1 ->
  let res := webSocketMessage "host" now
               (Some (mkMessage (host_next img) reqId_)) uuid d in
  let s' := set_started false (set_currentIndex (currentIndex s + 1) s) in
  let after := fireAlarm (do_of res) in
  res = Returned (do_of res) [Broadcast (game_over (getLeaderboard s))]
  /\ stateOf (do_of res) = Some s'
  /\ storage_gs (do_of res) = Some s'
  /\ storage_alarm (do_of res) = Some (now + 60000)
  /\ (round s = None ->
      after = Returned (do_of after) []
      /\ stateOf (do_of after) = None
      /\ storage_alarm (do_of after) = None
      /\ snd (fetchStatus (do_of after)) = room_not_found)
  /\ (round s <> None ->
      storage_gs (do_of after) = Some s'
      /\ (paused s = false -> exists d2 e, after = Raised d2 e)).
Proof.
  intros Hs Hrate Hlast res s' after.
  assert (Hres : res = Returned
                   (mkDO (Some s')
                      (<["host" := hitsAfter "host" now d]> (_wsRateMap d))
                      (Some s') (Some (now + 60000)) (protoOf d))
                   [Broadcast (game_over (getLeaderboard s))]).
  { unfold res. rewrite (webSocketMessage_dispatch _ _ _ _ _ s Hs Hrate).
    unfold dispatch. cbn [body]. unfold onHostNext.
    cbn [String.eqb Ascii.eqb Bool.eqb negb].
    rewrite startQuestion_last by exact Hlast. reflexivity. }
  assert (Hq : Js.at_index (questions s') (currentIndex s') = None).
  { apply at_index_None. destruct s; exact Hlast. }
  unfold after. rewrite Hres. cbn [do_of].
  split; [reflexivity|]. split; [reflexivity|]. split; [reflexivity|].
  split; [reflexivity|].
  unfold fireAlarm, alarm, getState, stateOf.
  cbn [_state _wsRateMap storage_gs storage_alarm _proto].
  assert (Hr : round s' = round s) by (destruct s; reflexivity).
  assert (Hp : paused s' = paused s) by (destruct s; reflexivity).
  rewrite Hr, Hp. split.
  - intros Hnone. rewrite Hnone. cbn [do_of]. repeat split.
  - intros Hsome. destruct (round s) as [r|] eqn:E; [clear Hsome|congruence].
    destruct (paused s).
    + split; [reflexivity | discriminate].
    + unfold endRound, enter. cbn [st storage_gs storage_alarm _proto].
      rewrite Hr, Hq. cbn [leave do_of leaveCtx storage_gs gs mutate].
      split; [reflexivity|]. intros _. eauto.
Qed.

Lemma X14_game_over_cleanup_witness :
  stateOf (do_of (fireAlarm
                    (do_of (webSocketMessage "host" 20000
                              (Some (mkMessage (host_next None) None)) ""
                              Sample.room8)))) = None.
Proof.
  assert (H1 : stateOf Sample.room8
               = Some (default Sample.lobby (stateOf Sample.room8)))
    by (vm_compute; reflexivity).
  assert (H2 : Js.len (hitsAfter "host" 20000 Sample.room8) <= 30)
    by (vm_compute; discriminate).
  assert (H3 : Js.len (questions (default Sample.lobby
                                    (stateOf Sample.room8)))
               <= currentIndex (default Sample.lobby
                                  (stateOf Sample.room8)) + 1)
    by (vm_compute; discriminate).
  destruct (X14_game_over_cleanup 20000 None None "" Sample.room8 _
              H1 H2 H3) as (_ & _ & _ & _ & H & _).
  apply H. vm_compute. reflexivity.
Defined.

(* ------------------------------------------------------------------ *)
(** ** What the reveal carries *)

(** The reveal broadcast by endRound, spelled out. *)
Lemma endRound_reveal c r q :
  round (st c) = Some r ->
  Js.at_index (questions (st c)) (currentIndex (st c)) = Some q ->
  revealable q (Obj.values (players (st c))) = true ->
  let vals :=
    Obj.values (Obj.each (scorePlayer q (endMs r)) (players (st c))) in
  exists c' choices tail,
    endRound c = Done c'
    /\ players (st c') = Obj.each (scorePlayer q (endMs r)) (players (st c))
    /\ out c'
       = (out c
          ++ Broadcast
               (question_reveal
                  (mkReveal (correctOptionIds q) (currentIndex (st c))
                     (Js.len (questions (st c))) (getLeaderboard (st c'))
                     (List.map
                        (fun opt => Js.len (choosers (o_id opt) vals))
                        (options q))
                     choices (percentCorrect vals)
                     (fastestName vals))) :: tail)%list
    /\ forall k,
         Obj.get choices k
         = if existsb (fun opt => String.eqb (o_id opt) k) (options q)
           then Some (voters k vals) else None.
Proof.
  intros Hr Hq Hrev vals. rewrite (endRound_eq c r q Hr Hq). cbv zeta.
  assert (Hrev' : revealable q vals = true)
    by (unfold vals; now rewrite revealable_scored).
  assert (Hvals : Obj.values (players (st (scoredCtx q r c))) = vals)
    by reflexivity.
  rewrite Hvals.
  destruct (playerChoices_typed q vals Hrev') as (choices & -> & Hch).
  apply revealable_true in Hrev'. destruct Hrev' as [Hno _].
  rewrite (revealCounts_typed q vals Hno).
  destruct c as [[gid ttl qs ps dps stt psd ci rd ht hs] g a o pr].
  unfold scoredCtx, toHost, toTag, emit, saveState, mutate, broadcast. cbn.
  destruct ht as [h|]; [destruct (Js.truthy h)|];
    eexists; exists choices; eexists;
    (split; [reflexivity|]); (split; [reflexivity|]);
    (split; [|exact Hch]);
    cbn; try rewrite <- List.app_assoc; try reflexivity.
  all: rewrite <- (List.app_nil_r (o ++ _)) at 1;
    rewrite <- List.app_assoc; reflexivity.
Qed.

Lemma scorePlayer_lastCorrect q e p t :
  answeredAtMs p = Some t ->
  lastCorrect (scorePlayer q e p) = true <-> correctAt q p t.
Proof.
  intros Ht. unfold scorePlayer, correctAt. rewrite Ht.
  destruct (selectedOptionId p) as [o|].
  - destruct (Js.includes (correctOptionIds q) o) eqn:E; cbn.
    + split; [|reflexivity]. intros _. exists o.
      repeat split. now apply includes_In.
    + split; [discriminate|]. intros (o' & [= <-] & Hin & _).
      apply includes_In in Hin. congruence.
  - cbn. split; [discriminate|]. intros (o' & Ho & _). discriminate Ho.
Qed.

Lemma fastest_loop (vals : list Player) :
  match List.fold_left fastestStep vals (None, None) with
  | (None, None) =>
      forall p t, In p vals -> lastCorrect p = true ->
                  answeredAtMs p = Some t -> False
  | (Some t, Some n) =>
      exists l1 p l2,
        vals = (l1 ++ p :: l2)%list /\ name p = n
        /\ lastCorrect p = true /\ answeredAtMs p = Some t
        /\ (forall p' t', In p' l1 -> lastCorrect p' = true ->
              answeredAtMs p' = Some t' -> t < t')
        /\ (forall p' t', In p' l2 -> lastCorrect p' = true ->
              answeredAtMs p' = Some t' -> t <= t')
  | _ => False
  end.
Proof.
  induction vals as [|x vals IH] using List.rev_ind.
  - cbn. intros p t [].
  - rewrite List.fold_left_app. cbn [List.fold_left].
    destruct (List.fold_left fastestStep vals (None, None)) as [[m|] [n|]];
      try contradiction; unfold fastestStep; cbn [fst].
    + destruct IH as (l1 & p & l2 & -> & Hn & Hc & Ht & Hl & Hr).
      destruct (lastCorrect x) eqn:Hx;
        [destruct (answeredAtMs x) as [t|] eqn:Hxt;
         [destruct (t <? m) eqn:Hlt|]|].
      * apply Z.ltb_lt in Hlt.
        exists (l1 ++ p :: l2)%list, x, []. repeat split; auto.
        -- intros p' t' Hin Hc' Ht'. apply List.in_app_or in Hin.
           destruct Hin as [Hin|[<-|Hin]].
           ++ specialize (Hl p' t' Hin Hc' Ht'). lia.
           ++ rewrite Ht in Ht'. injection Ht' as <-. exact Hlt.
           ++ specialize (Hr p' t' Hin Hc' Ht'). lia.
        -- intros p' t' [].
      * apply Z.ltb_ge in Hlt.
        exists l1, p, (l2 ++ [x])%list. rewrite <- List.app_assoc.
        repeat split; auto.
        intros p' t' Hin Hc' Ht'. apply List.in_app_or in Hin.
        destruct Hin as [Hin|[<-|[]]]; [eauto|].
        rewrite Hxt in Ht'. injection Ht' as <-. exact Hlt.
      * exists l1, p, (l2 ++ [x])%list. rewrite <- List.app_assoc.
        repeat split; auto.
        intros p' t' Hin Hc' Ht'. apply List.in_app_or in Hin.
        destruct Hin as [Hin|[<-|[]]]; [eauto | congruence].
      * exists l1, p, (l2 ++ [x])%list. rewrite <- List.app_assoc.
        repeat split; auto.
        intros p' t' Hin Hc' Ht'. apply List.in_app_or in Hin.
        destruct Hin as [Hin|[<-|[]]]; [eauto | congruence].
    + destruct (lastCorrect x) eqn:Hx;
        [destruct (answeredAtMs x) as [t|] eqn:Hxt|].
      * exists vals, x, []. repeat split; auto.
        -- intros p' t' Hin Hc' Ht'. exfalso. eauto.
        -- intros p' t' [].
      * intros p t Hin Hc Ht. apply List.in_app_or in Hin.
        destruct Hin as [Hin|[<-|[]]]; [eauto | congruence].
      * intros p t Hin Hc Ht. apply List.in_app_or in Hin.
        destruct Hin as [Hin|[<-|[]]]; [eauto | congruence].
Qed.

Lemma fastestName_None vals :
  fastestName vals = None <->
  (forall p t, In p vals -> lastCorrect p = true ->
               answeredAtMs p = Some t -> False).
Proof.
  unfold fastestName. fold fastestStep.
  pose proof (fastest_loop vals) as H.
  destruct (List.fold_left fastestStep vals (None, None)) as [[m|] [n|]];
    try contradiction; cbn [snd].
  - split; [discriminate|]. intros Hno.
    destruct H as (l1 & p & l2 & -> & _ & Hc & Ht & _).
    exfalso. apply (Hno p m); auto. apply List.in_elt.
  - split; [intros _; exact H | reflexivity].
Qed.

Lemma fastestName_Some vals n :
  fastestName vals = Some n ->
  exists l1 p l2 t,
    vals = (l1 ++ p :: l2)%list /\ name p = n
    /\ lastCorrect p = true /\ answeredAtMs p = Some t
    /\ (forall p' t', In p' l1 -> lastCorrect p' = true ->
          answeredAtMs p' = Some t' -> t < t')
    /\ (forall p' t', In p' l2 -> lastCorrect p' = true ->
          answeredAtMs p' = Some t' -> t <= t').
Proof.
  unfold fastestName. fold fastestStep.
  pose proof (fastest_loop vals) as H.
  destruct (List.fold_left fastestStep vals (None, None)) as [[m|] [n'|]];
    try contradiction; cbn [snd]; intros [= <-].
  destruct H as (l1 & p & l2 & H). exists l1, p, l2, m. exact H.
Qed.


(** X15. The fastest responder named in the reveal is the player who gave
    a correct answer at the earliest time, the first such player in the
    order of the roster when several answered at that time; no name is
    given exactly when nobody answered correctly.  (The reveal is sent
    when its tallies can be built.) *)
Theorem X15_reveal_fastest (c : Ctx) (r : RoundState) (q : QuizQuestion) :
  round (st c) = Some r ->
  Js.at_index (questions (st c)) (currentIndex (st c)) = Some q ->
  revealable q (Obj.values (players (st c))) = true ->
  exists c' rv tail,
    endRound c = Done c'
    /\ out c' = (out c ++ Broadcast (question_reveal rv) :: tail)%list
    /\ (rv_fastestName rv = None <->
        forall p t, In p (Obj.values (players (st c))) -> ~ correctAt q p t)
    /\ (forall n, rv_fastestName rv = Some n ->
        exists l1 p l2 t,
          Obj.values (players (st c)) = (l1 ++ p :: l2)%list
          /\ name p = n /\ correctAt q p t
          /\ (forall p' t', In p' l1 -> correctAt q p' t' -> t < t')
          /\ (forall p' t', In p' l2 -> correctAt q p' t' -> t <= t')).
Proof.
  intros Hr Hq Hrev.
  destruct (endRound_reveal c r q Hr Hq Hrev)
    as (c' & choices & tail & He & _ & Ho & _).
  eexists c', _, tail. split; [exact He|]. split; [exact Ho|].
  cbn [rv_fastestName]. rewrite values_each.
  set (f := scorePlayer q (endMs r)).
  assert (Hf : forall p t, answeredAtMs p = Some t ->
                 lastCorrect (f p) = true <-> correctAt q p t)
    by (intros; now apply scorePlayer_lastCorrect).
  assert (Hc : forall p t, correctAt q p t -> answeredAtMs p = Some t)
    by (intros p t (o & _ & _ & H); exact H).
  split.
  - rewrite fastestName_None. split.
    + intros H p t Hin Hcor. apply (H (f p) t).
      * now apply List.in_map.
      * apply (Hf p t); auto.
      * unfold f. rewrite scorePlayer_answeredAt. auto.
    + intros H p' t Hin Hl Ht. apply List.in_map_iff in Hin.
      destruct Hin as (p & <- & Hin). unfold f in Ht.
      rewrite scorePlayer_answeredAt in Ht.
      apply (H p t Hin). now apply Hf.
  - intros n Hn. apply fastestName_Some in Hn.
    destruct Hn as (l1 & p' & l2 & t & Hsplit & Hname & Hl & Ht & H1 & H2).
    apply List.map_eq_app in Hsplit.
    destruct Hsplit as (k1 & k2 & Hvals & <- & Hk2).
    apply List.map_eq_cons in Hk2.
    destruct Hk2 as (p & k3 & -> & <- & <-).
    unfold f in Hname, Ht. rewrite name_scorePlayer in Hname.
    rewrite scorePlayer_answeredAt in Ht.
    exists k1, p, k3, t. split; [exact Hvals|]. split; [exact Hname|].
    split; [now apply Hf|]. split.
    + intros p0 t0 Hin Hcor. apply (H1 (f p0) t0).
      * now apply List.in_map.
      * apply (Hf p0 t0); auto.
      * unfold f. rewrite scorePlayer_answeredAt. auto.
    + intros p0 t0 Hin Hcor. apply (H2 (f p0) t0).
      * now apply List.in_map.
      * apply (Hf p0 t0); auto.
      * unfold f. rewrite scorePlayer_answeredAt. auto.
Qed.

Lemma X15_reveal_fastest_witness :
  exists c', endRound (Sample.ctxOf Sample.room5) = Done c'.
Proof.
  assert (H1 : round (st (Sample.ctxOf Sample.room5))
               = Some (mkRound 1000 21000 ["player-bob"] None))
    by (vm_compute; reflexivity).
  assert (H2 : Js.at_index (questions (st (Sample.ctxOf Sample.room5)))
                 (currentIndex (st (Sample.ctxOf Sample.room5)))
               = Some Sample.q1)
    by (vm_compute; reflexivity).
  destruct (X15_reveal_fastest _ _ _ H1 H2 eq_refl) as (c' & _ & _ & H & _).
  exists c'. exact H.
Defined.










(* ------------------------------------------------------------------ *)
(** ** Names are sanitized everywhere *)

(** X17. Every name a room ever holds, of a connected player, in the
    snapshot of a disconnected one or in the copy that serves as prototype
    of the snapshots, is a name as sanitizeName leaves it: not empty, at
    most 24 characters long, made of word characters, white space and
    [-'.!] only (so without ["<"] and [">"]) and without white space at
    either end.  This holds in every state reached from the creation of
    the room, whatever the players send as their name, as long as no
    request makes a handler go on with a value outside the declared
    types. *)
Theorem X17_names_always_sanitized (rs : list Request) (s : GameState)
    (p : Player) :
  let d := serveAll rs (mkDO None ∅ None None None) in
  typedRun rs (mkDO None ∅ None None None) = true ->
  stateOf d = Some s \/ storage_gs d = Some s ->
  In p (Obj.values (players s))
  \/ (exists k, disconnectedPlayers s !! k = Some p)
  \/ _proto d = Some p ->
  name p <> ""
  /\ sanitizeName (name p) = name p
  /\ (String.length (name p) <= 24)%nat
  /\ allChars is_safe (name p) = true
  /\ allChars (fun c => negb (Ascii.eqb c "<") && negb (Ascii.eqb c ">"))
       (name p) = true
  /\ (forall c, firstChar (name p) = Some c -> is_space c = false)
  /\ (forall c, lastChar (name p) = Some c -> is_space c = false).
Proof.
  intros d _ Hs Hp.
  assert (Hd : doKeeps (namesAll cleanName) (protoHolds cleanName) d).
  { apply (serveAll_holds _ _ (fun _ => true)).
    - apply createGameState_all.
    - intros h s0. now apply namesAll_same.
    - apply protoHolds_None.
    - intros wsTag now msg uuid c _. apply dispatch_all.
      intros rawName tok _ Hne. split; [exact Hne | apply sanitizeName_idem].
    - intros wsTag c [Hc Hpr]. now apply onPlayerClose_all.
    - apply endRound_all.
    - apply forallb_true.
    - split; [split; intros s' Hs'; discriminate Hs'|].
      apply protoHolds_None. }
  assert (Hinv : namesAll cleanName s).
  { destruct Hs as [Hs|Hs]; [|now apply Hd].
    exact (holds_stateOf _ _ d s Hd Hs). }
  assert (Hc : cleanName (name p)).
  { destruct Hinv as [Hn Hdp]. destruct Hp as [Hin | [[k Hk] | Hpr]].
    - apply Hn. unfold namesOf. now apply List.in_map.
    - eapply Hdp; eauto.
    - destruct Hd as [_ Hpd]. now apply Hpd. }
  destruct Hc as [Hne Hfix]. split; [exact Hne|]. split; [exact Hfix|].
  rewrite <- Hfix. apply sanitizeName_shape.
Qed.

Lemma X17_names_always_sanitized_witness :
  sanitizeName "ann" = "ann".
Proof.
  refine (proj1 (proj2
    (X17_names_always_sanitized
       [ReqInit "ABC234" Sample.quiz [] [] "secret";
        ReqEvent (EvMessage "player-ann" 10
                    (Sample.say (player_join (Some " <b>ann</b> ") None))
                    "tok-ann")]
       (mkState "ABC234" "Sums" [Sample.q1; Sample.q2]
          [("player-ann", mkPlayer "ann" 0 None None false 0 0 "tok-ann")]
          ∅ false false (-1) None None "secret")
       (mkPlayer "ann" 0 None None false 0 0 "tok-ann") _ _ _))).
  - vm_compute. reflexivity.
  - left. vm_compute. reflexivity.
  - left. cbn. left. reflexivity.
Defined.

(* ------------------------------------------------------------------ *)
(** ** A player leaves during a question *)

Lemma onPlayerClose_round wsTag c r p :
  round (st c) = Some r -> Obj.get (players (st c)) wsTag = Some p ->
  let rest := Obj.del (players (st c)) wsTag in
  let s' :=
    set_round
      (match rest with
       | [] => None
       | _ => Some (set_awaiting
                      (List.filter (fun t => negb (String.eqb t wsTag))
                         (awaiting r)) r)
       end)
      (set_players rest
         (set_disconnectedPlayers
            (if started (st c) && negb (String.eqb (name p) "__proto__")
             then <[name p := p]> (disconnectedPlayers (st c))
             else disconnectedPlayers (st c)) (st c))) in
  onPlayerClose wsTag c
  = mkCtx s' (Some s')
      (match rest with [] => None | _ => alarmAt c end)
      (out c ++ [Broadcast (lobby_update (List.map name (Obj.values rest))
                              (g_id (st c)) (title (st c)))])%list
      (if started (st c) && String.eqb (name p) "__proto__"
       then Some p else proto c).
Proof.
  intros Hr Hg. unfold onPlayerClose. rewrite Hg.
  destruct c as [[gid ttl qs ps dps stt psd ci rd ht hs] g a o pr].
  cbn [st round players started] in Hr, Hg |- *. subst rd.
  destruct stt; [destruct (String.eqb (name p) "__proto__")|];
    cbn [andb negb];
    unfold broadcastLobby, broadcast, emit, saveState, deleteAlarm, mutate,
      setProto;
    cbn [st gs alarmAt out proto players started round disconnectedPlayers
         set_players set_disconnectedPlayers set_round g_id title];
    unfold Obj.keys;
    destruct (Obj.del ps wsTag) as [|kv rest'];
    reflexivity.
Qed.

(** X18. When a player's socket closes while a question is open, the
    player is removed, the roster is broadcast and the state is saved, but
    no reveal is sent and nobody is scored.  If players remain, the round
    stays open with the leaver no longer awaited, even when that leaves
    nobody awaited, and the alarm is untouched: the round then closes at
    the alarm.  If the leaver was the last player, the round is dropped
    and the alarm cancelled. *)
Theorem X18_player_leaves_mid_round (wsTag : string) (d : DO)
    (s : GameState) (r : RoundState) (p : Player) :
  stateOf d = Some s -> wsTag <> "host" ->
  round s = Some r -> Obj.get (players s) wsTag = Some p ->
  let d' := fst (webSocketClose wsTag d) in
  let rest := Obj.del (players s) wsTag in
  exists s',
    stateOf d' = Some s' /\ storage_gs d' = Some s'
    /\ players s' = rest
    /\ snd (webSocketClose wsTag d)
       = [Broadcast (lobby_update (List.map name (Obj.values rest))
                       (g_id s) (title s))]
    /\ (rest <> [] ->
        round s'
        = Some (set_awaiting
                  (List.filter (fun t => negb (String.eqb t wsTag))
                     (awaiting r)) r)
        /\ storage_alarm d' = storage_alarm d)
    /\ (rest = [] -> round s' = None /\ storage_alarm d' = None).
Proof.
  intros Hs Hne Hr Hg d' rest. unfold d', webSocketClose, getState.
  rewrite Hs. apply String.eqb_neq in Hne. rewrite Hne.
  rewrite (onPlayerClose_round wsTag
             (enter (mkDO (Some s) (_wsRateMap d) (storage_gs d)
                       (storage_alarm d) (protoOf d)) s) r p Hr Hg).
  unfold enter. cbn [st out alarmAt app fst snd leaveCtx]. fold rest.
  eexists. split; [reflexivity|]. split; [reflexivity|].
  split; [reflexivity|]. split; [reflexivity|].
  cbn [storage_gs storage_alarm round set_round].
  destruct rest; split; intros H; try congruence; split; reflexivity.
Qed.

Lemma X18_player_leaves_mid_round_witness :
  exists s', stateOf (fst (webSocketClose "player-bob" Sample.room5))
             = Some s'.
Proof.
  assert (H1 : stateOf Sample.room5
               = Some (default Sample.lobby (stateOf Sample.room5)))
    by (vm_compute; reflexivity).
  assert (H2 : "player-bob" <> "host") by discriminate.
  assert (H3 : round (default Sample.lobby (stateOf Sample.room5))
               = Some (mkRound 1000 21000 ["player-bob"] None))
    by (vm_compute; reflexivity).
  assert (H4 : Obj.get (players (default Sample.lobby
                                   (stateOf Sample.room5))) "player-bob"
               = Some (mkPlayer "bob" 0 None None false 0 0 "tok-bob"))
    by (vm_compute; reflexivity).
  destruct (X18_player_leaves_mid_round _ _ _ _ _ H1 H2 H3 H4)
    as (s' & H & _).
  exists s'. exact H.
Defined.

(* ------------------------------------------------------------------ *)
(** ** Room codes *)

(** The characters of a room code: upper-case letters and digits other
    than 0, 1, I, L and O. *)
Lemma code_char (b : Byte.byte) :
  exists c,
    charAt CODE_ALPHABET
      (N.to_nat (Byte.to_N b mod N.of_nat (String.length CODE_ALPHABET)))
    = String c ""
    /\ (nat_in 65 90 c || nat_in 48 57 c) = true
    /\ nat_in 97 122 c = false
    /\ existsb (Ascii.eqb c) ["0"; "1"; "I"; "L"; "O"]%char = false.
Proof.
  destruct b; eexists; (split; [reflexivity|]); repeat split.
Qed.

Lemma generateGameId_chars (bytes : list Byte.byte) :
  String.length (generateGameId bytes) = List.length bytes
  /\ allChars (fun c => nat_in 65 90 c || nat_in 48 57 c)
       (generateGameId bytes) = true
  /\ allChars (fun c => negb (nat_in 97 122 c)) (generateGameId bytes) = true
  /\ allChars
       (fun c => negb (existsb (Ascii.eqb c) ["0"; "1"; "I"; "L"; "O"]%char))
       (generateGameId bytes) = true.
Proof.
  unfold generateGameId. induction bytes as [|b bytes IH];
    [repeat split|].
  cbn [List.map List.fold_right List.length].
  destruct (code_char b) as (c & -> & H1 & H2 & H3).
  destruct IH as (L & A1 & A2 & A3).
  set (rest := List.fold_right String.append "" _) in *.
  change (String.append (String c "") rest) with (String c rest).
  cbn [String.length allChars].
  rewrite L, A1, A2, A3, H1, H2, H3. repeat split.
Qed.

Lemma toUpperCase_id (s : string) :
  allChars (fun c => negb (nat_in 97 122 c)) s = true -> toUpperCase s = s.
Proof.
  unfold toUpperCase. induction s as [|c r IH]; cbn [mapChars allChars];
    [reflexivity|].
  rewrite andb_true_iff, negb_true_iff. intros [-> Hr]. now rewrite IH.
Qed.

(** X19. A room code generated from six random bytes has six characters,
    all upper-case letters or digits and none of 0, 1, I, L, O; upper-casing
    leaves it as it is, and the [exists] route accepts it and looks up the
    room under that very code. *)
Theorem X19_generated_code_is_accepted (bytes : list Byte.byte) :
  List.length bytes = 6%nat ->
  let gameId := generateGameId bytes in
  String.length gameId = 6%nat
  /\ allChars
       (fun c => negb (existsb (Ascii.eqb c) ["0"; "1"; "I"; "L"; "O"]%char))
       gameId = true
  /\ toUpperCase gameId = gameId
  /\ isRoomCode gameId = true
  /\ existsRouteCode gameId = Some gameId.
Proof.
  intros Hlen gameId.
  destruct (generateGameId_chars bytes) as (L & A1 & A2 & A3).
  fold gameId in L, A1, A2, A3. rewrite Hlen in L.
  assert (Hup : toUpperCase gameId = gameId) by now apply toUpperCase_id.
  assert (Hcode : isRoomCode gameId = true)
    by (unfold isRoomCode; now rewrite L, A1).
  repeat split; auto.
  unfold existsRouteCode. rewrite Hup, Hcode.
  destruct gameId; [discriminate L | reflexivity].
Qed.

Lemma X19_generated_code_is_accepted_witness :
  existsRouteCode "ABCDEF" = Some "ABCDEF".
Proof.
  apply (X19_generated_code_is_accepted
           [Byte.x00; Byte.x01; Byte.x02; Byte.x03; Byte.x04; Byte.x05]).
  reflexivity.
Defined.

(* ------------------------------------------------------------------ *)
(** ** File names of the packer *)

Lemma mapChars_length f s : String.length (mapChars f s) = String.length s.
Proof. induction s as [|c r IH]; cbn; [reflexivity | now rewrite IH]. Qed.

Lemma mapChars_allChars (f : ascii -> ascii) (g : ascii -> bool) s :
  (forall c, g (f c) = true) -> allChars g (mapChars f s) = true.
Proof.
  intros H. induction s as [|c r IH]; cbn; [reflexivity|].
  now rewrite H, IH.
Qed.

Lemma mapChars_id (f : ascii -> ascii) (g : ascii -> bool) s :
  (forall c, g c = true -> f c = c) ->
  allChars g s = true -> mapChars f s = s.
Proof.
  intros H. induction s as [|c r IH]; cbn; [reflexivity|].
  rewrite andb_true_iff. intros [Hc Hr]. now rewrite (H c Hc), IH.
Qed.

Lemma sliceTo_length_min n s :
  String.length (sliceTo n s) = Nat.min n (String.length s).
Proof.
  revert s. induction n as [|n IH]; intros [|c r]; cbn; try reflexivity.
  now rewrite IH.
Qed.

Lemma filename_char_word c :
  is_filename_char c
  = (is_word c || Ascii.eqb c "." || Ascii.eqb c "-")%bool.
Proof.
  unfold is_filename_char, is_word.
  destruct (nat_in 97 122 c), (nat_in 65 90 c), (nat_in 48 57 c),
    (Ascii.eqb c "."), (Ascii.eqb c "_"), (Ascii.eqb c "-"); reflexivity.
Qed.

Lemma sanitizeFilename_chars name :
  allChars (fun c => is_word c || Ascii.eqb c "." || Ascii.eqb c "-")
    (sanitizeFilename name) = true.
Proof.
  unfold sanitizeFilename. apply sliceTo_allChars, mapChars_allChars.
  intros c. rewrite <- filename_char_word.
  destruct (is_filename_char c) eqn:E; [exact E | reflexivity].
Qed.

Lemma sanitizeFilename_fixed ref :
  safeFilename ref = true -> sanitizeFilename ref = ref.
Proof.
  unfold safeFilename, sanitizeFilename. rewrite !andb_true_iff.
  intros [[_ Hlen] Hchars]. apply Nat.leb_le in Hlen.
  rewrite (mapChars_id _ _ ref) with (2 := Hchars).
  - now apply sliceTo_id.
  - intros c Hc. cbv beta in Hc. now rewrite filename_char_word, Hc.
Qed.

Lemma get_mapChars (f : ascii -> ascii) s : forall i,
  String.get i (mapChars f s) = option_map f (String.get i s).
Proof.
  induction s as [|c r IH]; intros [|i]; cbn; try reflexivity. apply IH.
Qed.

Lemma get_sliceTo n : forall s i,
  (i < n)%nat -> String.get i (sliceTo n s) = String.get i s.
Proof.
  induction n as [|n IH]; intros [|c r] [|i] Hi; cbn; try reflexivity;
    try lia.
  apply IH. lia.
Qed.

(** X20. sanitizeFilename keeps the first 100 characters of the name, or
    all of them when there are fewer, and each of them is kept when it is
    in [[a-zA-Z0-9._-]] and is an underscore otherwise.  Its result, for
    a name that is not empty, passes the check that validateQuizJson and
    the Worker apply to an imageRef; an imageRef that passes that check
    is left as it is, so the image is packed under the very name the quiz
    refers to; and sanitizing twice changes nothing. *)
Theorem X20_sanitizeFilename_is_safe (name : string) :
  String.length (sanitizeFilename name)
  = Nat.min 100 (String.length name)
  /\ (forall i c, (i < 100)%nat -> String.get i name = Some c ->
        String.get i (sanitizeFilename name)
        = Some (if nat_in 97 122 c || nat_in 65 90 c || nat_in 48 57 c
                   || Ascii.eqb c "." || Ascii.eqb c "_" || Ascii.eqb c "-"
                then c else "_"%char))
  /\ (name <> "" -> safeFilename (sanitizeFilename name) = true)
  /\ (safeFilename name = true -> sanitizeFilename name = name)
  /\ sanitizeFilename (sanitizeFilename name) = sanitizeFilename name.
Proof.
  assert (Hlen : String.length (sanitizeFilename name)
                 = Nat.min 100 (String.length name)).
  { unfold sanitizeFilename. now rewrite sliceTo_length_min, mapChars_length. }
  assert (Hsafe : name <> "" -> safeFilename (sanitizeFilename name) = true).
  { intros Hne. unfold safeFilename.
    rewrite sanitizeFilename_chars, Hlen, andb_true_r.
    destruct name as [|c r]; [congruence|]. cbn [String.length].
    apply andb_true_iff. split; [apply Nat.leb_le | apply Nat.leb_le]; lia. }
  split; [exact Hlen|]. split.
  { intros i c Hi Hc. unfold sanitizeFilename.
    rewrite get_sliceTo by exact Hi. rewrite get_mapChars, Hc. reflexivity. }
  split; [exact Hsafe|].
  split; [apply sanitizeFilename_fixed|].
  destruct name as [|c r]; [reflexivity|].
  apply sanitizeFilename_fixed, Hsafe. discriminate.
Qed.

Lemma X20_sanitizeFilename_is_safe_witness :
  safeFilename (sanitizeFilename "my cat.png") = true
  /\ sanitizeFilename "q1.jpg" = "q1.jpg"
  /\ String.get 2 (sanitizeFilename "my cat.png") = Some "_"%char.
Proof.
  split; [|split].
  - destruct (X20_sanitizeFilename_is_safe "my cat.png") as (_ & _ & H & _).
    apply H. discriminate.
  - destruct (X20_sanitizeFilename_is_safe "q1.jpg") as (_ & _ & _ & H & _).
    apply H. reflexivity.
  - destruct (X20_sanitizeFilename_is_safe "my cat.png") as (_ & H & _).
    apply (H 2%nat " "%char); [lia | reflexivity].
Defined.

(* ------------------------------------------------------------------ *)
(** ** The rate limiter of the Worker *)

Lemma sorted_snoc_inv (l : list Z) (x : Z) :
  Sorted Z.le (l ++ [x]) -> Sorted Z.le l /\ List.Forall (fun h => h <= x) l.
Proof.
  intros H. apply Sorted_StronglySorted in H;
    [|intros a b c; apply Z.le_trans].
  induction l as [|a l IH]; [split; constructor|].
  cbn [app] in H. apply StronglySorted_inv in H as [H1 H2].
  destruct (IH H1) as [IH1 IH2]. split.
  - apply StronglySorted_Sorted. constructor.
    + apply Sorted_StronglySorted; [intros u v w; apply Z.le_trans | exact IH1].
    + apply List.Forall_app in H2 as [H2 _]. exact H2.
  - constructor; [|exact IH2].
    apply List.Forall_app in H2 as [_ H2]. now inversion H2.
Qed.

Lemma sorted_snoc (l : list Z) (x : Z) :
  Sorted Z.le l -> List.Forall (fun h => h <= x) l -> Sorted Z.le (l ++ [x]).
Proof.
  intros H Hx. apply Sorted_StronglySorted in H;
    [|intros a b c; apply Z.le_trans].
  apply StronglySorted_Sorted.
  induction H as [|a l Hl IH Ha]; cbn [app].
  - repeat constructor.
  - apply List.Forall_cons_iff in Hx as [Hax Hx]. constructor; [now apply IH|].
    apply List.Forall_app. split; [exact Ha | now constructor].
Qed.

Lemma sorted_filter (f : Z -> bool) (l : list Z) :
  Sorted Z.le l -> Sorted Z.le (List.filter f l).
Proof.
  intros H. apply Sorted_StronglySorted in H;
    [|intros a b c; apply Z.le_trans].
  apply StronglySorted_Sorted.
  induction H as [|a l Hl IH Ha]; cbn [List.filter]; [constructor|].
  destruct (f a); [|exact IH]. constructor; [exact IH|].
  apply List.Forall_forall. intros x Hx. apply List.filter_In in Hx.
  rewrite List.Forall_forall in Ha. now apply Ha.
Qed.

Lemma sorted_le_last (l : list Z) (x : Z) :
  Sorted Z.le l -> In x l -> x <= List.last l 0.
Proof.
  intros H. apply Sorted_StronglySorted in H;
    [|intros a b c; apply Z.le_trans].
  revert x. induction H as [|a l Hl IH Ha]; intros x; [intros []|].
  intros [<-|Hin].
  - destruct l as [|b l]; [cbn; lia|].
    change (List.last (a :: b :: l) 0) with (List.last (b :: l) 0).
    rewrite List.Forall_forall in Ha.
    assert (a <= b) by (apply Ha; now left).
    assert (b <= List.last (b :: l) 0) by (apply IH; now left). lia.
  - destruct l as [|b l]; [destruct Hin|].
    change (List.last (a :: b :: l) 0) with (List.last (b :: l) 0).
    now apply IH.
Qed.

Lemma filter_recent_twice (t now : Z) (l : list Z) :
  t <= now ->
  List.filter (recentHit now) (List.filter (recentHit t) l)
  = List.filter (recentHit now) l.
Proof.
  intros Ht. induction l as [|x l IH]; [reflexivity|].
  cbn [List.filter].
  destruct (recentHit t x) eqn:E1, (recentHit now x) eqn:E2;
    cbn [List.filter]; rewrite ?E2, IH; try reflexivity.
  unfold recentHit in E1, E2. apply Z.leb_le in E2. apply Z.leb_gt in E1. lia.
Qed.

Lemma filter_recent_stale (t now : Z) (l : list Z) :
  Sorted Z.le l -> staleBucket t l = true -> t <= now ->
  List.filter (recentHit now) l = [].
Proof.
  intros Hs Hst Ht. destruct l as [|a l]; [reflexivity|].
  unfold staleBucket in Hst. apply Z.ltb_lt in Hst.
  assert (Hall : forall x, In x (a :: l) -> recentHit now x = false).
  { intros x Hx. pose proof (sorted_le_last _ x Hs Hx).
    unfold recentHit. apply Z.leb_gt. lia. }
  clear Hst Hs. induction (a :: l) as [|x r IH]; [reflexivity|].
  cbn [List.filter]. rewrite Hall by now left.
  apply IH. intros y Hy. apply Hall. now right.
Qed.

Lemma callsOf_snoc ip cs c :
  callsOf ip (cs ++ [c])
  = (callsOf ip cs
     ++ (if String.eqb (call_ip c) ip then [call_now c] else []))%list.
Proof.
  unfold callsOf. rewrite List.filter_app, List.map_app. cbn [List.filter].
  now destruct (String.eqb (call_ip c) ip).
Qed.

(** The bucket of the caller after a call, and what may have happened to
    the bucket of another address. *)
Lemma isRateLimited_own ip max now b :
  fst (isRateLimited ip max now b) !! ip
  = Some (dropOld now (default [] (b !! ip)) ++ [now])%list.
Proof.
  unfold isRateLimited. cbn [fst].
  set (hits := (dropOld now (default [] (b !! ip)) ++ [now])%list).
  destruct (10000 <? _); [|apply lookup_insert_eq].
  apply map_lookup_filter_Some. split; [apply lookup_insert_eq|].
  cbn [snd]. unfold staleBucket.
  destruct hits as [|x r] eqn:E.
  - subst hits. now destruct (dropOld now (default [] (b !! ip))).
  - rewrite <- E. unfold hits. rewrite List.last_last. apply Z.ltb_ge. lia.
Qed.

Lemma isRateLimited_other ip max now b ip' :
  ip' <> ip ->
  fst (isRateLimited ip max now b) !! ip' = b !! ip'
  \/ (fst (isRateLimited ip max now b) !! ip' = None
      /\ staleBucket now (default [] (b !! ip')) = true).
Proof.
  intros Hne. unfold isRateLimited. cbn [fst].
  set (hits := (dropOld now (default [] (b !! ip)) ++ [now])%list).
  destruct (10000 <? _); [|left; now apply lookup_insert_ne].
  destruct (b !! ip') as [v|] eqn:Hv.
  - destruct (staleBucket now v) eqn:Hst.
    + right. split; [|exact Hst]. apply map_lookup_filter_None. right.
      intros x Hx. rewrite lookup_insert_ne in Hx by congruence.
      cbn [snd]. congruence.
    + left. apply map_lookup_filter_Some. split; [|exact Hst].
      rewrite lookup_insert_ne by congruence. exact Hv.
  - left. apply map_lookup_filter_None. left.
    rewrite lookup_insert_ne by congruence. exact Hv.
Qed.

Lemma serveCalls_snoc cs c b :
  serveCalls (cs ++ [c]) b
  = fst (isRateLimited (call_ip c) (call_max c) (call_now c)
           (serveCalls cs b)).
Proof. unfold serveCalls. now rewrite List.fold_left_app. Qed.

(** After calls made at non-decreasing times, the bucket of every address
    is in time order and holds, as far as the window of any later call can
    see, the calls made from that address. *)
Lemma serveCalls_inv (cs : list Call) :
  Sorted Z.le (List.map call_now cs) ->
  forall ip,
    Sorted Z.le (default [] (serveCalls cs ∅ !! ip))
    /\ (forall now,
          List.Forall (fun h => h <= now) (List.map call_now cs) ->
          List.filter (recentHit now) (default [] (serveCalls cs ∅ !! ip))
          = List.filter (recentHit now) (callsOf ip cs)).
Proof.
  induction cs as [|c cs IH] using List.rev_ind; intros Hs ip.
  - unfold serveCalls. cbn [List.fold_left]. rewrite lookup_empty.
    split; [constructor | reflexivity].
  - rewrite List.map_app in Hs. cbn [List.map] in Hs.
    apply sorted_snoc_inv in Hs as [Hs Hle].
    specialize (IH Hs). rewrite serveCalls_snoc, callsOf_snoc.
    set (b := serveCalls cs ∅) in *. set (t := call_now c) in *.
    destruct (String.eqb_spec (call_ip c) ip) as [->|Hne].
    + rewrite isRateLimited_own. cbn [default id].
      destruct (IH ip) as [IH1 IH2]. fold b in IH1, IH2.
      rewrite (dropOld_sorted _ _ IH1). split.
      * apply sorted_snoc; [now apply sorted_filter|].
        apply List.Forall_forall. intros x Hx. apply List.filter_In in Hx.
        destruct Hx as [Hx _].
        assert (Hin : In x (List.filter (recentHit x)
                              (default [] (b !! ip)))).
        { apply List.filter_In. split; [exact Hx|].
          unfold recentHit. apply Z.leb_le. lia. }
        destruct (Z.le_gt_cases x t) as [Hxt|Hxt]; [exact Hxt|].
        rewrite IH2 in Hin.
        2:{ eapply List.Forall_impl; [|exact Hle]. cbv beta. intros; lia. }
        apply List.filter_In in Hin. destruct Hin as [Hin _].
        unfold callsOf in Hin. apply List.in_map_iff in Hin.
        destruct Hin as (c' & <- & Hc'). apply List.filter_In in Hc'.
        rewrite List.Forall_forall in Hle. apply Hle.
        apply List.in_map. tauto.
      * intros now Hnow. rewrite List.map_app in Hnow.
        apply List.Forall_app in Hnow as [Hnow1 Hnow2].
        assert (Htn : t <= now) by now inversion Hnow2.
        rewrite !List.filter_app, filter_recent_twice by exact Htn.
        now rewrite IH2.
    + rewrite List.app_nil_r.
      destruct (IH ip) as [IH1 IH2]. fold b in IH1, IH2.
      destruct (isRateLimited_other (call_ip c) (call_max c) t b ip)
        as [E | [E Hst]]; [congruence | | ]; rewrite E.
      * split; [exact IH1|]. intros now Hnow. apply IH2.
        rewrite List.map_app in Hnow. now apply List.Forall_app in Hnow.
      * cbn [default id]. split; [constructor|]. intros now Hnow.
        rewrite List.map_app in Hnow.
        apply List.Forall_app in Hnow as [Hnow1 Hnow2].
        assert (Htn : t <= now) by now inversion Hnow2.
        rewrite <- IH2 by exact Hnow1. cbn [List.filter].
        symmetry. now apply (filter_recent_stale t).
Qed.

(** X21. With the clock not going back, a request is refused by the
    Worker's limiter exactly when more than [max] requests from the same
    address, this one and the refused ones included, were made in the
    last ten seconds; the bucket of the address then holds exactly those
    requests.  The removal of stale buckets, and the requests of other
    addresses, make no difference. *)
Theorem X21_rate_limit_counts (cs : list Call) (ip : string) (max now : Z) :
  Sorted Z.le (List.map call_now cs ++ [now]) ->
  let recent := List.filter (recentHit now) (callsOf ip cs) in
  snd (isRateLimited ip max now (serveCalls cs ∅))
  = (max <? Js.len recent + 1)
  /\ fst (isRateLimited ip max now (serveCalls cs ∅)) !! ip
     = Some (recent ++ [now])%list.
Proof.
  intros Hs recent. apply sorted_snoc_inv in Hs as [Hs Hle].
  destruct (serveCalls_inv cs Hs ip) as [H1 H2].
  assert (E : dropOld now (default [] (serveCalls cs ∅ !! ip)) = recent).
  { rewrite (dropOld_sorted _ _ H1). now apply H2. }
  split.
  - unfold isRateLimited. cbn [snd]. rewrite E. unfold Js.len.
    rewrite List.length_app. cbn [List.length]. f_equal. lia.
  - rewrite isRateLimited_own. now rewrite E.
Qed.

Lemma X21_rate_limit_counts_witness :
  snd (isRateLimited "10.0.0.1" 2 12000
         (serveCalls [mkCall "10.0.0.1" 2 1000; mkCall "10.0.0.2" 2 1500;
                      mkCall "10.0.0.1" 2 3000; mkCall "10.0.0.1" 2 11500]
            ∅))
  = true.
Proof.
  refine (proj1 (X21_rate_limit_counts
                   [mkCall "10.0.0.1" 2 1000; mkCall "10.0.0.2" 2 1500;
                    mkCall "10.0.0.1" 2 3000; mkCall "10.0.0.1" 2 11500]
                   "10.0.0.1" 2 12000 _)).
  repeat constructor; cbv; discriminate.
Defined.

(* ------------------------------------------------------------------ *)
(** ** The quiz is never changed *)

Ltac quiz_kept :=
  split;
  [ repeat split
  | let s1 := fresh "s1" in
    let H1 := fresh "H1" in
    intros s1 H1;
    first [ left; exact H1
          | right; injection H1 as <-; repeat split ] ].

Ltac quiz_cases :=
  repeat match goal with
         | |- context [match ?x with _ => _ end] =>
             destruct x;
             cbn [ctx_of st gs alarmAt out questions g_id title hostSecret
                  players started paused currentIndex round hostTag
                  disconnectedPlayers set_players set_disconnectedPlayers
                  set_started set_paused set_currentIndex set_round
                  set_hostTag negb orb andb]
         end.

Ltac quiz_open c :=
  destruct c as [[gid ttl qs ps dps stt psd ci rd ht hs] g a o pr];
  unfold quizKept, sameQuiz, toHost, toTag, ack, broadcastLobby, broadcast,
    emit, saveState, setAlarm, deleteAlarm, mutate;
  cbn [ctx_of st gs alarmAt out questions g_id title hostSecret
       players started paused currentIndex round hostTag
       disconnectedPlayers set_players set_disconnectedPlayers
       set_started set_paused set_currentIndex set_round set_hostTag].

Lemma quizKept_refl c : quizKept c c.
Proof. split; [repeat split | intros s1 H; now left]. Qed.

Lemma quizKept_trans c1 c2 c3 :
  quizKept c1 c2 -> quizKept c2 c3 -> quizKept c1 c3.
Proof.
  intros [(A1 & A2 & A3 & A4) B] [(C1 & C2 & C3 & C4) D].
  assert (E : sameQuiz (st c1) (st c3))
    by (repeat split; congruence).
  split; [exact E|].
  intros s1 H. destruct (D s1 H) as [H'|(F1 & F2 & F3 & F4)].
  - apply B, H'.
  - right. repeat split; congruence.
Qed.

Lemma endRound_quiz c : quizKept c (ctx_of (endRound c)).
Proof.
  unfold endRound. quiz_open c. quiz_cases; quiz_kept.
Qed.

Lemma startQuestion_quiz now imageData c :
  quizKept c (ctx_of (startQuestion now imageData c)).
Proof.
  unfold startQuestion, endGame. quiz_open c. quiz_cases; quiz_kept.
Qed.

Lemma onHostStart_quiz wsTag now imageData c :
  quizKept c (ctx_of (onHostStart wsTag now imageData c)).
Proof.
  unfold onHostStart.
  destruct (negb (String.eqb wsTag "host") || started (st c));
    [apply quizKept_refl|].
  eapply quizKept_trans; [|apply startQuestion_quiz].
  quiz_open c. quiz_kept.
Qed.

Lemma onHostNext_quiz wsTag now imageData c :
  quizKept c (ctx_of (onHostNext wsTag now imageData c)).
Proof.
  unfold onHostNext. destruct (negb (String.eqb wsTag "host"));
    [apply quizKept_refl | apply startQuestion_quiz].
Qed.

Lemma onHostPause_quiz wsTag now c : quizKept c (onHostPause wsTag now c).
Proof. unfold onHostPause. quiz_open c. quiz_cases; quiz_kept. Qed.

Lemma onHostResume_quiz wsTag now c : quizKept c (onHostResume wsTag now c).
Proof. unfold onHostResume. quiz_open c. quiz_cases; quiz_kept. Qed.

Lemma onPlayerJoin_quiz wsTag name_ tok reqId_ uuid c :
  quizKept c (ctx_of (onPlayerJoin wsTag name_ tok reqId_ uuid c)).
Proof. unfold onPlayerJoin. quiz_open c. quiz_cases; quiz_kept. Qed.

Lemma onPlayerAnswer_quiz wsTag now questionId optionId c :
  quizKept c (ctx_of (onPlayerAnswer wsTag now questionId optionId c)).
Proof.
  unfold onPlayerAnswer.
  destruct (round (st c)) as [r|]; [|apply quizKept_refl].
  destruct (paused (st c)); [apply quizKept_refl|].
  destruct (Obj.get (players (st c)) wsTag) as [p|]; [|apply quizKept_refl].
  destruct (Js.at_index (questions (st c)) (currentIndex (st c))) as [q|];
    [|apply quizKept_refl].
  destruct (negb (bool_decide (questionId = Some (q_id q))));
    [apply quizKept_refl|].
  destruct (selectedOptionId p); [apply quizKept_refl|].
  destruct optionId as [oid|]; [|apply quizKept_refl].
  destruct (negb (Js.truthy oid) || _); [apply quizKept_refl|].
  destruct (List.filter _ (awaiting r)).
  - eapply quizKept_trans; [|apply endRound_quiz].
    quiz_open c. quiz_cases; quiz_kept.
  - quiz_open c. quiz_cases; quiz_kept.
Qed.

Lemma onHostKickPlayer_quiz wsTag playerName c :
  quizKept c (onHostKickPlayer wsTag playerName c).
Proof. unfold onHostKickPlayer. quiz_open c. quiz_cases; quiz_kept. Qed.

Lemma onPlayerReact_quiz wsTag emoji c :
  quizKept c (onPlayerReact wsTag emoji c).
Proof. unfold onPlayerReact. quiz_open c. quiz_cases; quiz_kept. Qed.

Lemma onPlayerClose_quiz wsTag c : quizKept c (onPlayerClose wsTag c).
Proof. unfold onPlayerClose. quiz_open c. quiz_cases; quiz_kept. Qed.

Lemma dispatch_quiz wsTag now msg uuid c :
  quizKept c (ctx_of (dispatch wsTag now msg uuid c)).
Proof.
  unfold dispatch. destruct (body msg); cbn [ctx_of].
  - apply onHostStart_quiz.
  - apply onHostPause_quiz.
  - apply onHostResume_quiz.
  - apply onHostNext_quiz.
  - apply onPlayerJoin_quiz.
  - apply onPlayerAnswer_quiz.
  - apply onPlayerReact_quiz.
  - quiz_open c. quiz_cases; quiz_kept.
  - apply onHostKickPlayer_quiz.
  - apply quizKept_refl.
Qed.

Lemma quizKept_holds (s0 : GameState) c c' :
  quizKept c c' ->
  ctxHolds (sameQuiz s0) c -> ctxHolds (sameQuiz s0) c'.
Proof.
  intros [(A1 & A2 & A3 & A4) B] [(C1 & C2 & C3 & C4) D].
  split; [repeat split; congruence|].
  intros s1 H. destruct (B s1 H) as [H'|(F1 & F2 & F3 & F4)].
  - now apply D.
  - repeat split; congruence.
Qed.

(** X22. The quiz of a room is fixed at its creation: whatever messages,
    closes, alarms, status checks, upgrades and restarts of the instance
    follow the init, the questions (with their options, correct answers
    and time limits), the room code, the title and the host secret, in the
    state and in the stored snapshot, are those that init computed; in
    particular every time limit is between 5 and 90 seconds.  The init
    itself replaces whatever the durable object held. *)
Theorem X22_quiz_is_fixed (gameId : string) (payload : QuizPayload)
    (drawsQ : list Z) (drawsA : list (list Z)) (uuid : string) (d0 : DO)
    (rs : list Request) (s : GameState) :
  List.forallb (fun r => negb (isInit r)) rs = true ->
  let s0 := createGameState gameId payload drawsQ drawsA uuid in
  let d := serveAll rs (fst (fetchInit gameId payload drawsQ drawsA uuid d0)) in
  stateOf d = Some s \/ storage_gs d = Some s ->
  questions s = questions s0
  /\ g_id s = gameId
  /\ title s = title s0
  /\ hostSecret s = uuid
  /\ (forall q, In q (questions s) -> 5 <= timeLimitSeconds q <= 90).
Proof.
  intros Hrs s0 d Hs.
  assert (Hd : doKeeps (sameQuiz s0) (fun _ => True) d).
  { apply (serveAll_holds_later _ _ (fun _ => true));
      [| | | | |exact Hrs|apply forallb_true|].
    - intros h s1 (A1 & A2 & A3 & A4). repeat split; assumption.
    - exact I.
    - intros wsTag now msg uuid' c _ [Hc _]. split; [|exact I].
      revert Hc. apply quizKept_holds, dispatch_quiz.
    - intros wsTag c [Hc _]. split; [|exact I].
      revert Hc. apply quizKept_holds, onPlayerClose_quiz.
    - intros c [Hc _]. split; [|exact I].
      revert Hc. apply quizKept_holds, endRound_quiz.
    - unfold fetchInit. cbn [fst].
      split; [|exact I].
      split; cbn [_state storage_gs]; intros s1 [= <-]; repeat split. }
  assert (Hq : sameQuiz s0 s).
  { destruct Hd as [[Hm Hg] _].
    destruct Hs as [Hs|Hs]; [|now apply Hg].
    unfold stateOf in Hs.
    destruct (_state d) as [s'|] eqn:E; [apply Hm | apply Hg]; congruence. }
  destruct Hq as (A1 & A2 & A3 & A4).
  split; [exact A1|]. split; [exact A2|]. split; [exact A3|].
  split; [exact A4|].
  intros q Hin. rewrite A1 in Hin.
  now apply (createGameState_timeLimits gameId payload drawsQ drawsA uuid).
Qed.

Lemma X22_quiz_is_fixed_witness :
  questions (default Sample.lobby (stateOf Sample.room6))
  = questions (createGameState "ABC234" Sample.quiz [] [] "secret").
Proof.
  refine (proj1
    (X22_quiz_is_fixed "ABC234" Sample.quiz [] [] "secret"
       (mkDO None ∅ None None None)
       [ReqUpgrade "host" (Some "secret") "";
        ReqEvent (EvMessage "player-ann" 10
                    (Sample.say (player_join (Some "ann") None))
                    "tok-ann");
        ReqEvent (EvMessage "player-bob" 20
                    (Sample.say (player_join (Some "bob") None))
                    "tok-bob");
        ReqEvent (EvMessage "host" 1000
                    (Sample.say (host_startGame None)) "");
        ReqEvent (EvMessage "player-ann" 6000
                    (Sample.say (player_answer (Some "q1") (Some "b")))
                    "");
        ReqEvent (EvMessage "player-bob" 9000
                    (Sample.say (player_answer (Some "q1") (Some "a")))
                    "")]
       (default Sample.lobby (stateOf Sample.room6)) _ _)).
  - vm_compute. reflexivity.
  - left. vm_compute. reflexivity.
Defined.

(* ------------------------------------------------------------------ *)
(** ** Starting the game, joining the lobby, reacting *)

(** X23. host:startGame in a room that is not started, with a next
    question to show: the game is marked started, game:started and then
    question:show are broadcast, the question is opened for every
    connected player with the alarm at its time limit, and everything is
    saved; a second host:startGame is then ignored.  When no question is
    left (an empty quiz, or a game that is over), game:started is followed
    by game:over, the room is not started and the cleanup alarm is set
    one minute ahead. *)
Theorem X23_host_starts_game (now : Z) (img : option string) (c : Ctx) :
  started (st c) = false ->
  (forall q,
     Js.at_index (questions (st c)) (currentIndex (st c) + 1) = Some q ->
     exists c',
       onHostStart "host" now img c = Done c'
       /\ started (st c') = true /\ paused (st c') = false
       /\ currentIndex (st c') = currentIndex (st c) + 1
       /\ round (st c')
          = Some (mkRound now (now + timeLimitSeconds q * 1000)
                    (Obj.keys (players (st c))) None)
       /\ players (st c') = Obj.each resetRoundFields (players (st c))
       /\ alarmAt c' = Some (now + timeLimitSeconds q * 1000)
       /\ gs c' = Some (st c')
       /\ out c'
          = (out c
             ++ [Broadcast (game_started (title (st c)));
                 Broadcast
                   (question_show
                      (mkSafeQ (q_id q) (currentIndex (st c) + 1)
                         (Js.len (questions (st c))) (text q) (imageUrl q)
                         img (timeLimitSeconds q) (options q)))])%list
       /\ forall now' img', onHostStart "host" now' img' c' = Done c')
  /\ (Js.len (questions (st c)) <= currentIndex (st c) + 1 ->
      exists c',
        onHostStart "host" now img c = Done c'
        /\ started (st c') = false
        /\ players (st c') = players (st c)
        /\ alarmAt c' = Some (now + 60000)
        /\ gs c' = Some (st c')
        /\ out c'
           = (out c
              ++ [Broadcast (game_started (title (st c)));
                  Broadcast (game_over (getLeaderboard (st c)))])%list).
Proof.
  intros Hs. split.
  - intros q Hq. unfold onHostStart. rewrite Hs.
    cbn [String.eqb Ascii.eqb Bool.eqb negb orb].
    set (c1 := broadcast _ (saveState (mutate (set_started true) c))).
    assert (Hq1 : Js.at_index (questions (st c1)) (currentIndex (st c1) + 1)
                  = Some q) by (destruct c as [[] ? ? ? ?]; exact Hq).
    destruct (startQuestion_next now img c1 q Hq1)
      as (c' & E & H1 & H2 & H3 & H4 & H5 & H6 & H7 & H8).
    exists c'. split; [exact E|].
    assert (Hst : started (st c') = true)
      by (rewrite H4; destruct c as [[] ? ? ? ?]; reflexivity).
    split; [exact Hst|]. split; [exact H5|].
    split; [rewrite H1; destruct c as [[] ? ? ? ?]; reflexivity|].
    split; [rewrite H2; destruct c as [[] ? ? ? ?]; reflexivity|].
    split; [rewrite H3; destruct c as [[] ? ? ? ?]; reflexivity|].
    split; [exact H6|]. split; [exact H7|].
    split.
    + rewrite H8. destruct c as [[] ? ? ? ?]. unfold c1, broadcast, emit.
      cbn. now rewrite <- List.app_assoc.
    + intros now' img'. unfold onHostStart. rewrite Hst. reflexivity.
  - intros Hover. unfold onHostStart. rewrite Hs.
    cbn [String.eqb Ascii.eqb Bool.eqb negb orb].
    set (c1 := broadcast _ (saveState (mutate (set_started true) c))).
    assert (Hover1 : Js.len (questions (st c1)) <= currentIndex (st c1) + 1)
      by (destruct c as [[] ? ? ? ?]; exact Hover).
    rewrite (startQuestion_last now img c1 Hover1).
    eexists. split; [reflexivity|].
    destruct c as [[] ? ? ? ?]. unfold c1, broadcast, emit. cbn.
    rewrite <- List.app_assoc. repeat split.
Qed.

Lemma X23_host_starts_game_witness :
  exists c', onHostStart "host" 1000 None (Sample.ctxOf Sample.room3)
             = Done c'.
Proof.
  assert (H1 : started (st (Sample.ctxOf Sample.room3)) = false)
    by (vm_compute; reflexivity).
  assert (H2 : Js.at_index (questions (st (Sample.ctxOf Sample.room3)))
                 (currentIndex (st (Sample.ctxOf Sample.room3)) + 1)
               = Some Sample.q1)
    by (vm_compute; reflexivity).
  destruct (X23_host_starts_game 1000 None _ H1) as [H _].
  destruct (H _ H2) as (c' & E & _). exists c'. exact E.
Defined.

(** X24. A reaction never changes the room: the state, the stored
    snapshot and the alarm are as before.  It is forwarded, to the host's
    tag only and with the sender's name, when the game is started, the
    sender is a connected player, the emoji is one of the six allowed and
    a host is bound; in every other case nothing is sent. *)
Theorem X24_reaction_only_reaches_host (wsTag : string) (now : Z)
    (emoji : option string) (reqId_ : option Z) (uuid : string) (d : DO)
    (s : GameState) :
  stateOf d = Some s ->
  Js.len (hitsAfter wsTag now d) <= 30 ->
  let res := webSocketMessage wsTag now
               (Some (mkMessage (player_react emoji) reqId_)) uuid d in
  res = Returned (do_of res) (effects_of res)
  /\ stateOf (do_of res) = Some s
  /\ storage_gs (do_of res) = storage_gs d
  /\ storage_alarm (do_of res) = storage_alarm d
  /\ (forall p e h,
        started s = true -> Obj.get (players s) wsTag = Some p ->
        emoji = Some e -> In e allowedEmoji ->
        hostTag s = Some h -> h <> "" ->
        effects_of res = [ToTag h (reaction_received (name p) (Some e))])
  /\ (effects_of res <> [] ->
      exists p e h,
        started s = true /\ Obj.get (players s) wsTag = Some p
        /\ emoji = Some e /\ In e allowedEmoji
        /\ hostTag s = Some h /\ h <> ""
        /\ effects_of res = [ToTag h (reaction_received (name p) (Some e))]).
Proof.
  intros Hs Hrate res. unfold res.
  rewrite (webSocketMessage_dispatch _ _ _ _ _ s Hs Hrate).
  unfold dispatch. cbn [body leave do_of effects_of].
  split; [reflexivity|].
  unfold onPlayerReact. cbn [st].
  assert (Hnone : forall c0 : Ctx,
            st c0 = s -> gs c0 = storage_gs d ->
            alarmAt c0 = storage_alarm d -> out c0 = [] ->
            (started s = true /\
             (exists p, Obj.get (players s) wsTag = Some p) /\
             Js.includes allowedEmoji (default "" emoji) = true /\
             (exists h, hostTag s = Some h /\ Js.truthy h = true) -> False) ->
            stateOf (leaveCtx (admitted wsTag now d) c0) = Some s
            /\ storage_gs (leaveCtx (admitted wsTag now d) c0) = storage_gs d
            /\ storage_alarm (leaveCtx (admitted wsTag now d) c0)
               = storage_alarm d
            /\ (forall p e h,
                  started s = true -> Obj.get (players s) wsTag = Some p ->
                  emoji = Some e -> In e allowedEmoji ->
                  hostTag s = Some h -> h <> "" ->
                  out c0 = [ToTag h (reaction_received (name p) (Some e))])
            /\ (out c0 <> [] ->
                exists p e h,
                  started s = true /\ Obj.get (players s) wsTag = Some p
                  /\ emoji = Some e /\ In e allowedEmoji
                  /\ hostTag s = Some h /\ h <> ""
                  /\ out c0
                     = [ToTag h (reaction_received (name p) (Some e))])).
  { intros c0 E1 E2 E3 E4 Hno.
    cbn [leaveCtx stateOf _state storage_gs storage_alarm].
    rewrite E1, E2, E3, E4. repeat split; try congruence.
    intros p e h H1 H2 H3 H4 H5 H6. exfalso. apply Hno.
    split; [exact H1|]. split; [eauto|]. split.
    - rewrite H3. cbn [default id]. now apply includes_In.
    - exists h. split; [exact H5 | now apply truthy_true]. }
  destruct (started s) eqn:Hst; cbn [negb].
  2:{ apply Hnone; try reflexivity. intros (H & _). discriminate H. }
  destruct (Obj.get (players s) wsTag) as [p|] eqn:Hp.
  2:{ apply Hnone; try reflexivity. intros (_ & (p & H) & _). discriminate H. }
  destruct (Js.includes allowedEmoji (default "" emoji)) eqn:He; cbn [negb].
  2:{ apply Hnone; try reflexivity. intros (_ & _ & H & _). discriminate H. }
  unfold toHost, toTag, emit. cbn [st].
  destruct (hostTag s) as [h|] eqn:Hh.
  2:{ apply Hnone; try reflexivity. intros (_ & _ & _ & (h & H & _)).
      discriminate H. }
  destruct (Js.truthy h) eqn:Ht.
  2:{ apply Hnone; try reflexivity. intros (_ & _ & _ & (h' & H & H')).
      congruence. }
  apply includes_In in He. apply truthy_true in Ht.
  destruct emoji as [e|].
  2:{ exfalso. cbn in He. repeat (destruct He as [He|He]; [discriminate He|]).
      exact He. }
  cbn [default id] in He.
  cbn [leaveCtx stateOf _state storage_gs storage_alarm st gs alarmAt out app].
  repeat split.
  - intros p' e' h' _ [= <-] [= <-] _ [= <-] _. reflexivity.
  - intros _. exists p, e, h. repeat split; auto.
Qed.

Lemma X24_reaction_only_reaches_host_witness :
  effects_of (webSocketMessage "player-ann" 6500
                (Some (mkMessage (player_react (Some "🔥")) None)) ""
                Sample.room5)
  = [ToTag "host" (reaction_received "ann" (Some "🔥"))]
  /\ stateOf (do_of (webSocketMessage "player-ann" 6500
                       (Some (mkMessage (player_react (Some "🔥")) None)) ""
                       Sample.room5))
     = stateOf Sample.room5.
Proof.
  assert (H1 : stateOf Sample.room5
               = Some (default Sample.lobby (stateOf Sample.room5)))
    by (vm_compute; reflexivity).
  assert (H2 : Js.len (hitsAfter "player-ann" 6500 Sample.room5) <= 30)
    by (vm_compute; discriminate).
  destruct (X24_reaction_only_reaches_host "player-ann" 6500 (Some "🔥") None
              "" _ _ H1 H2) as (_ & H & _ & _ & Hfwd & _).
  split.
  - apply (Hfwd (mkPlayer "ann" 0 (Some 6000) (Some "b") false 0 0 "tok-ann")
             "🔥" "host"); try reflexivity.
    + right. left. reflexivity.
    + discriminate.
  - rewrite H. symmetry. exact H1.
Defined.

Lemma refused_ack ws reqId_ e c :
  refused ws reqId_ e c (ack ws reqId_ (ack_error e) c).
Proof.
  unfold refused, unchanged, reply, ack, emit.
  destruct reqId_; cbn; repeat split. now rewrite List.app_nil_r.
Qed.

(** X25. A player:join in a room that is not started.  It is turned down,
    with nothing changed and the error as the only reply, when the name is
    missing or empty ("Name required."), when nothing is left of it once
    sanitized ("Invalid name."), when the room holds 100 players ("Game is
    full.") and when a connected player has the sanitized name ("Name
    already taken.").  Otherwise the sender's tag is bound to a new player
    with the sanitized name, no score and the fresh rejoin token, the
    state is saved, the token is returned in the reply and the roster is
    broadcast; a rejoin token sent along is not looked at. *)
Theorem X25_lobby_join (wsTag : string) (name_ tok : option string)
    (reqId_ : option Z) (uuid : string) (c : Ctx) :
  started (st c) = false ->
  let c' := ctx_of (onPlayerJoin wsTag name_ tok reqId_ uuid c) in
  let safe := sanitizeName (default "" name_) in
  let taken :=
    existsb (fun p => String.eqb (name p) safe)
      (Obj.values (players (st c))) in
  onPlayerJoin wsTag name_ tok reqId_ uuid c = Done c'
  /\ (name_ = None \/ name_ = Some "" ->
      refused wsTag reqId_ "Name required." c c')
  /\ (default "" name_ <> "" -> safe = "" ->
      refused wsTag reqId_ "Invalid name." c c')
  /\ (safe <> "" -> 100 <= Js.len (players (st c)) ->
      refused wsTag reqId_ "Game is full." c c')
  /\ (safe <> "" -> Js.len (players (st c)) < 100 -> taken = true ->
      refused wsTag reqId_ "Name already taken." c c')
  /\ (safe <> "" -> Js.len (players (st c)) < 100 -> taken = false ->
      let ps' := Obj.set (players (st c)) wsTag
                   (mkPlayer safe 0 None None false 0 0 uuid) in
      st c' = set_players ps' (st c)
      /\ gs c' = Some (st c')
      /\ alarmAt c' = alarmAt c
      /\ out c'
         = (out c
            ++ reply wsTag reqId_
                 (ack_joined (g_id (st c)) (title (st c))
                    (Js.len (questions (st c))) uuid)
            ++ [Broadcast (lobby_update (List.map name (Obj.values ps'))
                             (g_id (st c)) (title (st c)))])%list).
Proof.
  intros Hs c' safe taken.
  assert (Hempty : sanitizeName "" = "") by reflexivity.
  split.
  { unfold c', onPlayerJoin. rewrite Hs.
    repeat match goal with
           | |- context [match ?x with _ => _ end] => destruct x
           | |- context [if ?x then _ else _] => destruct x
           end; reflexivity. }
  split.
  { intros [->| ->]; unfold c', onPlayerJoin; cbn [Js.truthy negb ctx_of];
      apply refused_ack. }
  split.
  { intros Hraw Hsafe. unfold c', onPlayerJoin.
    destruct name_ as [raw|]; [|now contradiction Hraw].
    cbn [default id] in *. apply truthy_true in Hraw. rewrite Hraw.
    cbn [negb]. fold safe. rewrite Hsafe. cbn [Js.truthy negb ctx_of].
    apply refused_ack. }
  assert (Hpre : safe <> "" ->
            exists raw, name_ = Some raw /\ Js.truthy raw = true
                        /\ Js.truthy (sanitizeName raw) = true
                        /\ safe = sanitizeName raw).
  { intros Hsafe. destruct name_ as [raw|]; [|now contradiction Hsafe].
    exists raw. cbn [default id] in *. repeat split.
    - apply truthy_true. intros ->. now apply Hsafe.
    - now apply truthy_true. }
  split.
  { intros Hsafe Hfull. destruct (Hpre Hsafe) as (raw & -> & H1 & H2 & E).
    unfold c', onPlayerJoin. rewrite H1, H2, Hs. cbn [negb].
    rewrite len_keys. apply Z.leb_le in Hfull. rewrite Hfull.
    cbn [ctx_of]. apply refused_ack. }
  split.
  { intros Hsafe Hroom Htaken.
    destruct (Hpre Hsafe) as (raw & -> & H1 & H2 & E).
    unfold c', onPlayerJoin. rewrite H1, H2, Hs. cbn [negb].
    rewrite len_keys. apply Z.leb_gt in Hroom. rewrite Hroom.
    unfold taken in Htaken. rewrite E in Htaken. rewrite Htaken.
    cbn [ctx_of]. apply refused_ack. }
  intros Hsafe Hroom Htaken ps'.
  destruct (Hpre Hsafe) as (raw & -> & H1 & H2 & E).
  unfold c', onPlayerJoin. rewrite H1, H2, Hs. cbn [negb].
  rewrite len_keys. apply Z.leb_gt in Hroom. rewrite Hroom.
  unfold taken in Htaken. rewrite E in Htaken. rewrite Htaken.
  unfold ps'. rewrite E. cbn [ctx_of].
  unfold broadcastLobby, broadcast, ack, reply, emit, saveState, mutate.
  destruct c as [[gid ttl qs ps dps stt psd ci rd ht hs] g a o pr].
  destruct reqId_; cbn; repeat split; now rewrite <- ?List.app_assoc.
Qed.

Lemma X25_lobby_join_witness :
  refused "player-eve" (Some 7) "Name already taken."
    (Sample.ctxOf Sample.room3)
    (ctx_of (onPlayerJoin "player-eve" (Some " ann ") None (Some 7) "tok-eve"
               (Sample.ctxOf Sample.room3))).
Proof.
  assert (H1 : started (st (Sample.ctxOf Sample.room3)) = false)
    by (vm_compute; reflexivity).
  destruct (X25_lobby_join "player-eve" (Some " ann ") None (Some 7)
              "tok-eve" _ H1) as (_ & _ & _ & _ & H & _).
  apply H.
  - vm_compute. discriminate.
  - vm_compute. reflexivity.
  - vm_compute. reflexivity.
Defined.

(* ------------------------------------------------------------------ *)
(** ** The question timer *)

Lemma endRound_done c r q :
  round (st c) = Some r ->
  Js.at_index (questions (st c)) (currentIndex (st c)) = Some q ->
  revealable q (Obj.values (players (st c))) = true ->
  exists rv,
    endRound c
    = Done (mkCtx
              (set_round None
                 (set_players
                    (Obj.each (scorePlayer q (endMs r)) (players (st c)))
                    (st c)))
              (Some (set_round None
                       (set_players
                          (Obj.each (scorePlayer q (endMs r))
                             (players (st c))) (st c))))
              (alarmAt c)
              (out c ++ Broadcast (question_reveal rv)
                        :: hostAdvance (st c))%list
              (proto c))
    /\ rv_correctOptionIds rv = correctOptionIds q.
Proof.
  intros Hr Hq Hrev. rewrite (endRound_eq c r q Hr Hq). cbv zeta.
  assert (Hrev' : revealable q (Obj.values (players (st (scoredCtx q r c))))
                  = true)
    by (cbn [scoredCtx mutate st players set_players];
        now rewrite revealable_scored).
  destruct (playerChoices_typed q _ Hrev') as (choices & -> & _).
  apply revealable_true in Hrev'. destruct Hrev' as [Hno _].
  rewrite (revealCounts_typed q _ Hno).
  destruct c as [[gid ttl qs ps dps stt psd ci rd ht hs] g a o pr].
  unfold scoredCtx, hostAdvance, toHost, toTag, emit, saveState, mutate,
    broadcast. cbn.
  destruct ht as [h|]; [destruct (Js.truthy h)|];
    eexists;
    (split; [cbn; rewrite <- ?List.app_assoc; reflexivity | reflexivity]).
Qed.

(** X26. When the alarm of an open, unpaused round fires and the tallies
    of the reveal can be built, the round is closed: every player is
    scored against the open question by the rule of the specification,
    the reveal is broadcast and the host, if one is bound, is told that
    the game can advance; the round is cleared and the state saved.  An
    answer that arrives afterwards is ignored: nothing is sent and the
    state stays as the alarm left it.  When a recorded answer names a
    member of Object.prototype that is no option of the question, the
    handler throws instead: nothing is sent or stored, the round stays
    open and no alarm is left to close it. *)
Theorem X26_timer_closes_round (d : DO) (s : GameState) (r : RoundState)
    (q : QuizQuestion) :
  stateOf d = Some s -> round s = Some r -> paused s = false ->
  Js.at_index (questions s) (currentIndex s) = Some q ->
  let s' := set_round None
              (set_players (Obj.each (scorePlayer q (endMs r)) (players s))
                 s) in
  (revealable q (Obj.values (players s)) = true ->
   exists d' rv,
     fireAlarm d
     = Returned d' (Broadcast (question_reveal rv) :: hostAdvance s)
     /\ rv_correctOptionIds rv = correctOptionIds q
     /\ stateOf d' = Some s' /\ storage_gs d' = Some s'
     /\ storage_alarm d' = None
     /\ (forall w p, Obj.get (players s) w = Some p ->
           exists p', Obj.get (players s') w = Some p'
                      /\ scoredAs q (endMs r) p p')
     /\ forall wsTag now questionId optionId reqId_ uuid,
          let late := webSocketMessage wsTag now
                        (Some (mkMessage (player_answer questionId optionId)
                                 reqId_)) uuid d' in
          effects_of late = [] /\ stateOf (do_of late) = Some s'
          /\ storage_gs (do_of late) = Some s')
  /\ (~ In "__proto__" (List.map o_id (options q)) ->
      revealable q (Obj.values (players s)) = false ->
      exists d' s1,
        fireAlarm d = Raised d' []
        /\ stateOf d' = Some s1 /\ round s1 = Some r
        /\ storage_gs d' = storage_gs d
        /\ storage_alarm d' = None).
Proof.
  intros Hs Hr Hp Hq s'.
  unfold fireAlarm, alarm, getState.
  assert (Hs1 : stateOf (mkDO (_state d) (_wsRateMap d) (storage_gs d) None
                           (_proto d))
                = Some s) by exact Hs.
  rewrite Hs1, Hr, Hp. cbn [_wsRateMap storage_gs storage_alarm _proto].
  set (d1 := mkDO (Some s) (_wsRateMap d) (storage_gs d) None
               (protoOf (mkDO (_state d) (_wsRateMap d) (storage_gs d) None
                           (_proto d)))).
  split.
  - intros Hrev.
    destruct (endRound_done (enter d1 s) r q Hr Hq Hrev) as (rv & E & Hrv).
    rewrite E. cbn [leave leaveCtx st gs alarmAt out enter storage_gs
                    storage_alarm _wsRateMap app d1].
    eexists. exists rv. split; [reflexivity|]. split; [exact Hrv|].
    split; [reflexivity|]. split; [reflexivity|]. split; [reflexivity|].
    split.
    { intros w p Hw. exists (scorePlayer q (endMs r) p). split.
      - unfold s'. cbn [players set_round set_players].
        now rewrite get_each, Hw.
      - apply scorePlayer_scoredAs. }
    intros wsTag now questionId optionId reqId_ uuid.
    unfold webSocketMessage.
    cbn [_state _wsRateMap storage_gs storage_alarm _proto].
    destruct (30 <? _); [repeat split|].
    unfold getState, stateOf. cbn [_state storage_gs].
    unfold dispatch. cbn [body]. unfold onPlayerAnswer, enter. cbn [st].
    cbn [round set_round]. repeat split.
  - intros Hnin Hrev.
    rewrite (endRound_throws (enter d1 s) r q Hr Hq); [|
      destruct (existsb (fun opt => String.eqb (o_id opt) "__proto__")
                  (options q)) eqn:E; [|reflexivity];
      apply existsb_option_id in E; contradiction | exact Hrev].
    cbn [leave leaveCtx]. eexists. eexists.
    split; [reflexivity|]. split; [reflexivity|].
    split; [exact Hr|]. split; reflexivity.
Qed.

Lemma X26_timer_closes_round_witness :
  exists d' effects, fireAlarm Sample.room5 = Returned d' effects.
Proof.
  assert (H1 : stateOf Sample.room5
               = Some (default Sample.lobby (stateOf Sample.room5)))
    by (vm_compute; reflexivity).
  assert (H2 : round (default Sample.lobby (stateOf Sample.room5))
               = Some (mkRound 1000 21000 ["player-bob"] None))
    by (vm_compute; reflexivity).
  assert (H3 : paused (default Sample.lobby (stateOf Sample.room5)) = false)
    by (vm_compute; reflexivity).
  assert (H4 : Js.at_index
                 (questions (default Sample.lobby (stateOf Sample.room5)))
                 (currentIndex (default Sample.lobby
                                  (stateOf Sample.room5)))
               = Some Sample.q1)
    by (vm_compute; reflexivity).
  destruct (X26_timer_closes_round _ _ _ _ H1 H2 H3 H4) as [H _].
  destruct (H eq_refl) as (d' & rv & E & _).
  exists d'. eexists. exact E.
Defined.

(* ------------------------------------------------------------------ *)
(** ** A player called __proto__ *)

